(** * Hiqma API: encrypted identity, code generation and access governance

    A shallow embedding of the security core of the Hiqma API
    (SecurityService, AccessControlService, AuditLoggerService,
    RateLimiterGuard and the student and device paths of StudentsService
    and DevicesService), followed by the properties proved about it.

    Conventions of the embedding
    - a JavaScript string is its sequence of UTF-16 code units ([jsstring]);
      ASCII literals of the source are injected with [js];
    - a [Buffer] is a list of bytes;
    - [throw] is the [Thrown] outcome of a small state-and-exception monad,
      [try]/[catch] is [tryCatch];
    - randomness ([crypto.randomBytes], [crypto.randomInt], [Math.random])
      is read from a tape of integers held in the state, so that every
      run of the source corresponds to one tape;
    - what the process is given from outside is a parameter: the cipher,
      its key, the time zone in which [Date] reads calendar fields, and
      what the ORM writes into a date column on [save];
    - Nest's console [Logger] is write-only and is left out. *)

From Stdlib Require Import List ZArith Bool String Ascii Lia DecimalString.
From Stdlib.Strings Require Import Byte.
From Stdlib Require Import Permutation.
Import ListNotations.

Local Open Scope string_scope.
Local Open Scope list_scope.
Local Open Scope Z_scope.

(* ------------------------------------------------------------------ *)
(** ** JavaScript values *)

Module Js.

(** A string is a list of UTF-16 code units, each in [0, 65536). *)
Definition jsstring := list Z.

Definition js (s : string) : jsstring :=
  map (fun a => Z.of_N (N_of_ascii a)) (list_ascii_of_string s).

Definition validUnit (c : Z) : bool := (0 <=? c) && (c <? 65536).
Definition validUnits (s : jsstring) : bool := forallb validUnit s.

(** [a === b] on strings. *)
Fixpoint strEq (a b : jsstring) : bool :=
  match a, b with
  | [], [] => true
  | x :: a', y :: b' => (x =? y) && strEq a' b'
  | _, _ => false
  end.

(** [arr.includes(x)] on an array of strings. *)
Definition includes (arr : list jsstring) (x : jsstring) : bool :=
  existsb (strEq x) arr.

(** [arr.join(sep)]. *)
Fixpoint join (sep : jsstring) (arr : list jsstring) : jsstring :=
  match arr with
  | [] => []
  | [x] => x
  | x :: rest => x ++ sep ++ join sep rest
  end.

(** WhiteSpace and LineTerminator code points, the ones [trim] strips. *)
Definition isWhiteSpace (c : Z) : bool :=
  ((9 <=? c) && (c <=? 13)) || (c =? 32) || (c =? 0xA0) || (c =? 0x1680)
  || ((0x2000 <=? c) && (c <=? 0x200A)) || (c =? 0x2028) || (c =? 0x2029)
  || (c =? 0x202F) || (c =? 0x205F) || (c =? 0x3000) || (c =? 0xFEFF).

Fixpoint trimStart (s : jsstring) : jsstring :=
  match s with
  | [] => []
  | c :: rest => if isWhiteSpace c then trimStart rest else s
  end.

Definition trimEnd (s : jsstring) : jsstring := rev (trimStart (rev s)).

Definition trim (s : jsstring) : jsstring := trimEnd (trimStart s).

(** [str.split(sep)] for a one-unit separator: never empty, one more piece
    than there are separators. *)
Fixpoint split (sep : Z) (s : jsstring) : list jsstring :=
  match s with
  | [] => [[]]
  | c :: rest =>
      if c =? sep then [] :: split sep rest
      else match split sep rest with
           | [] => [[c]]
           | p :: ps => (c :: p) :: ps
           end
  end.

(** Decimal rendering of an integer inside a template literal. *)
Definition showZ (z : Z) : jsstring := js (NilZero.string_of_int (Z.to_int z)).

(** Truthiness of an optional string: [undefined] and [''] are falsy. *)
Definition truthyStr (o : option jsstring) : bool :=
  match o with
  | Some (_ :: _) => true
  | _ => false
  end.

(** The longest string V8 builds on a 64-bit platform
    ([buffer.constants.MAX_STRING_LENGTH]). *)
Definition maxStringLength : Z := 2 ^ 29 - 24.

(** Exceptions of the source, each carrying its [message]. *)
Inductive Exn : Type :=
| Error (msg : jsstring)
| TypeError (msg : jsstring)
| RangeError (msg : jsstring)
| NotFoundException (msg : jsstring)
| BadRequestException (msg : jsstring)
| ForbiddenException (msg : jsstring).

Definition message (e : Exn) : jsstring :=
  match e with
  | Error m | TypeError m | RangeError m | NotFoundException m
  | BadRequestException m | ForbiddenException m => m
  end.

Inductive Outcome (A : Type) : Type :=
| Returned (a : A)
| Thrown (e : Exn).

Arguments Returned {A} a.
Arguments Thrown {A} e.

End Js.

Import Js.

(* ------------------------------------------------------------------ *)
(** ** Effects: state and exceptions *)

Module Eff.

Definition Eff (S A : Type) : Type := S -> Outcome A * S.

Definition ret {S A} (a : A) : Eff S A := fun s => (Returned a, s).

Definition throw {S A} (e : Exn) : Eff S A := fun s => (Thrown e, s).

Definition bind {S A B} (m : Eff S A) (k : A -> Eff S B) : Eff S B :=
  fun s =>
    match m s with
    | (Returned a, s') => k a s'
    | (Thrown e, s') => (Thrown e, s')
    end.

(** [try { body } catch (error) { handler }]: the state changes made by the
    body before it threw are kept. *)
Definition tryCatch {S A} (body : Eff S A) (handler : Exn -> Eff S A) : Eff S A :=
  fun s =>
    match body s with
    | (Returned a, s') => (Returned a, s')
    | (Thrown e, s') => handler e s'
    end.

Definition get {S} : Eff S S := fun s => (Returned s, s).

Definition modify {S} (f : S -> S) : Eff S unit := fun s => (Returned tt, f s).

(** Run a computation on a component of the state. *)
Definition zoom {S T A} (proj : T -> S) (upd : S -> T -> T) (m : Eff S A) : Eff T A :=
  fun t => let (r, s') := m (proj t) in (r, upd s' t).

End Eff.

Import Eff.

Declare Scope eff_scope.
Delimit Scope eff_scope with eff.

Notation "x <- c1 ;; c2" := (bind c1 (fun x => c2))
  (at level 61, c1 at next level, right associativity) : eff_scope.
Notation "c1 ;;; c2" := (bind c1 (fun _ => c2))
  (at level 61, right associativity) : eff_scope.

(* ------------------------------------------------------------------ *)
(** ** The random tape *)

Module Rand.

(** The integers the platform's generators will produce, in order. *)
Definition Tape := nat -> Z.

Definition draw : Eff Tape Z :=
  fun t => (Returned (t 0%nat), fun n => t (S n)).

(** A uniform integer in [0, n): [crypto.randomInt(0, n)], and
    [Math.floor(Math.random() * n)] for the small [n] used here. *)
Definition randomBelow (n : Z) : Eff Tape Z :=
  (r <- draw ;; ret (r mod n))%eff.

Definition byteOf (z : Z) : byte :=
  match Byte.of_N (Z.to_N (z mod 256)) with
  | Some b => b
  | None => x00
  end.

Definition byteVal (b : byte) : Z := Z.of_N (Byte.to_N b).

(** [crypto.randomBytes(n)] for a size it accepts. *)
Fixpoint randomBytes (n : nat) : Eff Tape (list byte) :=
  match n with
  | O => ret []
  | S n' => (r <- draw ;; rest <- randomBytes n' ;; ret (byteOf r :: rest))%eff
  end.

(** The largest size [crypto.randomBytes] accepts. *)
Definition maxRandomSize : Z := 2 ^ 31 - 1.

(** [addNumericalSeparator] of Node's error messages, on the reversed
    digits: an underscore after every three digits that more follow. *)
Fixpoint separateThousands (reversed : jsstring) : jsstring :=
  match reversed with
  | a :: b :: c :: ((_ :: _) as rest) => a :: b :: c :: 95 :: separateThousands rest
  | _ => reversed
  end.

(** The [RangeError] of [crypto.randomBytes] (ERR_OUT_OF_RANGE); the text
    is the one of a size that JavaScript prints in full, below 10^21. *)
Definition sizeOutOfRange (size : Z) : Exn :=
  RangeError
    (js "The value of " ++ [34] ++ js "size" ++ [34]
     ++ js " is out of range. It must be >= 0 && <= 2147483647. Received "
     ++ (if 2 ^ 32 <? size then rev (separateThousands (rev (showZ size)))
         else showZ size)).

(** [crypto.randomBytes(size)] for a size that is a parameter: one larger
    than 2^31 - 1 is refused before any byte is drawn. *)
Definition randomBytesChecked (size : nat) : Eff Tape (list byte) :=
  if Z.of_nat size <=? maxRandomSize then randomBytes size
  else throw (sizeOutOfRange (Z.of_nat size)).

(** The tape that replays a finite list and then repeats [0]. *)
Definition tapeOf (l : list Z) : Tape := fun n => nth n l 0.

End Rand.

Import Rand.

(* ------------------------------------------------------------------ *)
(** ** Buffers: hexadecimal and UTF-8 *)

Module Buffer.

(** [buf.toString('hex')]: two lowercase digits per byte. *)
Definition hexDigit (n : Z) : Z := if n <? 10 then 48 + n else 87 + n.

Definition toHex (buf : list byte) : jsstring :=
  flat_map (fun b => [hexDigit (byteVal b / 16); hexDigit (byteVal b mod 16)]) buf.

(** The value of a hexadecimal digit, of either case. *)
Definition hexVal (c : Z) : option Z :=
  if (48 <=? c) && (c <=? 57) then Some (c - 48)
  else if (97 <=? c) && (c <=? 102) then Some (c - 87)
  else if (65 <=? c) && (c <=? 70) then Some (c - 55)
  else None.

(** [Buffer.from(str, 'hex')]: pairs of digits are decoded until the first
    pair that is not hexadecimal; a trailing single character is dropped. *)
Fixpoint fromHex (s : jsstring) : list byte :=
  match s with
  | h :: l :: rest =>
      match hexVal h, hexVal l with
      | Some a, Some b => byteOf (16 * a + b) :: fromHex rest
      | _, _ => []
      end
  | _ => []
  end.

Definition isHighSurrogate (c : Z) : bool := (0xD800 <=? c) && (c <=? 0xDBFF).
Definition isLowSurrogate (c : Z) : bool := (0xDC00 <=? c) && (c <=? 0xDFFF).

(** No unpaired surrogate and every unit in range: the strings UTF-8 can
    represent. *)
Fixpoint wellFormed (s : jsstring) : bool :=
  match s with
  | [] => true
  | c :: rest =>
      if isHighSurrogate c then
        match rest with
        | d :: rest' => isLowSurrogate d && wellFormed rest'
        | [] => false
        end
      else validUnit c && negb (isLowSurrogate c) && wellFormed rest
  end.

Definition utf8OfCodePoint (cp : Z) : list byte :=
  if cp <? 0x80 then [byteOf cp]
  else if cp <? 0x800 then
    [byteOf (0xC0 + cp / 64); byteOf (0x80 + cp mod 64)]
  else if cp <? 0x10000 then
    [byteOf (0xE0 + cp / 4096); byteOf (0x80 + (cp / 64) mod 64);
     byteOf (0x80 + cp mod 64)]
  else
    [byteOf (0xF0 + cp / 262144); byteOf (0x80 + (cp / 4096) mod 64);
     byteOf (0x80 + (cp / 64) mod 64); byteOf (0x80 + cp mod 64)].

(** U+FFFD REPLACEMENT CHARACTER in UTF-8. *)
Definition replacementBytes : list byte := [xef; xbf; xbd].

(** [Buffer.from(str, 'utf8')], also what [cipher.update(str, 'utf8')]
    feeds the cipher: surrogate pairs become one four-byte sequence, an
    unpaired surrogate becomes U+FFFD. *)
Fixpoint utf8Encode (s : jsstring) : list byte :=
  match s with
  | [] => []
  | c :: rest =>
      if isHighSurrogate c then
        match rest with
        | d :: rest' =>
            if isLowSurrogate d
            then utf8OfCodePoint (0x10000 + (c - 0xD800) * 1024 + (d - 0xDC00))
                 ++ utf8Encode rest'
            else replacementBytes ++ utf8Encode rest
        | [] => replacementBytes
        end
      else if isLowSurrogate c then replacementBytes ++ utf8Encode rest
      else utf8OfCodePoint c ++ utf8Encode rest
  end.

(** The UTF-8 decoder's state: the code point being assembled, how many
    continuation bytes were seen and are needed, and the range the next
    byte must lie in. *)
Record Utf8Decoder : Type := {
  codePoint : Z;
  bytesSeen : Z;
  bytesNeeded : Z;
  lowerBoundary : Z;
  upperBoundary : Z
}.

Definition utf8Init : Utf8Decoder :=
  {| codePoint := 0; bytesSeen := 0; bytesNeeded := 0;
     lowerBoundary := 0x80; upperBoundary := 0xBF |}.

Definition unitsOfCodePoint (cp : Z) : jsstring :=
  if cp <? 0x10000 then [cp]
  else [0xD800 + (cp - 0x10000) / 1024; 0xDC00 + (cp - 0x10000) mod 1024].

(** A byte read when no sequence is open. *)
Definition utf8Lead (b : Z) : jsstring * Utf8Decoder :=
  if b <=? 0x7F then ([b], utf8Init)
  else if (0xC2 <=? b) && (b <=? 0xDF) then
    ([], {| codePoint := b mod 32; bytesSeen := 0; bytesNeeded := 1;
            lowerBoundary := 0x80; upperBoundary := 0xBF |})
  else if (0xE0 <=? b) && (b <=? 0xEF) then
    ([], {| codePoint := b mod 16; bytesSeen := 0; bytesNeeded := 2;
            lowerBoundary := if b =? 0xE0 then 0xA0 else 0x80;
            upperBoundary := if b =? 0xED then 0x9F else 0xBF |})
  else if (0xF0 <=? b) && (b <=? 0xF4) then
    ([], {| codePoint := b mod 8; bytesSeen := 0; bytesNeeded := 3;
            lowerBoundary := if b =? 0xF0 then 0x90 else 0x80;
            upperBoundary := if b =? 0xF4 then 0x8F else 0xBF |})
  else ([0xFFFD], utf8Init).

Definition utf8Step (st : Utf8Decoder) (b : Z) : jsstring * Utf8Decoder :=
  if bytesNeeded st =? 0 then utf8Lead b
  else if negb ((lowerBoundary st <=? b) && (b <=? upperBoundary st)) then
    let (out, st') := utf8Lead b in (0xFFFD :: out, st')
  else
    let cp := codePoint st * 64 + b mod 64 in
    if bytesSeen st + 1 =? bytesNeeded st then (unitsOfCodePoint cp, utf8Init)
    else ([], {| codePoint := cp; bytesSeen := bytesSeen st + 1;
                 bytesNeeded := bytesNeeded st;
                 lowerBoundary := 0x80; upperBoundary := 0xBF |}).

Fixpoint utf8Run (st : Utf8Decoder) (buf : list byte) : jsstring :=
  match buf with
  | [] => if bytesNeeded st =? 0 then [] else [0xFFFD]
  | b :: rest =>
      let (out, st') := utf8Step st (byteVal b) in out ++ utf8Run st' rest
  end.

(** [buf.toString('utf8')], and the text [decipher.update(.., 'utf8')]
    and [decipher.final('utf8')] return together: ill-formed input becomes
    U+FFFD, nothing throws. *)
Definition utf8Decode (buf : list byte) : jsstring := utf8Run utf8Init buf.

End Buffer.

Import Buffer.

(* ------------------------------------------------------------------ *)
(** ** SecurityService *)

(** What the service uses of Node's [aes-256-gcm]:
    - [gcmSeal key iv aad plaintext] is the ciphertext and authentication
      tag that [createCipheriv], [setAAD], [update], [final] and
      [getAuthTag] produce, [None] when one of them throws;
    - [gcmOpen key iv aad tag ciphertext] is the plaintext that
      [createDecipheriv], [setAAD], [setAuthTag], [update] and [final]
      produce, [None] when one of them throws: a rejected IV or tag, or a
      tag that does not verify. *)
Record AesGcm : Type := {
  gcmSeal : list byte -> list byte -> list byte -> list byte
            -> option (list byte * list byte);
  gcmOpen : list byte -> list byte -> list byte -> list byte -> list byte
            -> option (list byte)
}.

Module Security.

Definition ivLength : nat := 16.

(** [Buffer.from('student-data', 'utf8')]. *)
Definition aad : list byte := utf8Encode (js "student-data").

(** [!s || s.trim().length === 0]. *)
Definition isBlank (s : jsstring) : bool :=
  match s with
  | [] => true
  | _ => (List.length (trim s) =? 0)%nat
  end.

Definition defaultCharset : jsstring := js "ABCDEFGHJKLMNPQRSTUVWXYZ23456789".

(** [chars[i]] appended to a string: one unit, or the text of [undefined]. *)
Definition charAt (chars : jsstring) (i : Z) : jsstring :=
  match nth_error chars (Z.to_nat i) with
  | Some c => [c]
  | None => js "undefined"
  end.

(** The [TypeError] of [cipher.update] and [decipher.update] for a
    hexadecimal string of odd length (ERR_INVALID_ARG_VALUE). *)
Definition invalidHexInput (data : jsstring) : Exn :=
  TypeError (js "The argument 'encoding' is invalid for data of length "
             ++ showZ (Z.of_nat (List.length data)) ++ js ". Received 'hex'").

Section Service.

Variable cipher : AesGcm.

(** The key derived once, at construction, by [scryptSync]. *)
Variable encryptionKey : list byte.

Definition encrypt (plaintext : jsstring) : Eff Tape jsstring :=
  if isBlank plaintext then ret plaintext
  else
    tryCatch
      (iv <- randomBytes ivLength ;;
       match gcmSeal cipher encryptionKey iv aad (utf8Encode plaintext) with
       | Some (encrypted, tag) =>
           ret (toHex iv ++ js ":" ++ toHex tag ++ js ":" ++ toHex encrypted)
       | None => throw (Error (js "Unsupported state"))
       end)%eff
      (fun _ => throw (Error (js "Failed to encrypt data"))).

(** [iv] and [tag] are decoded by [Buffer.from], which stops at what is
    not hexadecimal; [encrypted] is handed as text to
    [decipher.update(encrypted, 'hex', 'utf8')], which refuses a string of
    odd length and otherwise decodes it the same way.  Every exception of
    the block reaches the one handler, which discards it, so the order in
    which the decipher's calls fail does not show. *)
Definition decrypt {S : Type} (encryptedData : jsstring) : Eff S jsstring :=
  if isBlank encryptedData then ret encryptedData
  else
    tryCatch
      (match split 58 encryptedData with
       | [p0; p1; p2] =>
           let iv := fromHex p0 in
           let tag := fromHex p1 in
           let encrypted := p2 in
           if Nat.odd (List.length encrypted)
           then throw (invalidHexInput encrypted)
           else
             match gcmOpen cipher encryptionKey iv aad tag (fromHex encrypted) with
             | Some decrypted => ret (utf8Decode decrypted)
             | None =>
                 throw (Error (js "Unsupported state or unable to authenticate data"))
             end
       | _ => throw (Error (js "Invalid encrypted data format"))
       end)
      (fun _ => throw (Error (js "Failed to decrypt data"))).

End Service.

Definition generateSecureRandom (length : nat) (charset : option jsstring)
  : Eff Tape jsstring :=
  let chars := match charset with
               | Some (c :: cs) => c :: cs
               | _ => defaultCharset
               end in
  (randomBytes <- randomBytesChecked (length * 2) ;;
   let result :=
     flat_map (fun b => charAt chars (byteVal b mod Z.of_nat (List.length chars)))
       (firstn length randomBytes) in
   (* [result += chars[randomIndex]] throws once the string is too long *)
   if Z.of_nat (List.length result) <=? maxStringLength then ret result
   else throw (RangeError (js "Invalid string length")))%eff.

(** [6 + Math.floor(Math.random() * 3)] characters. *)
Definition generateDeviceCode : Eff Tape jsstring :=
  (r <- randomBelow 3 ;;
   generateSecureRandom (6 + Z.to_nat r) None)%eff.

(** [4 + Math.floor(Math.random() * 3)] characters. *)
Definition generateStudentCode : Eff Tape jsstring :=
  (r <- randomBelow 3 ;;
   generateSecureRandom (4 + Z.to_nat r) None)%eff.

End Security.

(* ------------------------------------------------------------------ *)
(** ** Dates *)

(** A [Date] is its time value, milliseconds since the epoch.  The
    functions are those of the ECMAScript specification; the ones that
    read or write calendar fields do so in the local time of the process,
    which is a parameter. *)
Module Date.

Definition msPerDay : Z := 86400000.

Definition Day (t : Z) : Z := t / msPerDay.
Definition TimeWithinDay (t : Z) : Z := t mod msPerDay.

(** Day number of the first of [month] (0 to 11) of [year]. *)
Definition dayOfMonthStart (year month : Z) : Z :=
  let y := if month <? 2 then year - 1 else year in
  let era := y / 400 in
  let yoe := y - era * 400 in
  let mp := if month <? 2 then month + 10 else month - 2 in
  let doy := (153 * mp + 2) / 5 in
  era * 146097 + (yoe * 365 + yoe / 4 - yoe / 100 + doy) - 719468.

(** Year, month (0 to 11) and day of the month (1 to 31) of a day number. *)
Definition civilFromDay (day : Z) : Z * Z * Z :=
  let z := day + 719468 in
  let era := z / 146097 in
  let doe := z mod 146097 in
  let yoe := (doe - doe / 1460 + doe / 36524 - doe / 146096) / 365 in
  let doy := doe - (365 * yoe + yoe / 4 - yoe / 100) in
  let mp := (5 * doy + 2) / 153 in
  let d := doy - (153 * mp + 2) / 5 + 1 in
  let m := if mp <? 10 then mp + 2 else mp - 10 in
  (if m <? 2 then yoe + era * 400 + 1 else yoe + era * 400, m, d).

Definition YearFromTime (t : Z) : Z := fst (fst (civilFromDay (Day t))).
Definition MonthFromTime (t : Z) : Z := snd (fst (civilFromDay (Day t))).
Definition DateFromTime (t : Z) : Z := snd (civilFromDay (Day t)).

(** [MakeDay(year, month, date)]: months beyond 11 carry into the year and
    days beyond the month's end carry into the next month. *)
Definition MakeDay (year month date : Z) : Z :=
  dayOfMonthStart (year + month / 12) (month mod 12) + date - 1.

Definition MakeDate (day time : Z) : Z := day * msPerDay + time.

(** [LocalTZA(t, isUTC)]: the offset of local time from UTC, in
    milliseconds, at the time value [t] when [isUTC] is true and at the
    local time [t] otherwise.  It is given by the time zone of the process
    (the TZ variable), which the service does not set. *)
Definition TimeZone : Type := Z -> bool -> Z.

(** [LocalTime(t)] and [UTC(t)] of the specification: from a time value
    to the local time and back. *)
Definition LocalTime (zone : TimeZone) (t : Z) : Z := t + zone t true.

Definition UTC (zone : TimeZone) (t : Z) : Z := t - zone t false.

(** [TimeClip]: [None] is NaN, the time value of an invalid date. *)
Definition TimeClip (time : Z) : option Z :=
  if Z.abs time <=? 8640000000000000 then Some time else None.

(** [date.getFullYear()]: the year of the local date. *)
Definition getFullYear (zone : TimeZone) (t : Z) : Z :=
  YearFromTime (LocalTime zone t).

(** The local time [t] with its year replaced: month, day of the month and
    time of day are kept. *)
Definition withFullYear (t year : Z) : Z :=
  MakeDate (MakeDay year (MonthFromTime t) (DateFromTime t)) (TimeWithinDay t).

(** [date.setFullYear(year)]: the year of the local date is replaced and
    the result is read back as a time value. *)
Definition setFullYear (zone : TimeZone) (t year : Z) : option Z :=
  TimeClip (UTC zone (withFullYear (LocalTime zone t) year)).

(** The zones without daylight saving: UTC, and a fixed offset from it. *)
Definition fixedZone (offset : Z) : TimeZone := fun _ _ => offset.

Definition utcZone : TimeZone := fixedZone 0.

(** [InLeapYear]: every fourth year, except the centuries not divisible by
    400. *)
Definition inLeapYear (y : Z) : bool :=
  (y mod 4 =? 0) && (negb (y mod 100 =? 0) || (y mod 400 =? 0)).

(** The number of days of month [m] (0 to 11) of year [y]. *)
Definition daysInMonth (y m : Z) : Z :=
  if m =? 1 then (if inLeapYear y then 29 else 28)
  else if (m =? 3) || (m =? 5) || (m =? 8) || (m =? 10) then 30
  else 31.

(** The time value of a calendar date and time of day in UTC, what the
    JavaScript function [Date.UTC] returns for them. *)
Definition utc (year month date ms : Z) : Z :=
  MakeDate (MakeDay year month date) ms.

End Date.

(* ------------------------------------------------------------------ *)
(** ** AccessControlService *)

Module AccessControl.

Inductive UserType : Type := admin | system | api | anonymous.

Definition userTypeName (u : UserType) : jsstring :=
  match u with
  | admin => js "admin"
  | system => js "system"
  | api => js "api"
  | anonymous => js "anonymous"
  end.

Record AccessContext : Type := {
  userId : option jsstring;
  userType : UserType;
  hubId : option jsstring;
  ipAddress : option jsstring;
  userAgent : option jsstring;
  permissions : option (list jsstring)
}.

Record AccessRule : Type := {
  resource : jsstring;
  action : jsstring;
  requiredPermissions : list jsstring;
  allowedUserTypes : list jsstring;
  requiresHubAccess : option bool;
  sensitiveData : option bool;
  complianceRequired : option (list jsstring)
}.

(** Truthiness of an optional boolean field. *)
Definition isTrue (o : option bool) : bool :=
  match o with
  | Some true => true
  | _ => false
  end.

Definition mkRule (res act : string) (perms types : list string)
  (hub sens : option bool) (compliance : option (list string)) : AccessRule :=
  {| resource := js res; action := js act;
     requiredPermissions := map js perms; allowedUserTypes := map js types;
     requiresHubAccess := hub; sensitiveData := sens;
     complianceRequired := option_map (map js) compliance |}.

Definition accessRules : list AccessRule :=
  (* Student data access rules *)
  [ mkRule "student" "view" ["student:read"] ["admin"; "system"]
      (Some true) (Some true) (Some ["COPPA"; "GDPR"]);
    mkRule "student" "create" ["student:write"] ["admin"; "system"]
      (Some true) (Some true) (Some ["COPPA"; "GDPR"]);
    mkRule "student" "update" ["student:write"] ["admin"; "system"]
      (Some true) (Some true) (Some ["COPPA"; "GDPR"]);
    mkRule "student" "delete" ["student:delete"] ["admin"]
      (Some true) (Some true) (Some ["COPPA"; "GDPR"; "RIGHT_TO_BE_FORGOTTEN"]);
    mkRule "student" "export" ["student:export"] ["admin"]
      (Some true) (Some true) (Some ["GDPR"; "DATA_PORTABILITY"]);
    mkRule "student" "authenticate" [] ["system"; "api"; "anonymous"]
      (Some false) (Some false) None;
  (* Device management access rules *)
    mkRule "device" "view" ["device:read"] ["admin"; "system"]
      (Some true) None None;
    mkRule "device" "create" ["device:write"] ["admin"; "system"]
      (Some true) None None;
    mkRule "device" "update" ["device:write"] ["admin"; "system"]
      (Some true) None None;
    mkRule "device" "delete" ["device:delete"] ["admin"]
      (Some true) None None;
    mkRule "device" "register" [] ["system"; "api"; "anonymous"]
      (Some false) None None;
    mkRule "device" "validate" [] ["system"; "api"; "anonymous"]
      (Some false) None None;
  (* Analytics access rules *)
    mkRule "analytics" "view" ["analytics:read"] ["admin"; "system"]
      (Some true) None None;
    mkRule "analytics" "collect" [] ["system"; "api"]
      (Some false) None None;
    mkRule "analytics" "export" ["analytics:export"] ["admin"]
      (Some true) (Some true) (Some ["GDPR"]);
  (* Hub management access rules *)
    mkRule "hub" "view" ["hub:read"] ["admin"; "system"]
      (Some true) None None;
    mkRule "hub" "manage" ["hub:admin"] ["admin"]
      (Some true) None None;
  (* Audit log access rules *)
    mkRule "audit" "view" ["audit:read"] ["admin"]
      (Some false) (Some true) None ].

Record Decision : Type := {
  allowed : bool;
  reason : option jsstring;
  complianceFlags : option (list jsstring)
}.

Definition deny (why : jsstring) : Decision :=
  {| allowed := false; reason := Some why; complianceFlags := None |}.

(** Reading [context.userType], the first property both methods read: a
    caller outside the type checker can pass [undefined], and the read
    then throws a [TypeError]. *)
Definition readContext {S : Type} (context : option AccessContext)
  : Eff S AccessContext :=
  match context with
  | Some c => ret c
  | None =>
      throw (TypeError (js "Cannot read properties of undefined (reading 'userType')"))
  end.

(** [accessRules.find(r => r.resource === resource && r.action === action)]. *)
Definition findRule (res act : jsstring) : option AccessRule :=
  find (fun r => strEq (resource r) res && strEq (action r) act) accessRules.

(** [rule.requiredPermissions.every(p => context.permissions.includes(p))]. *)
Definition hasRequiredPermissions (rule : AccessRule) (perms : list jsstring) : bool :=
  forallb (fun permission => includes perms permission) (requiredPermissions rule).

(** The body of the [try] block of [checkAccess]. *)
Definition evaluateAccess {S : Type} (context : option AccessContext)
  (res act : jsstring) (resourceId : option jsstring) : Eff S Decision :=
  match findRule res act with
  | None => ret (deny (js "No access rule defined"))
  | Some rule =>
      (ctx <- readContext context ;;
       (* Check user type *)
       if negb (includes (allowedUserTypes rule) (userTypeName (userType ctx)))
       then ret (deny (js "User type '" ++ userTypeName (userType ctx)
                       ++ js "' not allowed for " ++ res ++ js ":" ++ act))
       else
         (* Check permissions (if user has permissions defined) *)
         let missing :=
           match permissions ctx with
           | Some perms =>
               (0 <? List.length (requiredPermissions rule))%nat
               && negb (hasRequiredPermissions rule perms)
           | None => false
           end in
         if missing
         then ret (deny (js "Missing required permissions: "
                         ++ join (js ", ") (requiredPermissions rule)))
         (* Check hub access requirement *)
         else if isTrue (requiresHubAccess rule) && negb (truthyStr (hubId ctx))
         then ret (deny (js "Hub access required but no hub ID provided"))
         else ret {| allowed := true; reason := None;
                     complianceFlags := complianceRequired rule |})%eff
  end.

Definition checkAccess {S : Type} (context : option AccessContext)
  (res act : jsstring) (resourceId : option jsstring) : Eff S Decision :=
  tryCatch (evaluateAccess context res act resourceId)
    (fun _ => ret (deny (js "Access check failed"))).

(** Throws [ForbiddenException] when access is denied.  The warning it logs
    first reads [context.userType]. *)
Definition enforceAccess {S : Type} (context : option AccessContext)
  (res act : jsstring) (resourceId : option jsstring) : Eff S (list jsstring) :=
  (result <- checkAccess context res act resourceId ;;
   if negb (allowed result)
   then
     _ <- readContext context ;;
     throw (ForbiddenException
              (if truthyStr (reason result)
               then match reason result with Some r => r | None => [] end
               else js "Access denied"))
   else ret (match complianceFlags result with Some fl => fl | None => [] end))%eff.

Record COPPARequirements : Type := {
  minimumAge : Z;
  parentalConsentRequired : bool;
  dataMinimization : bool;
  retentionLimits : bool
}.

Definition getCOPPARequirements : COPPARequirements :=
  {| minimumAge := 13; parentalConsentRequired := true;
     dataMinimization := true; retentionLimits := true |}.

Record AgeValidation : Type := {
  compliant : bool;
  requiresParentalConsent : bool;
  warnings : list jsstring
}.

(** [age] is [None] for [undefined]; [!age] also holds of [0]. *)
Definition validateStudentAge (age : option Z) : AgeValidation :=
  let coppaRequirements := getCOPPARequirements in
  match age with
  | None | Some 0 =>
      {| compliant := false; requiresParentalConsent := true;
         warnings := [js "Age not provided - cannot verify COPPA compliance"] |}
  | Some a =>
      if a <? 3 then
        {| compliant := false; requiresParentalConsent := true;
           warnings := [js "Age below minimum expected range"] |}
      else if a <? minimumAge coppaRequirements then
        {| compliant := true; requiresParentalConsent := true;
           warnings := [js "Student under " ++ showZ (minimumAge coppaRequirements)
                        ++ js " - COPPA parental consent required"] |}
      else
        {| compliant := true; requiresParentalConsent := false; warnings := [] |}
  end.

Record RetentionPolicy : Type := {
  studentDataYears : Z;
  analyticsDataYears : Z;
  auditLogsYears : Z
}.

Definition getDataRetentionPolicy : RetentionPolicy :=
  {| studentDataYears := 3; analyticsDataYears := 2; auditLogsYears := 7 |}.

Inductive DataType : Type := student | analytics | audit.

Record Retention : Type := {
  retain : bool;
  retentionReason : jsstring;
  retentionAction : option jsstring
}.

Definition retentionYears (dataType : DataType) : Z :=
  let policy := getDataRetentionPolicy in
  match dataType with
  | student => studentDataYears policy
  | analytics => analyticsDataYears policy
  | audit => auditLogsYears policy
  end.

Definition additionalChecks (dataType : DataType) (studentAge : option Z) : jsstring :=
  match dataType with
  | student =>
      match studentAge with
      | Some a =>
          if negb (a =? 0) && (a <? 13)
          then js " (COPPA compliance - parental consent may affect retention)"
          else []
      | None => []
      end
  | analytics => js " (can be anonymized after retention period)"
  | audit => js " (compliance requirement)"
  end.

(** The date after which data of this type is no longer kept; [None] when
    it is not a valid date. *)
Definition retentionDate (zone : Date.TimeZone) (dataType : DataType)
  (lastActivity : Z) : option Z :=
  Date.setFullYear zone lastActivity
    (Date.getFullYear zone lastActivity + retentionYears dataType).

(** [now > retentionDate]: false when the date is invalid. *)
Definition isAfter (now : Z) (date : option Z) : bool :=
  match date with
  | Some t => t <? now
  | None => false
  end.

(** [zone] is the time zone of the process and [now] the value of
    [new Date()] at the call. *)
Definition shouldRetainData (zone : Date.TimeZone) (now : Z) (dataType : DataType)
  (lastActivity : Z) (studentAge : option Z) : Retention :=
  if isAfter now (retentionDate zone dataType lastActivity) then
    {| retain := false;
       retentionReason := js "Data older than " ++ showZ (retentionYears dataType)
                          ++ js " years" ++ additionalChecks dataType studentAge;
       retentionAction := Some (match dataType with
                                | analytics => js "anonymize"
                                | _ => js "delete"
                                end) |}
  else
    {| retain := true;
       retentionReason := js "Within " ++ showZ (retentionYears dataType)
                          ++ js " year retention period"
                          ++ additionalChecks dataType studentAge;
       retentionAction := None |}.

End AccessControl.

(* ------------------------------------------------------------------ *)
(** ** Entities and the state of the process *)

Module Student.

(** A row of [students]; [firstName], [lastName] and [metadata] are the
    virtual, decrypted properties, which are not stored. *)
Record t : Type := {
  id : jsstring;
  hubId : jsstring;
  studentCode : jsstring;
  firstNameEncrypted : option jsstring;
  lastNameEncrypted : option jsstring;
  grade : option jsstring;
  age : option Z;
  metadataEncrypted : option jsstring;
  status : jsstring;
  createdAt : Z;
  updatedAt : Z;
  firstName : option jsstring;
  lastName : option jsstring;
  metadata : option jsstring
}.

End Student.

Module Device.

Record t : Type := {
  id : jsstring;
  hubId : jsstring;
  deviceCode : jsstring;
  status : jsstring
}.

End Device.

Module EdgeHub.

Record t : Type := {
  hubId : jsstring
}.

End EdgeHub.

Module AuditEntry.

(** A value of the [details] map of an audit entry. *)
Inductive Detail : Type :=
| DString (s : option jsstring)
| DNumber (n : option Z)
| DBoolean (b : bool)
| DStrings (l : list jsstring).

Record t : Type := {
  id : option jsstring;
  userId : option jsstring;
  userType : AccessControl.UserType;
  action : jsstring;
  resource : jsstring;
  resourceId : option jsstring;
  details : option (list (jsstring * Detail));
  ipAddress : option jsstring;
  userAgent : option jsstring;
  success : bool;
  errorMessage : option jsstring;
  timestamp : Z;
  hubId : option jsstring;
  sensitiveData : option bool;
  complianceFlags : option (list jsstring)
}.

End AuditEntry.

(** The repositories, the audit buffer, the random tape and the clock.
    [codeLookups] is ghost state: the number of code-uniqueness queries the
    storage has served. *)
Record World : Type := {
  students : list Student.t;
  edgeHubs : list EdgeHub.t;
  devices : list Device.t;
  auditLogs : list AuditEntry.t;
  rng : Tape;
  now : Z;
  codeLookups : nat
}.

Definition setStudents (l : list Student.t) (w : World) : World :=
  {| students := l; edgeHubs := edgeHubs w; devices := devices w;
     auditLogs := auditLogs w; rng := rng w; now := now w;
     codeLookups := codeLookups w |}.

Definition setAuditLogs (l : list AuditEntry.t) (w : World) : World :=
  {| students := students w; edgeHubs := edgeHubs w; devices := devices w;
     auditLogs := l; rng := rng w; now := now w;
     codeLookups := codeLookups w |}.

Definition setRng (t : Tape) (w : World) : World :=
  {| students := students w; edgeHubs := edgeHubs w; devices := devices w;
     auditLogs := auditLogs w; rng := t; now := now w;
     codeLookups := codeLookups w |}.

Definition setNow (t : Z) (w : World) : World :=
  {| students := students w; edgeHubs := edgeHubs w; devices := devices w;
     auditLogs := auditLogs w; rng := rng w; now := t;
     codeLookups := codeLookups w |}.

Definition countLookup (w : World) : World :=
  {| students := students w; edgeHubs := edgeHubs w; devices := devices w;
     auditLogs := auditLogs w; rng := rng w; now := now w;
     codeLookups := S (codeLookups w) |}.

(** A computation on the random tape, run on the tape of the process. *)
Definition random {A : Type} (m : Eff Tape A) : Eff World A := zoom rng setRng m.

(** [await new Promise(resolve => setTimeout(resolve, ms))]. *)
Definition sleep (ms : Z) : Eff World unit := modify (fun w => setNow (now w + ms) w).

(* ------------------------------------------------------------------ *)
(** ** AuditLoggerService *)

Module AuditLogger.

Import AuditEntry.

Definition maxLogEntries : Z := 10000.

Fixpoint base36 (digits : nat) (n : Z) : jsstring :=
  match digits with
  | O => []
  | S digits' =>
      base36 digits' (n / 36)
      ++ [let d := n mod 36 in if d <? 10 then 48 + d else 87 + d]
  end.

(** [`audit_${Date.now()}_${Math.random().toString(36).substr(2, 9)}`]:
    the base-36 digits that follow [0.] in the text of the random number,
    nine of them at most and fewer when the text is shorter.  The next
    integer of the tape gives their number and their values. *)
Definition generateId : Eff World jsstring :=
  (w <- get ;;
   r <- random (randomBelow (10 * 36 ^ 9)) ;;
   ret (js "audit_" ++ showZ (now w) ++ js "_"
        ++ base36 (Z.to_nat (r mod 10)) (r / 10)))%eff.

(** The entry gets its id and timestamp and is pushed; the oldest entry is
    shifted out when the buffer exceeds its bound. *)
Definition logEvent (entry : AuditEntry.t) : Eff World unit :=
  (newId <- generateId ;;
   modify (fun w =>
     let auditEntry :=
       {| id := Some newId; userId := userId entry; userType := userType entry;
          action := action entry; resource := resource entry;
          resourceId := resourceId entry; details := details entry;
          ipAddress := ipAddress entry; userAgent := userAgent entry;
          success := success entry; errorMessage := errorMessage entry;
          timestamp := now w; hubId := hubId entry;
          sensitiveData := sensitiveData entry;
          complianceFlags := complianceFlags entry |} in
     let pushed := auditLogs w ++ [auditEntry] in
     setAuditLogs
       (if maxLogEntries <? Z.of_nat (List.length pushed) then tl pushed else pushed)
       w))%eff.

(** The parameters of [logStudentDataAccess] next to the spread context. *)
Record StudentAccess : Type := {
  accessAction : jsstring;
  studentId : jsstring;
  accessHubId : jsstring;
  accessSuccess : bool;
  accessErrorMessage : option jsstring;
  accessDetails : option (list (jsstring * Detail))
}.

Definition logStudentDataAccess (context : AccessControl.AccessContext)
  (params : StudentAccess) : Eff World unit :=
  logEvent
    {| id := None;
       userId := AccessControl.userId context;
       userType := AccessControl.userType context;
       action := accessAction params;
       resource := js "student";
       resourceId := Some (studentId params);
       details := accessDetails params;
       ipAddress := AccessControl.ipAddress context;
       userAgent := AccessControl.userAgent context;
       success := accessSuccess params;
       errorMessage := accessErrorMessage params;
       timestamp := 0;
       hubId := Some (accessHubId params);
       sensitiveData := Some true;
       complianceFlags := Some [js "COPPA"; js "GDPR"] |}.

End AuditLogger.

(* ------------------------------------------------------------------ *)
(** ** StudentsService *)

Module Students.

Definition chars : jsstring := js "ABCDEFGHJKMNPQRSTUVWXYZ23456789".

Definition letterChars : jsstring := js "ABCDEFGHJKMNPQRSTUVWXYZ".

(** [/^[0-9]/.test(result)]. *)
Definition startsWithDigit (s : jsstring) : bool :=
  match s with
  | c :: _ => (48 <=? c) && (c <=? 57)
  | [] => false
  end.

(** The [for] loop of [generateStudentCode]: one [crypto.randomInt] and one
    appended character per round. *)
Fixpoint appendRandomChars (rounds : nat) (result : jsstring) : Eff Tape jsstring :=
  match rounds with
  | O => ret result
  | S rounds' =>
      (randomIndex <- randomBelow (Z.of_nat (List.length chars)) ;;
       appendRandomChars rounds' (result ++ Security.charAt chars randomIndex))%eff
  end.

Definition generateStudentCode (length : nat) : Eff Tape jsstring :=
  if (length <? 3)%nat || (6 <? length)%nat
  then throw (Error (js "Student code length must be between 3 and 6 characters"))
  else
    (result <- appendRandomChars length [] ;;
     (* Ensure the code starts with a letter for better readability *)
     if startsWithDigit result
     then
       randomLetterIndex <- randomBelow (Z.of_nat (List.length letterChars)) ;;
       ret (Security.charAt letterChars randomLetterIndex ++ tl result)
     else ret result)%eff.

Definition maxAttempts : nat := 15.

(** [studentRepository.findOne({ where: { studentCode: code } })]. *)
Definition findByCode (code : jsstring) : Eff World (option Student.t) :=
  fun w => (Returned (find (fun s => strEq (Student.studentCode s) code) (students w)),
            countLookup w).

(** The [while (attempts < maxAttempts)] loop; [remaining] is
    [maxAttempts - attempts], the number of rounds the loop may still make. *)
Fixpoint uniqueStudentCodeLoop (remaining attempts codeLength : nat)
  : Eff World jsstring :=
  match remaining with
  | O =>
      throw (Error (js "Unable to generate unique student code after "
                    ++ showZ (Z.of_nat maxAttempts) ++ js " attempts"))
  | S remaining' =>
      (code <- random (generateStudentCode codeLength) ;;
       (* Check for collision in the entire database *)
       existing <- findByCode code ;;
       match existing with
       | None => ret code
       | Some _ =>
           let attempts := S attempts in
           (* After 5 attempts, increase code length *)
           let codeLength :=
             if (attempts =? 5)%nat then 5%nat
             else if (attempts =? 10)%nat then 6%nat
             else codeLength in
           (* Add small delay to prevent rapid database queries *)
           (if (3 <? attempts)%nat then sleep (10 * Z.of_nat attempts) else ret tt) ;;;
           uniqueStudentCodeLoop remaining' attempts codeLength
       end)%eff
  end.

Definition generateUniqueStudentCode (hubId : option jsstring) : Eff World jsstring :=
  uniqueStudentCodeLoop maxAttempts 0 4.

Definition inCharset (charset : jsstring) (c : Z) : bool :=
  existsb (Z.eqb c) charset.

(** [/^[ABCDEFGHJKMNPQRSTUVWXYZ23456789]{3,6}$/.test(code)]. *)
Definition validateStudentCodeFormat (code : jsstring) : bool :=
  forallb (inCharset chars) code
  && (3 <=? List.length code)%nat && (List.length code <=? 6)%nat.

(** The fields of a create or update request; [metadata] is the JSON text
    of the object, what [JSON.stringify] returns for it. *)
Record StudentData : Type := {
  firstName : option jsstring;
  lastName : option jsstring;
  grade : option jsstring;
  age : option Z;
  metadata : option jsstring;
  status : option jsstring
}.

Definition defaultContext : AccessControl.AccessContext :=
  {| AccessControl.userId := None; AccessControl.userType := AccessControl.system;
     AccessControl.hubId := None; AccessControl.ipAddress := None;
     AccessControl.userAgent := None; AccessControl.permissions := None |}.

(** [{ ...context, hubId }]. *)
Definition withHub (context : AccessControl.AccessContext) (hubId : jsstring)
  : AccessControl.AccessContext :=
  {| AccessControl.userId := AccessControl.userId context;
     AccessControl.userType := AccessControl.userType context;
     AccessControl.hubId := Some hubId;
     AccessControl.ipAddress := AccessControl.ipAddress context;
     AccessControl.userAgent := AccessControl.userAgent context;
     AccessControl.permissions := AccessControl.permissions context |}.

Definition failure (act studentId hubId : jsstring) (msg : jsstring)
  : AuditLogger.StudentAccess :=
  {| AuditLogger.accessAction := act; AuditLogger.studentId := studentId;
     AuditLogger.accessHubId := hubId; AuditLogger.accessSuccess := false;
     AuditLogger.accessErrorMessage := Some msg;
     AuditLogger.accessDetails := None |}.

(** A UUID, generated on insert. *)
Definition newId : Eff World jsstring :=
  (bytes <- random (randomBytes 16) ;; ret (toHex bytes))%eff.

(** [age < 3 || age > 18] for a provided age. *)
Definition ageOutOfRange (age : option Z) : bool :=
  match age with
  | Some a => (a <? 3) || (18 <? a)
  | None => false
  end.

Definition setDecrypted (student : Student.t) (first last meta : option jsstring)
  : Student.t :=
  {| Student.id := Student.id student; Student.hubId := Student.hubId student;
     Student.studentCode := Student.studentCode student;
     Student.firstNameEncrypted := Student.firstNameEncrypted student;
     Student.lastNameEncrypted := Student.lastNameEncrypted student;
     Student.grade := Student.grade student; Student.age := Student.age student;
     Student.metadataEncrypted := Student.metadataEncrypted student;
     Student.status := Student.status student;
     Student.createdAt := Student.createdAt student;
     Student.updatedAt := Student.updatedAt student;
     Student.firstName := first; Student.lastName := last;
     Student.metadata := meta |}.

Section Service.

Variable cipher : AesGcm.
Variable encryptionKey : list byte.

(** What the [@UpdateDateColumn] of a loaded entity holds after
    [repository.save]: the ORM and the database decide it, from the state
    they are in and the entity they are given.  The service does not, and
    nothing is assumed of it here. *)
Variable updateDate : World -> Student.t -> Z.

(** [x ? this.securityService.decrypt(x) : undefined]. *)
Definition decryptField (x : option jsstring) : Outcome (option jsstring) :=
  match x with
  | Some (c :: cs) =>
      match fst (Security.decrypt cipher encryptionKey (c :: cs) tt) with
      | Returned v => Returned (Some v)
      | Thrown e => Thrown e
      end
  | _ => Returned None
  end.

(** The three assignments run in order; when one throws, the error is
    logged to the console and the student is returned as it then is. *)
Definition decryptStudentData (student : Student.t) : Student.t :=
  match decryptField (Student.firstNameEncrypted student) with
  | Thrown _ => student
  | Returned first =>
      let s1 := setDecrypted student first (Student.lastName student)
                  (Student.metadata student) in
      match decryptField (Student.lastNameEncrypted student) with
      | Thrown _ => s1
      | Returned last =>
          let s2 := setDecrypted student first last (Student.metadata student) in
          match decryptField (Student.metadataEncrypted student) with
          | Thrown _ => s2
          | Returned meta => setDecrypted student first last meta
          end
      end
  end.

(** [x ? this.securityService.encrypt(f(x)) : null]. *)
Definition encryptField (f : jsstring -> jsstring) (x : option jsstring)
  : Eff World (option jsstring) :=
  match x with
  | Some (c :: cs) =>
      (v <- random (Security.encrypt cipher encryptionKey (f (c :: cs))) ;;
       ret (Some v))%eff
  | _ => ret None
  end.

(** [grade?.trim() || null]. *)
Definition trimmedOrNull (x : option jsstring) : option jsstring :=
  match x with
  | Some g => match trim g with [] => None | t => Some t end
  | None => None
  end.

Definition createStudent (hubId : jsstring) (studentData : StudentData)
  (context : AccessControl.AccessContext) : Eff World Student.t :=
  let log := AuditLogger.logStudentDataAccess in
  tryCatch
    ((* Check access control *)
     let contextWithHub := withHub context hubId in
     _ <- AccessControl.enforceAccess (Some contextWithHub)
            (js "student") (js "create") None ;;
     (* Validate hub exists *)
     w <- get ;;
     match find (fun h => strEq (EdgeHub.hubId h) hubId) (edgeHubs w) with
     | None =>
         log contextWithHub (failure (js "create") (js "unknown") hubId
                               (js "Hub not found")) ;;;
         throw (NotFoundException (js "Hub not found"))
     | Some _ =>
         (* Validate age and COPPA compliance *)
         if ageOutOfRange (age studentData)
         then
           log contextWithHub (failure (js "create") (js "unknown") hubId
                                 (js "Invalid age provided")) ;;;
           throw (BadRequestException (js "Student age must be between 3 and 18"))
         else
           (* Check COPPA compliance *)
           let coppaValidation := AccessControl.validateStudentAge (age studentData) in
           if negb (AccessControl.compliant coppaValidation)
           then
             let msg := js "COPPA compliance issue: "
                        ++ join (js ", ") (AccessControl.warnings coppaValidation) in
             log contextWithHub (failure (js "create") (js "unknown") hubId msg) ;;;
             throw (BadRequestException msg)
           else
             (* Check student count limit per hub *)
             w <- get ;;
             let existingStudentCount :=
               List.length (filter (fun s => strEq (Student.hubId s) hubId)
                              (students w)) in
             if 1000 <=? Z.of_nat existingStudentCount
             then
               log contextWithHub (failure (js "create") (js "unknown") hubId
                                     (js "Maximum student count exceeded")) ;;;
               throw (BadRequestException
                        (js "Maximum student count per hub (1000) exceeded"))
             else
               studentCode <- generateUniqueStudentCode (Some hubId) ;;
               firstNameEncrypted <- encryptField trim (firstName studentData) ;;
               lastNameEncrypted <- encryptField trim (lastName studentData) ;;
               metadataEncrypted <- encryptField (fun x => x) (metadata studentData) ;;
               newStudentId <- newId ;;
               w <- get ;;
               let savedStudent :=
                 {| Student.id := newStudentId; Student.hubId := hubId;
                    Student.studentCode := studentCode;
                    Student.firstNameEncrypted := firstNameEncrypted;
                    Student.lastNameEncrypted := lastNameEncrypted;
                    Student.grade := trimmedOrNull (grade studentData);
                    Student.age := match age studentData with
                                   | Some 0 => None
                                   | a => a
                                   end;
                    Student.metadataEncrypted := metadataEncrypted;
                    Student.status := js "active";
                    Student.createdAt := now w; Student.updatedAt := now w;
                    Student.firstName := None; Student.lastName := None;
                    Student.metadata := None |} in
               modify (fun w => setStudents (students w ++ [savedStudent]) w) ;;;
               (* Log successful creation *)
               log contextWithHub
                 {| AuditLogger.accessAction := js "create";
                    AuditLogger.studentId := Student.id savedStudent;
                    AuditLogger.accessHubId := hubId;
                    AuditLogger.accessSuccess := true;
                    AuditLogger.accessErrorMessage := None;
                    AuditLogger.accessDetails := Some
                      [ (js "studentCode", AuditEntry.DString (Some studentCode));
                        (js "hasFirstName",
                         AuditEntry.DBoolean (truthyStr (firstName studentData)));
                        (js "hasLastName",
                         AuditEntry.DBoolean (truthyStr (lastName studentData)));
                        (js "grade", AuditEntry.DString (grade studentData));
                        (js "age", AuditEntry.DNumber (age studentData));
                        (js "coppaCompliant",
                         AuditEntry.DBoolean (AccessControl.compliant coppaValidation));
                        (js "requiresParentalConsent",
                         AuditEntry.DBoolean
                           (AccessControl.requiresParentalConsent coppaValidation)) ]
                 |} ;;;
               ret (decryptStudentData savedStudent)
     end)%eff
    (fun error =>
       (* Log failed creation attempt *)
       (log context (failure (js "create") (js "unknown") hubId (message error)) ;;;
        throw error)%eff).

(** The assignments of [updateStudent] to the loaded entity, in order;
    nothing is stored before [save]. *)
Definition applyUpdate (student : Student.t) (updateData : StudentData)
  : Eff World (Student.t * list jsstring) :=
  (firstNameEncrypted <-
     match firstName updateData with
     | Some x => encryptField trim (Some x)
     | None => ret (Student.firstNameEncrypted student)
     end ;;
   lastNameEncrypted <-
     match lastName updateData with
     | Some x => encryptField trim (Some x)
     | None => ret (Student.lastNameEncrypted student)
     end ;;
   metadataEncrypted <-
     match metadata updateData with
     | Some x => encryptField (fun x => x) (Some x)
     | None => ret (Student.metadataEncrypted student)
     end ;;
   let provided {A : Type} (x : option A) (name : string) : list jsstring :=
     match x with Some _ => [js name] | None => [] end in
   ret ({| Student.id := Student.id student; Student.hubId := Student.hubId student;
           Student.studentCode := Student.studentCode student;
           Student.firstNameEncrypted := firstNameEncrypted;
           Student.lastNameEncrypted := lastNameEncrypted;
           Student.grade := match grade updateData with
                            | Some g => trimmedOrNull (Some g)
                            | None => Student.grade student
                            end;
           Student.age := match age updateData with
                          | Some a => Some a
                          | None => Student.age student
                          end;
           Student.metadataEncrypted := metadataEncrypted;
           Student.status := match status updateData with
                             | Some st => st
                             | None => Student.status student
                             end;
           Student.createdAt := Student.createdAt student;
           Student.updatedAt := Student.updatedAt student;
           Student.firstName := Student.firstName student;
           Student.lastName := Student.lastName student;
           Student.metadata := Student.metadata student |},
        provided (firstName updateData) "firstName"
        ++ provided (lastName updateData) "lastName"
        ++ provided (grade updateData) "grade"
        ++ provided (age updateData) "age"
        ++ provided (metadata updateData) "metadata"
        ++ provided (status updateData) "status"))%eff.

(** [studentRepository.save(student)] for a loaded entity: its row takes
    the columns of the entity, and [updatedAt] what the ORM decides. *)
Definition saveExisting (student : Student.t) : Eff World Student.t :=
  (w <- get ;;
   let saved :=
     {| Student.id := Student.id student; Student.hubId := Student.hubId student;
        Student.studentCode := Student.studentCode student;
        Student.firstNameEncrypted := Student.firstNameEncrypted student;
        Student.lastNameEncrypted := Student.lastNameEncrypted student;
        Student.grade := Student.grade student; Student.age := Student.age student;
        Student.metadataEncrypted := Student.metadataEncrypted student;
        Student.status := Student.status student;
        Student.createdAt := Student.createdAt student;
        Student.updatedAt := updateDate w student;
        Student.firstName := Student.firstName student;
        Student.lastName := Student.lastName student;
        Student.metadata := Student.metadata student |} in
   modify (fun w =>
     setStudents
       (map (fun s => if strEq (Student.id s) (Student.id student) then saved else s)
          (students w)) w) ;;;
   ret saved)%eff.

Definition updateStudent (studentId : jsstring) (updateData : StudentData)
  (context : AccessControl.AccessContext) : Eff World Student.t :=
  let log := AuditLogger.logStudentDataAccess in
  tryCatch
    ((* Get student first to check hub access *)
     w <- get ;;
     match find (fun s => strEq (Student.id s) studentId) (students w) with
     | None => throw (NotFoundException (js "Student not found"))
     | Some student =>
         (* Check access control *)
         let contextWithHub := withHub context (Student.hubId student) in
         _ <- AccessControl.enforceAccess (Some contextWithHub)
                (js "student") (js "update") (Some studentId) ;;
         (* Validate age and COPPA compliance if provided *)
         if ageOutOfRange (age updateData)
         then
           log contextWithHub (failure (js "update") studentId (Student.hubId student)
                                 (js "Invalid age provided")) ;;;
           throw (BadRequestException (js "Student age must be between 3 and 18"))
         else
           (* Check COPPA compliance for age updates *)
           let coppaValidation := AccessControl.validateStudentAge (age updateData) in
           if match age updateData with
              | Some _ => negb (AccessControl.compliant coppaValidation)
              | None => false
              end
           then
             let msg := js "COPPA compliance issue: "
                        ++ join (js ", ") (AccessControl.warnings coppaValidation) in
             log contextWithHub
               (failure (js "update") studentId (Student.hubId student) msg) ;;;
             throw (BadRequestException msg)
           else
             (* Update fields with encryption *)
             updated <- applyUpdate student updateData ;;
             savedStudent <- saveExisting (fst updated) ;;
             (* Log successful update *)
             log contextWithHub
               {| AuditLogger.accessAction := js "update";
                  AuditLogger.studentId := studentId;
                  AuditLogger.accessHubId := Student.hubId student;
                  AuditLogger.accessSuccess := true;
                  AuditLogger.accessErrorMessage := None;
                  AuditLogger.accessDetails := Some
                    [ (js "updatedFields", AuditEntry.DStrings (snd updated));
                      (js "newAge", AuditEntry.DNumber (age updateData));
                      (js "newStatus", AuditEntry.DString (status updateData)) ]
               |} ;;;
             ret (decryptStudentData savedStudent)
     end)%eff
    (fun error =>
       (* Log failed update attempt *)
       (log context (failure (js "update") studentId (js "unknown") (message error)) ;;;
        throw error)%eff).

End Service.

End Students.

(* ------------------------------------------------------------------ *)
(** ** DevicesService *)

Module Devices.

Definition generateDeviceCode : Eff Tape jsstring := Security.generateDeviceCode.

Definition maxAttempts : nat := 15.

(** [deviceRepository.findOne({ where: { deviceCode: code } })]. *)
Definition findByCode (code : jsstring) : Eff World (option Device.t) :=
  fun w => (Returned (find (fun d => strEq (Device.deviceCode d) code) (devices w)),
            countLookup w).

(** The [while (attempts < maxAttempts)] loop; [remaining] is
    [maxAttempts - attempts].  [codeLength] is assigned as in the source;
    [generateDeviceCode] takes no argument. *)
Fixpoint uniqueDeviceCodeLoop (remaining attempts codeLength : nat)
  : Eff World jsstring :=
  match remaining with
  | O =>
      throw (Error (js "Unable to generate unique device code after "
                    ++ showZ (Z.of_nat maxAttempts) ++ js " attempts"))
  | S remaining' =>
      (code <- random generateDeviceCode ;;
       (* Check for collision in the entire database *)
       existing <- findByCode code ;;
       match existing with
       | None => ret code
       | Some _ =>
           let attempts := S attempts in
           (* After 5 attempts, increase code length for better uniqueness *)
           let codeLength :=
             if (attempts =? 5)%nat then 7%nat
             else if (attempts =? 10)%nat then 8%nat
             else codeLength in
           (* Add small delay to prevent rapid database queries *)
           (if (3 <? attempts)%nat then sleep (10 * Z.of_nat attempts) else ret tt) ;;;
           uniqueDeviceCodeLoop remaining' attempts codeLength
       end)%eff
  end.

Definition generateUniqueDeviceCode (hubId : option jsstring) : Eff World jsstring :=
  uniqueDeviceCodeLoop maxAttempts 0 6.

(** [/^[ABCDEFGHJKMNPQRSTUVWXYZ23456789]{4,8}$/.test(code)]. *)
Definition validateDeviceCodeFormat (code : jsstring) : bool :=
  forallb (Students.inCharset (js "ABCDEFGHJKMNPQRSTUVWXYZ23456789")) code
  && (4 <=? List.length code)%nat && (List.length code <=? 8)%nat.

(** Format first, then existence. *)
Definition validateDeviceCode (deviceCode : jsstring) : Eff World (option Device.t) :=
  if negb (validateDeviceCodeFormat deviceCode) then ret None
  else fun w => (Returned (find (fun d => strEq (Device.deviceCode d) deviceCode)
                             (devices w)), w).

End Devices.

(* ------------------------------------------------------------------ *)
(** ** A reference cipher *)

(** A small cipher with the interface of [AesGcm], used to run the
    service on concrete inputs: the ciphertext shifts every byte by one,
    the 16-byte tag starts with the sum of the bytes of the IV, of the
    associated data and of the ciphertext. *)
Module ChecksumCipher.

Definition shift (k : Z) (buf : list byte) : list byte :=
  map (fun b => byteOf (byteVal b + k)) buf.

Definition sumBytes (buf : list byte) : Z :=
  fold_right (fun b acc => byteVal b + acc) 0 buf.

Definition tagOf (iv aad ct : list byte) : list byte :=
  byteOf (sumBytes iv + sumBytes aad + sumBytes ct) :: repeat x00 15.

Fixpoint bytesEq (a b : list byte) : bool :=
  match a, b with
  | [], [] => true
  | x :: a', y :: b' => Byte.eqb x y && bytesEq a' b'
  | _, _ => false
  end.

Definition seal (key iv aad plaintext : list byte) : option (list byte * list byte) :=
  let ct := shift 1 plaintext in Some (ct, tagOf iv aad ct).

Definition open (key iv aad tag ct : list byte) : option (list byte) :=
  if bytesEq tag (tagOf iv aad ct) then Some (shift (-1) ct) else None.

Definition cipher : AesGcm := {| gcmSeal := seal; gcmOpen := open |}.

End ChecksumCipher.

(* ------------------------------------------------------------------ *)
(** ** Sample data *)

Module Sample.

(** One hub, one student, an empty audit buffer, a tape of zeros. *)
Definition amina : Student.t :=
  {| Student.id := js "s-1"; Student.hubId := js "HUB-1";
     Student.studentCode := js "AMNA";
     Student.firstNameEncrypted := None; Student.lastNameEncrypted := None;
     Student.grade := Some (js "4"); Student.age := Some 10;
     Student.metadataEncrypted := None; Student.status := js "active";
     Student.createdAt := 0; Student.updatedAt := 0;
     Student.firstName := None; Student.lastName := None;
     Student.metadata := None |}.

Definition world : World :=
  {| students := [amina];
     edgeHubs := [ {| EdgeHub.hubId := js "HUB-1" |} ];
     devices := []; auditLogs := []; rng := tapeOf []; now := 0;
     codeLookups := 0 |}.

(** An ORM that stamps every [save] with the clock of the process. *)
Definition clockStamp : World -> Student.t -> Z := fun w _ => now w.

(** A request that only sets the age. *)
Definition ageOnly (a : Z) : Students.StudentData :=
  {| Students.firstName := None; Students.lastName := None;
     Students.grade := None; Students.age := Some a;
     Students.metadata := None; Students.status := None |}.

Definition anonymousContext : AccessControl.AccessContext :=
  {| AccessControl.userId := None;
     AccessControl.userType := AccessControl.anonymous;
     AccessControl.hubId := None; AccessControl.ipAddress := None;
     AccessControl.userAgent := None; AccessControl.permissions := None |}.

(** An audit entry as a caller hands it to [logEvent]. *)
Definition entry : AuditEntry.t :=
  {| AuditEntry.id := None; AuditEntry.userId := None;
     AuditEntry.userType := AccessControl.system;
     AuditEntry.action := js "create"; AuditEntry.resource := js "student";
     AuditEntry.resourceId := None; AuditEntry.details := None;
     AuditEntry.ipAddress := None; AuditEntry.userAgent := None;
     AuditEntry.success := true; AuditEntry.errorMessage := None;
     AuditEntry.timestamp := 0; AuditEntry.hubId := None;
     AuditEntry.sensitiveData := None; AuditEntry.complianceFlags := None |}.

End Sample.

(* ------------------------------------------------------------------ *)
(** ** Vocabulary of the properties *)

Module Vocabulary.

(** A lowercase hexadecimal digit, as [toString('hex')] writes them. *)
Definition isHexUnit (c : Z) : Prop := (48 <= c <= 57) \/ (97 <= c <= 102).

(** A Unicode scalar value: a code point that is not a surrogate. *)
Definition isScalar (cp : Z) : Prop :=
  0 <= cp < 0x110000 /\ ~ (0xD800 <= cp <= 0xDFFF).

(** Two buffers that differ in exactly one byte. *)
Inductive oneByteChanged : list byte -> list byte -> Prop :=
| changedAt (pre : list byte) (x y : byte) (post : list byte) :
    x <> y -> oneByteChanged (pre ++ x :: post) (pre ++ y :: post).

(** A sealed message in which one byte of the initialization vector, of the
    tag or of the ciphertext was changed. *)
Definition tampered (iv tag ct iv' tag' ct' : list byte) : Prop :=
  (oneByteChanged iv iv' /\ tag' = tag /\ ct' = ct)
  \/ (iv' = iv /\ oneByteChanged tag tag' /\ ct' = ct)
  \/ (iv' = iv /\ tag' = tag /\ oneByteChanged ct ct').

(** The error [decrypt] surfaces. *)
Definition decryptionError : Exn := Error (js "Failed to decrypt data").

(** The token has three segments and the third has an odd number of
    characters: [decipher.update] refuses it as hexadecimal input. *)
Definition oddCiphertext (token : jsstring) : Prop :=
  exists p0 p1 p2,
    split 58 token = [p0; p1; p2] /\ Nat.odd (List.length p2) = true.

(** The token has three segments and the decipher rejects what they decode
    to: a vector or tag it does not accept, or a tag that does not
    verify. *)
Definition tagRejected (cipher : AesGcm) (key : list byte) (token : jsstring) : Prop :=
  exists p0 p1 p2,
    split 58 token = [p0; p1; p2]
    /\ gcmOpen cipher key (fromHex p0) Security.aad (fromHex p1) (fromHex p2) = None.

(** [rule] is a rule of the table for [(res, act)]. *)
Definition ruleFor (res act : jsstring) (rule : AccessControl.AccessRule) : Prop :=
  In rule AccessControl.accessRules
  /\ AccessControl.resource rule = res /\ AccessControl.action rule = act.

(** The context carries no hub: [hubId] is [undefined] or empty. *)
Definition hubAbsent (ctx : AccessControl.AccessContext) : Prop :=
  AccessControl.hubId ctx = None \/ AccessControl.hubId ctx = Some [].

(** The context's permissions, when it has any, contain every permission
    the rule requires. *)
Definition permissionsSuffice (ctx : AccessControl.AccessContext)
  (rule : AccessControl.AccessRule) : Prop :=
  forall perms, AccessControl.permissions ctx = Some perms ->
    forall p, In p (AccessControl.requiredPermissions rule) -> In p perms.

(** The three checks of a rule all pass. *)
Definition passes (ctx : AccessControl.AccessContext)
  (rule : AccessControl.AccessRule) : Prop :=
  In (AccessControl.userTypeName (AccessControl.userType ctx))
     (AccessControl.allowedUserTypes rule)
  /\ permissionsSuffice ctx rule
  /\ (AccessControl.requiresHubAccess rule = Some true -> ~ hubAbsent ctx).

(** The character class [[A-HJ-NP-Z2-9]] of the code patterns. *)
Definition inCodeClass (c : Z) : bool :=
  ((65 <=? c) && (c <=? 72)) || ((74 <=? c) && (c <=? 78))
  || ((80 <=? c) && (c <=? 90)) || ((50 <=? c) && (c <=? 57)).

(** [/^[A-HJ-NP-Z2-9][A-HJ-NP-Z2-9]{2,5}$/.test(code)]. *)
Definition matchesStudentPattern (code : jsstring) : bool :=
  forallb inCodeClass code
  && (3 <=? List.length code)%nat && (List.length code <=? 6)%nat.

(** [/^[A-HJ-NP-Z2-9]{6,8}$/.test(code)]. *)
Definition matchesDevicePattern (code : jsstring) : bool :=
  forallb inCodeClass code
  && (6 <=? List.length code)%nat && (List.length code <=? 8)%nat.

(** The unambiguous alphabet: no I, L, O, 0 or 1. *)
Definition alphabet : jsstring := js "ABCDEFGHJKMNPQRSTUVWXYZ23456789".

(** The length of the student-code candidates after [attempts] collisions:
    4, then 5 from the fifth collision on, then 6 from the tenth. *)
Definition studentCodeLength (attempts : nat) : nat :=
  if (attempts <? 5)%nat then 4%nat else if (attempts <? 10)%nat then 5%nat else 6%nat.

(** The codes already stored. *)
Definition studentCodes (w : World) : list jsstring :=
  map Student.studentCode (students w).

Definition deviceCodes (w : World) : list jsstring :=
  map Device.deviceCode (devices w).

(** The decision [checkAccess] returns; it does not depend on the state. *)
Definition decision (context : option AccessControl.AccessContext)
  (res act : jsstring) (resourceId : option jsstring) : AccessControl.Decision :=
  match fst (AccessControl.checkAccess context res act resourceId tt) with
  | Returned d => d
  | Thrown _ => AccessControl.deny []
  end.

(** Access to [(res, act)] is granted to the context. *)
Definition accessGranted (ctx : AccessControl.AccessContext)
  (res act : jsstring) (resourceId : option jsstring) : Prop :=
  AccessControl.allowed (decision (Some ctx) res act resourceId) = true.

(** The hubs that exist. *)
Definition hubIds (w : World) : list jsstring := map EdgeHub.hubId (edgeHubs w).

(** The error of the age validation of [createStudent] and [updateStudent]. *)
Definition invalidAge : Exn :=
  BadRequestException (js "Student age must be between 3 and 18").

End Vocabulary.

Import Vocabulary.

(* ------------------------------------------------------------------ *)
(** ** RateLimiterGuard *)

Module RateLimiter.

(** What the guard throws: the response text and the HTTP status. *)
Record HttpException : Type := {
  httpMessage : jsstring;
  httpStatus : Z
}.

Record ClientData : Type := {
  count : Z;
  resetTime : Z
}.

(** The [Map] of the guard, in insertion order. *)
Definition Requests : Type := list (jsstring * ClientData).

(** [requests.get(key)]. *)
Definition mapGet (requests : Requests) (key : jsstring) : option ClientData :=
  option_map snd (find (fun e => strEq (fst e) key) requests).

(** [requests.set(key, value)]: an existing key keeps its place. *)
Fixpoint mapSet (requests : Requests) (key : jsstring) (value : ClientData)
  : Requests :=
  match requests with
  | [] => [(key, value)]
  | (k, v) :: rest =>
      if strEq k key then (k, value) :: rest else (k, v) :: mapSet rest key value
  end.

(** [requests.delete(key)]. *)
Definition mapDelete (requests : Requests) (key : jsstring) : Requests :=
  filter (fun e => negb (strEq (fst e) key)) requests.

Definition maxRequests : Z := 100.
Definition windowMs : Z := 15 * 60 * 1000.

Definition TOO_MANY_REQUESTS : Z := 429.

(** What the guard reads of the request: Express's [ip] and the remote
    address of the socket. *)
Record Request : Type := {
  ip : option jsstring;
  remoteAddress : option jsstring
}.

(** [request.ip || request.connection.remoteAddress || 'unknown']. *)
Definition getClientId (request : Request) : jsstring :=
  match ip request with
  | Some (c :: cs) => c :: cs
  | _ =>
      match remoteAddress request with
      | Some (c :: cs) => c :: cs
      | _ => js "unknown"
      end
  end.

(** [now] is the value of [Date.now()] at the call.  [clientData.count++]
    updates the object the map holds. *)
Definition canActivate (now : Z) (request : Request) (requests : Requests)
  : (HttpException + bool) * Requests :=
  let clientId := getClientId request in
  match mapGet requests clientId with
  | None =>
      (inr true, mapSet requests clientId {| count := 1; resetTime := now + windowMs |})
  | Some clientData =>
      if resetTime clientData <? now then
        (* Reset or initialize *)
        (inr true,
         mapSet requests clientId {| count := 1; resetTime := now + windowMs |})
      else if maxRequests <=? count clientData then
        (inl {| httpMessage := js "Too many requests. Please try again later.";
                httpStatus := TOO_MANY_REQUESTS |},
         requests)
      else
        (inr true,
         mapSet requests clientId
           {| count := count clientData + 1; resetTime := resetTime clientData |})
  end.

(** The [for ... of requests.entries()] loop of [cleanup] over the entries
    still to visit; deleting the entry being visited does not disturb the
    iteration of a [Map]. *)
Fixpoint cleanupLoop (now : Z) (entries : Requests) (requests : Requests)
  : Requests :=
  match entries with
  | [] => requests
  | (clientId, data) :: rest =>
      cleanupLoop now rest
        (if resetTime data <? now then mapDelete requests clientId else requests)
  end.

Definition cleanup (now : Z) (requests : Requests) : Requests :=
  cleanupLoop now requests requests.

End RateLimiter.

(* ------------------------------------------------------------------ *)
(** ** AccessControlService: permissions *)

Module AccessPermissions.

Import AccessControl.

(** The [switch] on the user type; any other string gets no permission. *)
Definition getUserPermissions (userType : jsstring) (hubId : option jsstring)
  : list jsstring :=
  if strEq userType (js "admin") then
    map js [ "student:read"; "student:write"; "student:delete"; "student:export";
             "device:read"; "device:write"; "device:delete";
             "analytics:read"; "analytics:export";
             "hub:read"; "hub:admin";
             "audit:read" ]
  else if strEq userType (js "system") then
    map js [ "student:read"; "student:write";
             "device:read"; "device:write";
             "analytics:read";
             "hub:read" ]
  else if strEq userType (js "api") then
    map js [ "device:read";
             "analytics:read" ]
  else [].

End AccessPermissions.

(* ------------------------------------------------------------------ *)
(** ** AuditLoggerService: queries and maintenance *)

Module AuditQueries.

(** The [filters] argument of [getAuditLogs]; dates are time values. *)
Record Filters : Type := {
  userId : option jsstring;
  resource : option jsstring;
  action : option jsstring;
  hubId : option jsstring;
  startDate : option Z;
  endDate : option Z;
  sensitiveData : option bool;
  success : option bool;
  limit : option Z;
  offset : option Z
}.

Record Page : Type := {
  logs : list AuditEntry.t;
  total : Z
}.

(** [value === wanted] for an optional string property. *)
Definition isString (value : option jsstring) (wanted : jsstring) : bool :=
  match value with
  | Some v => strEq v wanted
  | None => false
  end.

(** [value === wanted] for an optional boolean property. *)
Definition isBoolean (value : option bool) (wanted : bool) : bool :=
  match value with
  | Some v => Bool.eqb v wanted
  | None => false
  end.

(** [if (filter) logs = logs.filter(...)] for a string filter: applied when
    the string is not empty. *)
Definition filterByString (wanted : option jsstring)
  (field : AuditEntry.t -> option jsstring) (logs : list AuditEntry.t)
  : list AuditEntry.t :=
  match wanted with
  | Some (c :: cs) => filter (fun log => isString (field log) (c :: cs)) logs
  | _ => logs
  end.

(** [if (filter !== undefined) logs = logs.filter(...)], and the date
    filters, whose [Date] objects are truthy. *)
Definition filterBy {A : Type} (wanted : option A) (test : A -> AuditEntry.t -> bool)
  (logs : list AuditEntry.t) : list AuditEntry.t :=
  match wanted with
  | Some x => filter (test x) logs
  | None => logs
  end.

(** [logs.sort((a, b) => b.timestamp.getTime() - a.timestamp.getTime())].
    The sort of the platform is stable: the result is the one sorted
    arrangement that keeps entries of equal time in their order, which
    insertion from the right builds. *)
Fixpoint insertNewestFirst (a : AuditEntry.t) (sorted : list AuditEntry.t)
  : list AuditEntry.t :=
  match sorted with
  | [] => [a]
  | b :: rest =>
      if AuditEntry.timestamp b <=? AuditEntry.timestamp a then a :: b :: rest
      else b :: insertNewestFirst a rest
  end.

Definition sortNewestFirst (logs : list AuditEntry.t) : list AuditEntry.t :=
  fold_right insertNewestFirst [] logs.

(** [arr.slice(start, end)]: negative indices count from the end, and both
    are clamped to the array. *)
Definition slice {A : Type} (arr : list A) (start final : Z) : list A :=
  let len := Z.of_nat (List.length arr) in
  let clamp (i : Z) := if i <? 0 then Z.max (len + i) 0 else Z.min i len in
  firstn (Z.to_nat (clamp final - clamp start)) (skipn (Z.to_nat (clamp start)) arr).

(** [x || fallback] for an optional number. *)
Definition orElse (x : option Z) (fallback : Z) : Z :=
  match x with
  | None | Some 0 => fallback
  | Some n => n
  end.

Definition getAuditLogs (filters : Filters) : Eff World Page :=
  (w <- get ;;
   let filteredLogs := auditLogs w in
   (* Apply filters *)
   let filteredLogs := filterByString (userId filters) AuditEntry.userId filteredLogs in
   let filteredLogs :=
     filterByString (resource filters) (fun log => Some (AuditEntry.resource log))
       filteredLogs in
   let filteredLogs :=
     filterByString (action filters) (fun log => Some (AuditEntry.action log))
       filteredLogs in
   let filteredLogs := filterByString (hubId filters) AuditEntry.hubId filteredLogs in
   let filteredLogs :=
     filterBy (startDate filters) (fun d log => d <=? AuditEntry.timestamp log)
       filteredLogs in
   let filteredLogs :=
     filterBy (endDate filters) (fun d log => AuditEntry.timestamp log <=? d)
       filteredLogs in
   let filteredLogs :=
     filterBy (sensitiveData filters)
       (fun b log => isBoolean (AuditEntry.sensitiveData log) b) filteredLogs in
   let filteredLogs :=
     filterBy (success filters) (fun b log => Bool.eqb (AuditEntry.success log) b)
       filteredLogs in
   (* Sort by timestamp (newest first) *)
   let filteredLogs := sortNewestFirst filteredLogs in
   let total := Z.of_nat (List.length filteredLogs) in
   let offset := orElse (offset filters) 0 in
   let limit := orElse (limit filters) 100 in
   let paginatedLogs := slice filteredLogs offset (offset + limit) in
   ret {| logs := paginatedLogs; total := total |})%eff.




End AuditQueries.

(* ------------------------------------------------------------------ *)
(** ** SecurityService: one-way hashes *)

Module Hashing.

(** [crypto.timingSafeEqual(a, b)]: a [RangeError] when the lengths
    differ. *)
Definition timingSafeEqual {S : Type} (a b : list byte) : Eff S bool :=
  if (List.length a =? List.length b)%nat
  then ret (if list_eq_dec Byte.byte_eq_dec a b then true else false)
  else throw (RangeError (js "Input buffers must have the same byte length")).

Section Service.

(** [crypto.scryptSync(password, salt, keylen)] with the default cost
    parameters, on the UTF-8 bytes of the password. *)
Variable scryptSync : list byte -> list byte -> nat -> list byte.

Definition hash (data : jsstring) : Eff Tape jsstring :=
  if Security.isBlank data then ret data
  else
    tryCatch
      (salt <- randomBytes 16 ;;
       let hash := scryptSync (utf8Encode data) salt 64 in
       ret (toHex salt ++ js ":" ++ toHex hash))%eff
      (fun _ => throw (Error (js "Failed to hash data"))).

Definition verifyHash {S : Type} (data hashedData : jsstring) : Eff S bool :=
  match data, hashedData with
  | [], _ | _, [] => ret false
  | _, _ =>
      tryCatch
        (match split 58 hashedData with
         | [p0; p1] =>
             let salt := fromHex p0 in
             let originalHash := fromHex p1 in
             let hash := scryptSync (utf8Encode data) salt 64 in
             timingSafeEqual originalHash hash
         | _ => ret false
         end)
        (fun _ => ret false)
  end.

End Service.

End Hashing.

(* ------------------------------------------------------------------ *)
(** ** AuditLoggerService: deletions *)

Module AuditDeletions.

(** The parameters of [logDataDeletion] next to the spread context. *)
Record DataDeletion : Type := {
  deletionType : jsstring;
  resourceIds : list jsstring;
  deletionHubId : jsstring;
  deletionSuccess : bool;
  deletionErrorMessage : option jsstring;
  reason : jsstring
}.

Definition logDataDeletion (context : AccessControl.AccessContext)
  (params : DataDeletion) : Eff World unit :=
  AuditLogger.logEvent
    {| AuditEntry.id := None;
       AuditEntry.userId := AccessControl.userId context;
       AuditEntry.userType := AccessControl.userType context;
       AuditEntry.action := js "delete";
       AuditEntry.resource := deletionType params;
       AuditEntry.resourceId := Some (join (js ",") (resourceIds params));
       AuditEntry.details := Some
         [ (js "deletedRecords",
            AuditEntry.DNumber (Some (Z.of_nat (List.length (resourceIds params)))));
           (js "deletionType", AuditEntry.DString (Some (deletionType params)));
           (js "reason", AuditEntry.DString (Some (reason params))) ];
       AuditEntry.ipAddress := AccessControl.ipAddress context;
       AuditEntry.userAgent := AccessControl.userAgent context;
       AuditEntry.success := deletionSuccess params;
       AuditEntry.errorMessage := deletionErrorMessage params;
       AuditEntry.timestamp := 0;
       AuditEntry.hubId := Some (deletionHubId params);
       AuditEntry.sensitiveData := Some true;
       AuditEntry.complianceFlags := Some [js "GDPR"; js "RIGHT_TO_BE_FORGOTTEN"] |}.

End AuditDeletions.

(* ------------------------------------------------------------------ *)
(** ** StudentsService: accounts *)

Module StudentAccounts.

(** [s.startsWith(prefix)]. *)
Fixpoint startsWith (s prefix : jsstring) : bool :=
  match prefix, s with
  | [], _ => true
  | p :: prefix', c :: s' => (c =? p) && startsWith s' prefix'
  | _ :: _, [] => false
  end.

(** [s.includes(sub)]. *)
Fixpoint strIncludes (s sub : jsstring) : bool :=
  startsWith s sub
  || match s with
     | [] => false
     | _ :: s' => strIncludes s' sub
     end.

(** [studentRepository.findOne({ where: { id: studentId } })]. *)
Definition findById (studentId : jsstring) : Eff World (option Student.t) :=
  fun w => (Returned (find (fun s => strEq (Student.id s) studentId) (students w)), w).

(** [studentRepository.findOne({ where: { studentCode, status: 'active' } })]. *)
Definition findActiveByCode (studentCode : jsstring) : Eff World (option Student.t) :=
  fun w =>
    (Returned (find (fun s => strEq (Student.studentCode s) studentCode
                              && strEq (Student.status s) (js "active"))
                 (students w)), w).

(** [student.status = status] on a loaded entity. *)
Definition setStatus (student : Student.t) (status : jsstring) : Student.t :=
  {| Student.id := Student.id student; Student.hubId := Student.hubId student;
     Student.studentCode := Student.studentCode student;
     Student.firstNameEncrypted := Student.firstNameEncrypted student;
     Student.lastNameEncrypted := Student.lastNameEncrypted student;
     Student.grade := Student.grade student; Student.age := Student.age student;
     Student.metadataEncrypted := Student.metadataEncrypted student;
     Student.status := status;
     Student.createdAt := Student.createdAt student;
     Student.updatedAt := Student.updatedAt student;
     Student.firstName := Student.firstName student;
     Student.lastName := Student.lastName student;
     Student.metadata := Student.metadata student |}.

Record Deletion : Type := {
  deleted : bool;
  deletionMessage : jsstring
}.

Definition deletionFailure (studentId hubId : jsstring) (msg reason : jsstring)
  : AuditDeletions.DataDeletion :=
  {| AuditDeletions.deletionType := js "student_data";
     AuditDeletions.resourceIds := [studentId];
     AuditDeletions.deletionHubId := hubId;
     AuditDeletions.deletionSuccess := false;
     AuditDeletions.deletionErrorMessage := Some msg;
     AuditDeletions.reason := reason |}.

Section Service.

Variable cipher : AesGcm.
Variable encryptionKey : list byte.

(** The ORM's choice of [updatedAt] on [save], as in [Students]. *)
Variable updateDate : World -> Student.t -> Z.

(** The time zone of the process. *)
Variable zone : Date.TimeZone.

Definition decryptStudentData : Student.t -> Student.t :=
  Students.decryptStudentData cipher encryptionKey.

Definition decryptStudentsData (students : list Student.t) : list Student.t :=
  map decryptStudentData students.

Definition getStudent (studentId : jsstring) : Eff World Student.t :=
  (student <- findById studentId ;;
   match student with
   | None => throw (NotFoundException (js "Student not found"))
   | Some student => ret (decryptStudentData student)
   end)%eff.

Definition deactivateStudent (studentId : jsstring) : Eff World Student.t :=
  (student <- findById studentId ;;
   match student with
   | None => throw (NotFoundException (js "Student not found"))
   | Some student =>
       let student := setStatus student (js "inactive") in
       savedStudent <- Students.saveExisting updateDate student ;;
       ret (decryptStudentData savedStudent)
   end)%eff.

(** Format first, then an active student with the code. *)
Definition validateStudentCode (studentCode : jsstring)
  : Eff World (option Student.t) :=
  if negb (Students.validateStudentCodeFormat studentCode) then ret None
  else findActiveByCode studentCode.

Definition getStudentByCode (studentCode : jsstring)
  : Eff World (option Student.t) :=
  (student <- findActiveByCode studentCode ;;
   ret (option_map decryptStudentData student))%eff.

Definition deleteStudentData (studentId reason : jsstring)
  (context : AccessControl.AccessContext) : Eff World Deletion :=
  let log := AuditDeletions.logDataDeletion in
  tryCatch
    ((* Get student first to check hub access *)
     student <- findById studentId ;;
     match student with
     | None => throw (NotFoundException (js "Student not found"))
     | Some student =>
         (* Check access control *)
         let contextWithHub := Students.withHub context (Student.hubId student) in
         _ <- AccessControl.enforceAccess (Some contextWithHub)
                (js "student") (js "delete") (Some studentId) ;;
         (* Check data retention policy *)
         w <- get ;;
         let retentionCheck :=
           AccessControl.shouldRetainData zone (now w) AccessControl.student
             (Student.updatedAt student) (Student.age student) in
         if AccessControl.retain retentionCheck
            && negb (strIncludes reason (js "GDPR_REQUEST"))
         then
           log contextWithHub
             (deletionFailure studentId (Student.hubId student)
                (js "Data retention policy prevents deletion: "
                 ++ AccessControl.retentionReason retentionCheck) reason) ;;;
           throw (BadRequestException
                    (js "Cannot delete: "
                     ++ AccessControl.retentionReason retentionCheck))
         else
           (* Perform deletion *)
           modify (fun w =>
             setStudents
               (filter (fun s => negb (strEq (Student.id s) (Student.id student)))
                  (students w)) w) ;;;
           (* Log successful deletion *)
           log contextWithHub
             {| AuditDeletions.deletionType := js "student_data";
                AuditDeletions.resourceIds := [studentId];
                AuditDeletions.deletionHubId := Student.hubId student;
                AuditDeletions.deletionSuccess := true;
                AuditDeletions.deletionErrorMessage := None;
                AuditDeletions.reason := reason |} ;;;
           ret {| deleted := true;
                  deletionMessage :=
                    js "Student data permanently deleted in compliance with GDPR Article 17 (Right to erasure)" |}
     end)%eff
    (fun error =>
       (* Log failed deletion attempt *)
       (log context (deletionFailure studentId (js "unknown") (message error) reason) ;;;
        throw error)%eff).

End Service.

End StudentAccounts.

(* ------------------------------------------------------------------ *)
(** ** Creation in bulk *)

Module Bulk.

(** No string occurs twice. *)
Fixpoint distinct (codes : list jsstring) : bool :=
  match codes with
  | [] => true
  | c :: rest => negb (includes rest c) && distinct rest
  end.

(** What [studentRepository.create] is given: the columns of a student that
    is not stored yet. *)
Record NewStudent : Type := {
  hubId : jsstring;
  studentCode : jsstring;
  firstNameEncrypted : option jsstring;
  lastNameEncrypted : option jsstring;
  grade : option jsstring;
  age : option Z;
  metadataEncrypted : option jsstring;
  status : jsstring
}.

(** What [deviceRepository.create] is given. *)
Record NewDevice : Type := {
  deviceHubId : jsstring;
  deviceCode : jsstring;
  deviceStatus : jsstring
}.

Section Service.

Variable cipher : AesGcm.
Variable encryptionKey : list byte.

(** The [QueryFailedError] of the database driver for a violated unique
    constraint. *)
Variable uniqueViolation : Exn.

(** The insert of one row: the id is generated and both dates are set. *)
Definition insertStudent (student : NewStudent) : Eff World Student.t :=
  (newStudentId <- Students.newId ;;
   w <- get ;;
   ret {| Student.id := newStudentId; Student.hubId := hubId student;
          Student.studentCode := studentCode student;
          Student.firstNameEncrypted := firstNameEncrypted student;
          Student.lastNameEncrypted := lastNameEncrypted student;
          Student.grade := grade student; Student.age := age student;
          Student.metadataEncrypted := metadataEncrypted student;
          Student.status := status student;
          Student.createdAt := now w; Student.updatedAt := now w;
          Student.firstName := None; Student.lastName := None;
          Student.metadata := None |})%eff.

Fixpoint insertStudents (newStudents : list NewStudent) : Eff World (list Student.t) :=
  match newStudents with
  | [] => ret []
  | student :: rest =>
      (row <- insertStudent student ;;
       rows <- insertStudents rest ;;
       ret (row :: rows))%eff
  end.

(** [studentRepository.save(students)] for new students: one transaction,
    which the unique constraint on [studentCode] lets through only when no
    code is stored twice. *)
Definition saveStudents (newStudents : list NewStudent) : Eff World (list Student.t) :=
  (w <- get ;;
   if distinct (map Student.studentCode (students w) ++ map studentCode newStudents)
   then
     rows <- insertStudents newStudents ;;
     modify (fun w => setStudents (students w ++ rows) w) ;;;
     ret rows
   else throw uniqueViolation)%eff.

(** The [for ... of studentsData] loop; [newStudents] is the array
    [students] of the students created so far. *)
Fixpoint createEach (hub : jsstring) (studentsData : list Students.StudentData)
  (newStudents : list NewStudent) : Eff World (list NewStudent) :=
  match studentsData with
  | [] => ret newStudents
  | studentData :: rest =>
      (* Validate age if provided *)
      if Students.ageOutOfRange (Students.age studentData)
      then
        throw (BadRequestException
                 (js "Invalid age: "
                  ++ showZ (match Students.age studentData with
                            | Some a => a
                            | None => 0
                            end)
                  ++ js ". Age must be between 3 and 18"))
      else
        (studentCode <- Students.generateUniqueStudentCode (Some hub) ;;
         firstNameEncrypted <-
           Students.encryptField cipher encryptionKey trim
             (Students.firstName studentData) ;;
         lastNameEncrypted <-
           Students.encryptField cipher encryptionKey trim
             (Students.lastName studentData) ;;
         metadataEncrypted <-
           Students.encryptField cipher encryptionKey (fun x => x)
             (Students.metadata studentData) ;;
         let student :=
           {| hubId := hub; studentCode := studentCode;
              firstNameEncrypted := firstNameEncrypted;
              lastNameEncrypted := lastNameEncrypted;
              grade := Students.trimmedOrNull (Students.grade studentData);
              age := match Students.age studentData with
                     | Some 0 => None
                     | a => a
                     end;
              metadataEncrypted := metadataEncrypted;
              status := js "active" |} in
         createEach hub rest (newStudents ++ [student]))%eff
  end.

Definition bulkCreateStudents (hub : jsstring)
  (studentsData : list Students.StudentData) : Eff World (list Student.t) :=
  (w <- get ;;
   (* Validate hub exists *)
   match find (fun h => strEq (EdgeHub.hubId h) hub) (edgeHubs w) with
   | None => throw (NotFoundException (js "Hub not found"))
   | Some _ =>
       (* Validate bulk size *)
       if (100 <? List.length studentsData)%nat
       then throw (BadRequestException
                     (js "Cannot create more than 100 students at once"))
       else
         (* Check total student count limit *)
         let existingStudentCount :=
           List.length (filter (fun s => strEq (Student.hubId s) hub)
                          (students w)) in
         if (1000 <? existingStudentCount + List.length studentsData)%nat
         then throw (BadRequestException
                       (js "Total student count per hub cannot exceed 1000"))
         else
           newStudents <- createEach hub studentsData [] ;;
           savedStudents <- saveStudents newStudents ;;
           ret (map (Students.decryptStudentData cipher encryptionKey) savedStudents)
   end)%eff.

(** The insert of one device. *)
Definition insertDevice (device : NewDevice) : Eff World Device.t :=
  (newDeviceId <- Students.newId ;;
   ret {| Device.id := newDeviceId; Device.hubId := deviceHubId device;
          Device.deviceCode := deviceCode device;
          Device.status := deviceStatus device |})%eff.

Fixpoint insertDevices (newDevices : list NewDevice) : Eff World (list Device.t) :=
  match newDevices with
  | [] => ret []
  | device :: rest =>
      (row <- insertDevice device ;;
       rows <- insertDevices rest ;;
       ret (row :: rows))%eff
  end.

(** [deviceRepository.save(devices)] for new devices, under the unique
    constraint on [deviceCode]. *)
Definition saveDevices (newDevices : list NewDevice) : Eff World (list Device.t) :=
  (w <- get ;;
   if distinct (map Device.deviceCode (devices w) ++ map deviceCode newDevices)
   then
     rows <- insertDevices newDevices ;;
     modify (fun w =>
       {| students := students w; edgeHubs := edgeHubs w;
          devices := devices w ++ rows; auditLogs := auditLogs w;
          rng := rng w; now := now w; codeLookups := codeLookups w |}) ;;;
     ret rows
   else throw uniqueViolation)%eff.

(** The loop [for (let i = 0; i < deviceCount; i++)], with [rounds] the
    number of rounds still to make and [newDevices] the array [devices]. *)
Fixpoint createDevices (hub : jsstring) (rounds : nat) (newDevices : list NewDevice)
  : Eff World (list NewDevice) :=
  match rounds with
  | O => ret newDevices
  | S rounds' =>
      (deviceCode <- Devices.generateUniqueDeviceCode (Some hub) ;;
       let device :=
         {| deviceHubId := hub; deviceCode := deviceCode;
            deviceStatus := js "pending" |} in
       createDevices hub rounds' (newDevices ++ [device]))%eff
  end.

Definition createDevicesForHub (hub : jsstring) (deviceCount : Z)
  : Eff World (list Device.t) :=
  (w <- get ;;
   (* Validate hub exists *)
   match find (fun h => strEq (EdgeHub.hubId h) hub) (edgeHubs w) with
   | None => throw (NotFoundException (js "Hub not found"))
   | Some _ =>
       (* Validate device count *)
       if (deviceCount <? 1) || (100 <? deviceCount)
       then throw (BadRequestException (js "Device count must be between 1 and 100"))
       else
         (* Check existing device count to prevent excessive device creation *)
         let existingDeviceCount :=
           Z.of_nat (List.length (filter (fun d => strEq (Device.hubId d) hub)
                                    (devices w))) in
         if 500 <? existingDeviceCount + deviceCount
         then throw (BadRequestException
                       (js "Total device count per hub cannot exceed 500"))
         else
           newDevices <- createDevices hub (Z.to_nat deviceCount) [] ;;
           saveDevices newDevices
   end)%eff.

End Service.

End Bulk.

(* ------------------------------------------------------------------ *)
(** ** Further sample data *)

Module Fixtures.

Definition adminContext : AccessControl.AccessContext :=
  {| AccessControl.userId := Some (js "admin-1");
     AccessControl.userType := AccessControl.admin;
     AccessControl.hubId := None; AccessControl.ipAddress := None;
     AccessControl.userAgent := None; AccessControl.permissions := None |}.

(** A request for a ten-year-old with a padded first name. *)
Definition request : Students.StudentData :=
  {| Students.firstName := Some (js " Amina "); Students.lastName := Some (js "Diallo");
     Students.grade := Some (js "4"); Students.age := Some 10;
     Students.metadata := None; Students.status := None |}.

(** The sample world after that request, made by the system on HUB-1 with
    the reference cipher, and the student the request returned. *)
Definition worldAfterCreate : World :=
  snd (Students.createStudent ChecksumCipher.cipher [] (js "HUB-1") request
         Students.defaultContext Sample.world).

Definition createdStudent : Student.t :=
  match fst (Students.createStudent ChecksumCipher.cipher [] (js "HUB-1") request
               Students.defaultContext Sample.world) with
  | Returned student => student
  | Thrown _ => Sample.amina
  end.

(** A request that renames the sample student and sets its grade. *)
Definition updateRequest : Students.StudentData :=
  {| Students.firstName := Some (js " Mina "); Students.lastName := None;
     Students.grade := Some (js " 5 "); Students.age := None;
     Students.metadata := None; Students.status := None |}.

Definition worldAfterUpdate : World :=
  snd (Students.updateStudent ChecksumCipher.cipher [] Sample.clockStamp
         (js "s-1") updateRequest
         Students.defaultContext Sample.world).

Definition updatedStudent : Student.t :=
  match fst (Students.updateStudent ChecksumCipher.cipher [] Sample.clockStamp
               (js "s-1") updateRequest
               Students.defaultContext Sample.world) with
  | Returned student => student
  | Thrown _ => Sample.amina
  end.

(** A request that gives a name and no age. *)
Definition ageless : Students.StudentData :=
  {| Students.firstName := Some (js "Kofi"); Students.lastName := None;
     Students.grade := None; Students.age := None;
     Students.metadata := None; Students.status := None |}.

(** The parameters of a successful view of the sample student. *)
Definition viewed : AuditLogger.StudentAccess :=
  {| AuditLogger.accessAction := js "view"; AuditLogger.studentId := js "s-1";
     AuditLogger.accessHubId := js "HUB-1"; AuditLogger.accessSuccess := true;
     AuditLogger.accessErrorMessage := None; AuditLogger.accessDetails := None |}.

(** An administrator whose token lists no permission. *)
Definition noPermissions : AccessControl.AccessContext :=
  {| AccessControl.userId := Some (js "admin-2");
     AccessControl.userType := AccessControl.admin;
     AccessControl.hubId := None; AccessControl.ipAddress := None;
     AccessControl.userAgent := None; AccessControl.permissions := Some [] |}.

End Fixtures.

(* ------------------------------------------------------------------ *)
(** ** Vocabulary of the further properties *)

Module GuardVocabulary.

Import RateLimiter.

(** The answer of the guard to a refused request. *)
Definition tooManyRequests : HttpException + bool :=
  inl {| httpMessage := js "Too many requests. Please try again later.";
         httpStatus := 429 |}.

(** The entry has run out at time [now]. *)
Definition expired (now : Z) (data : ClientData) : bool := resetTime data <? now.

(** No client id occurs twice, as in every [Map]. *)
Definition distinctKeys (requests : Requests) : Prop := NoDup (map fst requests).

(** A sequence of calls, each with its time: the client and outcome of
    each call, in order, and the map the calls leave. *)
Fixpoint serve (calls : list (Z * Request)) (requests : Requests)
  : list (jsstring * (HttpException + bool)) * Requests :=
  match calls with
  | [] => ([], requests)
  | (now, request) :: later =>
      let (outcome, requests') := canActivate now request requests in
      let (outcomes, final) := serve later requests' in
      ((getClientId request, outcome) :: outcomes, final)
  end.

(** The outcomes of the calls of one client. *)
Definition outcomesOf (clientId : jsstring)
  (outcomes : list (jsstring * (HttpException + bool)))
  : list (HttpException + bool) :=
  map snd (filter (fun o => strEq (fst o) clientId) outcomes).

(** The calls of one client. *)
Definition callsOf (clientId : jsstring) (calls : list (Z * Request))
  : list (Z * Request) :=
  filter (fun c => strEq (getClientId (snd c)) clientId) calls.

(** [cleaned] holds the entries of [requests] that have not run out at time
    [now], and no others. *)
Definition sweptAt (now : Z) (cleaned requests : Requests) : Prop :=
  forall key,
    mapGet cleaned key
    = match mapGet requests key with
      | Some data => if expired now data then None else Some data
      | None => None
      end.

End GuardVocabulary.

Module AuditVocabulary.

Import AuditQueries.

(** The entry passes every filter that is set; an empty string does not
    set a filter. *)
Definition selects (filters : Filters) (log : AuditEntry.t) : bool :=
  let byString (wanted value : option jsstring) :=
    match wanted with
    | Some (c :: cs) => isString value (c :: cs)
    | _ => true
    end in
  let byValue {A : Type} (wanted : option A) (test : A -> bool) :=
    match wanted with
    | Some x => test x
    | None => true
    end in
  byString (userId filters) (AuditEntry.userId log)
  && byString (resource filters) (Some (AuditEntry.resource log))
  && byString (action filters) (Some (AuditEntry.action log))
  && byString (hubId filters) (AuditEntry.hubId log)
  && byValue (startDate filters) (fun d => d <=? AuditEntry.timestamp log)
  && byValue (endDate filters) (fun d => AuditEntry.timestamp log <=? d)
  && byValue (sensitiveData filters)
       (fun b => isBoolean (AuditEntry.sensitiveData log) b)
  && byValue (success filters) (fun b => Bool.eqb (AuditEntry.success log) b).

(** Newest first: every entry is at least as recent as those after it. *)
Inductive newestFirst : list AuditEntry.t -> Prop :=
| newest_nil : newestFirst []
| newest_cons (a : AuditEntry.t) (rest : list AuditEntry.t) :
    Forall (fun b => AuditEntry.timestamp b <= AuditEntry.timestamp a) rest ->
    newestFirst rest -> newestFirst (a :: rest).

(** The page size in force: 100 when none, or zero, is asked for. *)
Definition pageSize (filters : Filters) : Z := orElse (limit filters) 100.

(** The query for page [k], counted from 0, of the same filters. *)
Definition atPage (filters : Filters) (k : nat) : Filters :=
  {| userId := userId filters; resource := resource filters;
     action := action filters; hubId := hubId filters;
     startDate := startDate filters; endDate := endDate filters;
     sensitiveData := sensitiveData filters; success := success filters;
     limit := limit filters;
     offset := Some (Z.of_nat k * pageSize filters) |}.

(** The entries [getAuditLogs] returns. *)
Definition logsOf (filters : Filters) (w : World) : list AuditEntry.t :=
  match fst (getAuditLogs filters w) with
  | Returned page => logs page
  | Thrown _ => []
  end.


(** [stored] is the event [entry], stamped with the time [time] and given
    an id. *)
Definition records (stored entry : AuditEntry.t) (time : Z) : Prop :=
  AuditEntry.id stored <> None
  /\ AuditEntry.timestamp stored = time
  /\ AuditEntry.userId stored = AuditEntry.userId entry
  /\ AuditEntry.userType stored = AuditEntry.userType entry
  /\ AuditEntry.action stored = AuditEntry.action entry
  /\ AuditEntry.resource stored = AuditEntry.resource entry
  /\ AuditEntry.resourceId stored = AuditEntry.resourceId entry
  /\ AuditEntry.details stored = AuditEntry.details entry
  /\ AuditEntry.success stored = AuditEntry.success entry
  /\ AuditEntry.errorMessage stored = AuditEntry.errorMessage entry
  /\ AuditEntry.hubId stored = AuditEntry.hubId entry
  /\ AuditEntry.sensitiveData stored = AuditEntry.sensitiveData entry
  /\ AuditEntry.complianceFlags stored = AuditEntry.complianceFlags entry.

(** The audit buffer has room for [n] more entries. *)
Definition hasRoom (n : Z) (w : World) : Prop :=
  Z.of_nat (List.length (auditLogs w)) + n <= AuditLogger.maxLogEntries.

End AuditVocabulary.

Module StoreVocabulary.

(** What a step leaves alone: the repositories and the audit buffer. *)
Definition sameStores (w w1 : World) : Prop :=
  students w1 = students w /\ edgeHubs w1 = edgeHubs w
  /\ devices w1 = devices w /\ auditLogs w1 = auditLogs w.

(** The number of students, and of devices, of a hub. *)
Definition studentsOfHub (hub : jsstring) (w : World) : nat :=
  List.length (filter (fun s => strEq (Student.hubId s) hub) (students w)).

Definition devicesOfHub (hub : jsstring) (w : World) : nat :=
  List.length (filter (fun d => strEq (Device.hubId d) hub) (devices w)).

(** The computation never changes the students. *)
Definition keepsStudents {A : Type} (m : Eff World A) : Prop :=
  forall w, students (snd (m w)) = students w.

(** The computation changes no student when it throws. *)
Definition failsCleanly {A : Type} (m : Eff World A) : Prop :=
  forall w e w', m w = (Thrown e, w') -> students w' = students w.

End StoreVocabulary.

(* ================================================================== *)
(** * Properties *)

Import Buffer.

(* ------------------------------------------------------------------ *)
(** ** Strings *)

Section StringFacts.

Lemma strEq_refl (a : jsstring) : strEq a a = true.
Proof.
  induction a as [|x a IH]; simpl; [reflexivity|].
  now rewrite Z.eqb_refl, IH.
Qed.

Lemma strEq_eq (a b : jsstring) : strEq a b = true <-> a = b.
Proof.
  split; [|intros ->; apply strEq_refl].
  revert b; induction a as [|x a IH]; intros [|y b]; simpl; try discriminate; auto.
  rewrite andb_true_iff, Z.eqb_eq. intros [-> H]. f_equal. now apply IH.
Qed.

Lemma strEq_neq (a b : jsstring) : strEq a b = false <-> a <> b.
Proof.
  rewrite <- strEq_eq. destruct (strEq a b); split; congruence.
Qed.

Lemma includes_In (arr : list jsstring) (x : jsstring) :
  includes arr x = true <-> In x arr.
Proof.
  unfold includes. rewrite existsb_exists. split.
  - intros [y [Hin Heq]]. apply strEq_eq in Heq. now subst.
  - intros Hin. exists x. split; [assumption | apply strEq_refl].
Qed.

Lemma forallb_rev {A : Type} (p : A -> bool) (l : list A) :
  forallb p (rev l) = forallb p l.
Proof.
  destruct (forallb p l) eqn:E.
  - rewrite forallb_forall in *. intros x Hin. apply E. now apply in_rev.
  - destruct (forallb p (rev l)) eqn:E'; [|reflexivity].
    rewrite forallb_forall in E'.
    assert (forallb p l = true) as H
      by (apply forallb_forall; intros x Hin; apply E'; now apply in_rev in Hin).
    congruence.
Qed.

Lemma trimStart_nil (s : jsstring) :
  trimStart s = [] <-> forallb isWhiteSpace s = true.
Proof.
  induction s as [|c s IH]; simpl; [tauto|].
  destruct (isWhiteSpace c); simpl; [exact IH|].
  split; discriminate.
Qed.

Lemma forallb_trimStart (s : jsstring) :
  forallb isWhiteSpace (trimStart s) = forallb isWhiteSpace s.
Proof.
  induction s as [|c s IH]; simpl; [reflexivity|].
  destruct (isWhiteSpace c) eqn:E; simpl; [exact IH|].
  now rewrite E.
Qed.

Lemma trim_nil (s : jsstring) :
  trim s = [] <-> forallb isWhiteSpace s = true.
Proof.
  unfold trim, trimEnd.
  rewrite <- forallb_trimStart, <- (forallb_rev _ (trimStart s)), <- trimStart_nil.
  split; intros H.
  - apply (f_equal (@rev Z)) in H. now rewrite rev_involutive in H.
  - now rewrite H.
Qed.

(** Blank means empty or made of white space only. *)
Lemma isBlank_spec (s : jsstring) :
  Security.isBlank s = forallb isWhiteSpace s.
Proof.
  unfold Security.isBlank. destruct s as [|c s]; [reflexivity|].
  destruct (forallb isWhiteSpace (c :: s)) eqn:E.
  - apply trim_nil in E. now rewrite E.
  - destruct (trim (c :: s)) eqn:T; [|reflexivity].
    apply trim_nil in T. congruence.
Qed.

Lemma isBlank_app_false (a b : jsstring) (c : Z) :
  isWhiteSpace c = false -> Security.isBlank (a ++ c :: b) = false.
Proof.
  intros H. rewrite isBlank_spec, forallb_app. simpl. rewrite H.
  now rewrite andb_false_r.
Qed.

(** Splitting at a separator that the first piece does not contain. *)
Lemma split_app (sep : Z) (a b : jsstring) :
  Forall (fun c => c <> sep) a ->
  split sep (a ++ sep :: b) = a :: split sep b.
Proof.
  induction 1 as [|c a Hc Ha IH]; simpl.
  - now rewrite Z.eqb_refl.
  - apply Z.eqb_neq in Hc. now rewrite Hc, IH.
Qed.

Lemma split_none (sep : Z) (a : jsstring) :
  Forall (fun c => c <> sep) a -> split sep a = [a].
Proof.
  induction 1 as [|c a Hc Ha IH]; simpl; [reflexivity|].
  apply Z.eqb_neq in Hc. now rewrite Hc, IH.
Qed.

End StringFacts.

(* ------------------------------------------------------------------ *)
(** ** Bytes and hexadecimal *)

Section ByteFacts.

Lemma byteVal_range (b : byte) : 0 <= byteVal b < 256.
Proof.
  unfold byteVal. pose proof (Byte.to_N_bounded b). lia.
Qed.

Lemma byteVal_byteOf (z : Z) : byteVal (byteOf z) = z mod 256.
Proof.
  unfold byteVal, byteOf.
  pose proof (Z.mod_pos_bound z 256 ltac:(lia)) as Hb.
  destruct (Byte.of_N (Z.to_N (z mod 256))) as [b|] eqn:E.
  - apply Byte.to_of_N in E. rewrite E. lia.
  - apply Byte.of_N_None_iff in E. lia.
Qed.

Lemma byteVal_byteOf_small (z : Z) : 0 <= z < 256 -> byteVal (byteOf z) = z.
Proof.
  intros H. rewrite byteVal_byteOf. now apply Z.mod_small.
Qed.

Lemma byteOf_byteVal (b : byte) : byteOf (byteVal b) = b.
Proof.
  unfold byteOf, byteVal.
  pose proof (Byte.to_N_bounded b) as Hb.
  rewrite Z.mod_small by lia. rewrite N2Z.id, Byte.of_to_N. reflexivity.
Qed.

Lemma byteVal_inj (a b : byte) : byteVal a = byteVal b -> a = b.
Proof.
  intros H. rewrite <- (byteOf_byteVal a), <- (byteOf_byteVal b). now rewrite H.
Qed.

Lemma hexVal_hexDigit (n : Z) : 0 <= n < 16 -> hexVal (hexDigit n) = Some n.
Proof.
  intros H. unfold hexVal, hexDigit.
  destruct (n <? 10) eqn:E; [apply Z.ltb_lt in E | apply Z.ltb_ge in E].
  - replace ((48 <=? 48 + n) && (48 + n <=? 57)) with true
      by (symmetry; apply andb_true_iff; split; apply Z.leb_le; lia).
    f_equal. lia.
  - replace ((48 <=? 87 + n) && (87 + n <=? 57)) with false
      by (symmetry; apply andb_false_iff; right; apply Z.leb_gt; lia).
    replace ((97 <=? 87 + n) && (87 + n <=? 102)) with true
      by (symmetry; apply andb_true_iff; split; apply Z.leb_le; lia).
    f_equal. lia.
Qed.

Lemma hexDigit_pair (b : byte) :
  0 <= byteVal b / 16 < 16 /\ 0 <= byteVal b mod 16 < 16
  /\ 16 * (byteVal b / 16) + byteVal b mod 16 = byteVal b.
Proof.
  pose proof (byteVal_range b). repeat split; Z.div_mod_to_equations; lia.
Qed.

(** Decoding the hexadecimal text of a buffer gives the buffer back. *)
Lemma fromHex_toHex (buf : list byte) : fromHex (toHex buf) = buf.
Proof.
  induction buf as [|b buf IH]; [reflexivity|].
  destruct (hexDigit_pair b) as (Hh & Hl & Hsum).
  cbn [toHex flat_map app fromHex]. fold (toHex buf).
  rewrite (hexVal_hexDigit _ Hh), (hexVal_hexDigit _ Hl), Hsum.
  now rewrite byteOf_byteVal, IH.
Qed.

Lemma hexDigit_isHexUnit (n : Z) : 0 <= n < 16 -> isHexUnit (hexDigit n).
Proof.
  intros H. unfold isHexUnit, hexDigit. destruct (n <? 10) eqn:E;
    [apply Z.ltb_lt in E | apply Z.ltb_ge in E]; lia.
Qed.

Lemma toHex_isHexUnit (buf : list byte) : Forall isHexUnit (toHex buf).
Proof.
  induction buf as [|b buf IH]; [constructor|].
  destruct (hexDigit_pair b) as (Hh & Hl & _).
  cbn [toHex flat_map app]. fold (toHex buf).
  constructor; [now apply hexDigit_isHexUnit|].
  constructor; [now apply hexDigit_isHexUnit | exact IH].
Qed.

Lemma isHexUnit_not_colon (c : Z) : isHexUnit c -> c <> 58.
Proof. unfold isHexUnit. lia. Qed.

Lemma isHexUnit_not_space (c : Z) : isHexUnit c -> isWhiteSpace c = false.
Proof.
  unfold isHexUnit, isWhiteSpace. intros H.
  repeat (apply orb_false_iff; split);
    try (apply Z.eqb_neq; lia);
    apply andb_false_iff;
    first [ left; apply Z.leb_gt; lia | right; apply Z.leb_gt; lia ].
Qed.

Lemma toHex_no_colon (buf : list byte) : Forall (fun c => c <> 58) (toHex buf).
Proof.
  eapply Forall_impl; [|apply toHex_isHexUnit]. apply isHexUnit_not_colon.
Qed.

Lemma toHex_length (buf : list byte) :
  List.length (toHex buf) = (2 * List.length buf)%nat.
Proof.
  induction buf as [|b buf IH]; [reflexivity|].
  cbn [toHex flat_map app List.length]. fold (toHex buf). lia.
Qed.

(** The hexadecimal text of a buffer has an even number of digits. *)
Lemma toHex_even (buf : list byte) : Nat.odd (List.length (toHex buf)) = false.
Proof.
  rewrite toHex_length, Nat.odd_mul. reflexivity.
Qed.

End ByteFacts.

(* ------------------------------------------------------------------ *)
(** ** UTF-8 *)

Ltac zarith := Z.div_mod_to_equations; lia.

(** Decide the integer comparisons of the goal by arithmetic. *)
Ltac zbool :=
  repeat match goal with
  | |- context [?a <=? ?b] =>
      first [ rewrite (proj2 (Z.leb_le a b)) by zarith
            | rewrite (proj2 (Z.leb_gt a b)) by zarith ]
  | |- context [?a <? ?b] =>
      first [ rewrite (proj2 (Z.ltb_lt a b)) by zarith
            | rewrite (proj2 (Z.ltb_ge a b)) by zarith ]
  | |- context [?a =? ?b] =>
      first [ rewrite (proj2 (Z.eqb_eq a b)) by zarith
            | rewrite (proj2 (Z.eqb_neq a b)) by zarith ]
  end.

(** One step of the decoder on the next encoded byte. *)
Ltac decodeByte :=
  cbn [app utf8Run];
  rewrite ?byteVal_byteOf_small by zarith;
  unfold utf8Step, utf8Lead;
  cbn [bytesNeeded bytesSeen codePoint lowerBoundary upperBoundary utf8Init];
  zbool;
  cbn [negb andb bytesNeeded bytesSeen codePoint lowerBoundary upperBoundary
       utf8Init].

Ltac sameCodePoint cp :=
  match goal with
  | |- context [unitsOfCodePoint ?e] => replace e with cp by zarith
  end; reflexivity.

Section Utf8Facts.

(** The decoder reads the encoding of a scalar value back and is then
    ready for the next sequence. *)
Lemma utf8Run_codePoint (cp : Z) (rest : list byte) :
  isScalar cp ->
  utf8Run utf8Init (utf8OfCodePoint cp ++ rest)
  = unitsOfCodePoint cp ++ utf8Run utf8Init rest.
Proof.
  intros [Hr Hs]. unfold utf8OfCodePoint.
  destruct (Z.ltb_spec cp 0x80);
    [|destruct (Z.ltb_spec cp 0x800); [|destruct (Z.ltb_spec cp 0x10000)]].
  - decodeByte. unfold unitsOfCodePoint. zbool. reflexivity.
  - decodeByte. decodeByte. sameCodePoint cp.
  - decodeByte.
    destruct (Z.eqb_spec (224 + cp / 4096) 224);
      destruct (Z.eqb_spec (224 + cp / 4096) 237);
      try (exfalso; lia); decodeByte; decodeByte; sameCodePoint cp.
  - decodeByte.
    destruct (Z.eqb_spec (240 + cp / 262144) 240);
      destruct (Z.eqb_spec (240 + cp / 262144) 244);
      try (exfalso; lia); decodeByte; decodeByte; decodeByte; sameCodePoint cp.
Qed.

Lemma surrogate_bounds (c : Z) :
  (isHighSurrogate c = true <-> 0xD800 <= c <= 0xDBFF)
  /\ (isLowSurrogate c = true <-> 0xDC00 <= c <= 0xDFFF).
Proof.
  unfold isHighSurrogate, isLowSurrogate.
  rewrite !andb_true_iff, !Z.leb_le. tauto.
Qed.

Lemma utf8_roundtrip_bounded (n : nat) (s : jsstring) :
  (List.length s <= n)%nat -> wellFormed s = true ->
  utf8Run utf8Init (utf8Encode s) = s.
Proof.
  revert s. induction n as [|n IH]; intros [|c rest] Hlen Hwf;
    try reflexivity; simpl in Hlen; [lia|].
  cbn [wellFormed utf8Encode] in *.
  destruct (isHighSurrogate c) eqn:Hhigh.
  - destruct rest as [|d rest']; [discriminate|].
    apply andb_true_iff in Hwf as [Hlow Hwf]. rewrite Hlow.
    apply surrogate_bounds in Hhigh. pose proof Hlow as Hd.
    apply surrogate_bounds in Hd.
    rewrite utf8Run_codePoint by (unfold isScalar; lia).
    rewrite IH by (assumption || (simpl in Hlen; lia)).
    unfold unitsOfCodePoint. zbool. cbn [app]. f_equal; [|f_equal]; zarith.
  - apply andb_true_iff in Hwf as [Hwf Hrest].
    apply andb_true_iff in Hwf as [Hvalid Hnotlow].
    apply negb_true_iff in Hnotlow. rewrite Hnotlow.
    unfold validUnit in Hvalid. apply andb_true_iff in Hvalid as [H0 H1].
    apply Z.leb_le in H0. apply Z.ltb_lt in H1.
    assert (~ (0xD800 <= c <= 0xDFFF)) as Hs.
    { intros Hc. destruct (Z.le_gt_cases c 0xDBFF).
      - assert (isHighSurrogate c = true) by (apply surrogate_bounds; lia).
        congruence.
      - assert (isLowSurrogate c = true) by (apply surrogate_bounds; lia).
        congruence. }
    rewrite utf8Run_codePoint by (unfold isScalar; lia).
    rewrite IH by (assumption || lia).
    unfold unitsOfCodePoint. zbool. reflexivity.
Qed.

(** Encoding a well-formed string and decoding the bytes gives the string
    back. *)
Lemma utf8_roundtrip (s : jsstring) :
  wellFormed s = true -> utf8Decode (utf8Encode s) = s.
Proof.
  intros H. unfold utf8Decode. now apply (utf8_roundtrip_bounded (List.length s)).
Qed.

End Utf8Facts.

(* ------------------------------------------------------------------ *)
(** ** SecurityService: encryption *)

Lemma randomBytes_returns (n : nat) (tape : Tape) :
  exists buf tape',
    randomBytes n tape = (Returned buf, tape') /\ List.length buf = n.
Proof.
  revert tape. induction n as [|n IH]; intros tape.
  - exists [], tape. split; reflexivity.
  - cbn [randomBytes]. unfold bind, draw.
    destruct (IH (fun k => tape (S k))) as (buf & tape' & Hrun & Hlen).
    rewrite Hrun. exists (byteOf (tape 0%nat) :: buf), tape'.
    split; [reflexivity | simpl; now rewrite Hlen].
Qed.

(** The token of an initialization vector, a tag and a ciphertext. *)
Lemma token_split (iv tag ct : list byte) :
  split 58 (toHex iv ++ js ":" ++ toHex tag ++ js ":" ++ toHex ct)
  = [toHex iv; toHex tag; toHex ct].
Proof.
  change (js ":") with [58]. cbn [app].
  rewrite split_app by apply toHex_no_colon.
  rewrite split_app by apply toHex_no_colon.
  rewrite split_none by apply toHex_no_colon.
  reflexivity.
Qed.

Lemma token_not_blank (iv tag ct : list byte) :
  Security.isBlank (toHex iv ++ js ":" ++ toHex tag ++ js ":" ++ toHex ct) = false.
Proof.
  change (js ":") with [58]. cbn [app]. now apply isBlank_app_false.
Qed.

Section Encryption.

Variable cipher : AesGcm.
Variable key : list byte.

(** The cipher accepts the service's key, its 16-byte initialization
    vectors and its associated data. *)
Hypothesis cipher_seals : forall iv plaintext,
  List.length iv = Security.ivLength ->
  gcmSeal cipher key iv Security.aad plaintext <> None.

(** The decipher, given the same key, vector and associated data, returns
    the plaintext of what the cipher produced. *)
Hypothesis cipher_opens : forall iv plaintext ct tag,
  gcmSeal cipher key iv Security.aad plaintext = Some (ct, tag) ->
  gcmOpen cipher key iv Security.aad tag ct = Some plaintext.

Lemma encrypt_blank (s : jsstring) (tape : Tape) :
  Security.isBlank s = true ->
  Security.encrypt cipher key s tape = (Returned s, tape).
Proof.
  intros H. unfold Security.encrypt. now rewrite H.
Qed.

Lemma decrypt_blank (S : Type) (s : jsstring) (st : S) :
  Security.isBlank s = true ->
  Security.decrypt cipher key s st = (Returned s, st).
Proof.
  intros H. unfold Security.decrypt. now rewrite H.
Qed.

(** What [encrypt] returns for a string that is not blank. *)
Lemma encrypt_token (s : jsstring) (tape : Tape) :
  Security.isBlank s = false ->
  exists iv tag ct tape',
    randomBytes Security.ivLength tape = (Returned iv, tape')
    /\ gcmSeal cipher key iv Security.aad (utf8Encode s) = Some (ct, tag)
    /\ Security.encrypt cipher key s tape
       = (Returned (toHex iv ++ js ":" ++ toHex tag ++ js ":" ++ toHex ct), tape').
Proof.
  intros Hblank.
  destruct (randomBytes_returns Security.ivLength tape) as (iv & tape' & Hiv & Hlen).
  pose proof (cipher_seals iv (utf8Encode s) Hlen) as Hseal.
  destruct (gcmSeal cipher key iv Security.aad (utf8Encode s)) as [[ct tag]|] eqn:E;
    [|congruence].
  exists iv, tag, ct, tape'. repeat split; try assumption.
  unfold Security.encrypt, tryCatch, bind. now rewrite Hblank, Hiv, E.
Qed.

(** What [decrypt] does with a well-formed token. *)
Lemma decrypt_token (S : Type) (iv tag ct : list byte) (st : S) :
  Security.decrypt cipher key
    (toHex iv ++ js ":" ++ toHex tag ++ js ":" ++ toHex ct) st
  = match gcmOpen cipher key iv Security.aad tag ct with
    | Some decrypted => (Returned (utf8Decode decrypted), st)
    | None => (Thrown (Error (js "Failed to decrypt data")), st)
    end.
Proof.
  unfold Security.decrypt, tryCatch.
  rewrite token_not_blank, token_split, toHex_even, !fromHex_toHex.
  now destruct (gcmOpen cipher key iv Security.aad tag ct).
Qed.

(** C1, as amended: for every string that is well-formed UTF-16 (no
    unpaired surrogate), in particular every non-empty one, [encrypt]
    returns a token and [decrypt] of that token returns the string; and for
    every empty or blank string both [encrypt] and [decrypt] return their
    input unchanged. *)
Theorem encrypt_decrypt_roundtrip :
  (forall (s : jsstring) (tape : Tape),
      wellFormed s = true ->
      exists token tape',
        Security.encrypt cipher key s tape = (Returned token, tape')
        /\ forall (S : Type) (st : S),
            Security.decrypt cipher key token st = (Returned s, st))
  /\ (forall (s : jsstring) (tape : Tape) (S : Type) (st : S),
        Security.isBlank s = true ->
        Security.encrypt cipher key s tape = (Returned s, tape)
        /\ Security.decrypt cipher key s st = (Returned s, st)).
Proof.
  split.
  - intros s tape Hwf. destruct (Security.isBlank s) eqn:Hblank.
    + exists s, tape. split; [now apply encrypt_blank|].
      intros S st. now apply decrypt_blank.
    + destruct (encrypt_token s tape Hblank) as (iv & tag & ct & tape' & _ & Hseal & Henc).
      eexists _, tape'. split; [exact Henc|].
      intros S st. rewrite decrypt_token, (cipher_opens _ _ _ _ Hseal).
      now rewrite utf8_roundtrip.
  - intros s tape S st Hblank. split; [now apply encrypt_blank | now apply decrypt_blank].
Qed.

(** An unpaired surrogate is encrypted as U+FFFD, which is what [decrypt]
    then returns, whatever the cipher. *)
Lemma lone_surrogate_replaced (tape : Tape) :
  exists token tape',
    Security.encrypt cipher key [0xD800] tape = (Returned token, tape')
    /\ forall (S : Type) (st : S),
        Security.decrypt cipher key token st = (Returned [0xFFFD], st).
Proof.
  destruct (encrypt_token [0xD800] tape eq_refl)
    as (iv & tag & ct & tape' & _ & Hseal & Henc).
  eexists _, tape'. split; [exact Henc|].
  intros S st. rewrite decrypt_token, (cipher_opens _ _ _ _ Hseal). reflexivity.
Qed.

End Encryption.

(* ------------------------------------------------------------------ *)
(** ** The reference cipher *)

Section ChecksumCipherFacts.

Import ChecksumCipher.

Lemma byteOf_mod (z : Z) : byteOf (z mod 256) = byteOf z.
Proof.
  unfold byteOf. now rewrite Z.mod_mod by lia.
Qed.

Lemma shift_back (buf : list byte) : shift (-1) (shift 1 buf) = buf.
Proof.
  unfold shift. rewrite map_map. rewrite <- (map_id buf) at 2.
  apply map_ext. intros b. rewrite byteVal_byteOf, <- byteOf_mod.
  pose proof (byteVal_range b).
  replace (((byteVal b + 1) mod 256 + -1) mod 256) with (byteVal b) by zarith.
  apply byteOf_byteVal.
Qed.

Lemma bytesEq_eq (a b : list byte) : bytesEq a b = true <-> a = b.
Proof.
  revert b. induction a as [|x a IH]; intros [|y b]; simpl;
    try (split; (reflexivity || discriminate)).
  rewrite andb_true_iff, IH. split.
  - intros [Hxy ->]. f_equal. now apply Byte.byte_dec_bl.
  - intros [= -> ->]. split; [|reflexivity]. now apply Byte.byte_dec_lb.
Qed.

Lemma checksum_seals (key iv plaintext : list byte) :
  List.length iv = Security.ivLength ->
  gcmSeal cipher key iv Security.aad plaintext <> None.
Proof. discriminate. Qed.

Lemma checksum_opens (key iv plaintext ct tag : list byte) :
  gcmSeal cipher key iv Security.aad plaintext = Some (ct, tag) ->
  gcmOpen cipher key iv Security.aad tag ct = Some plaintext.
Proof.
  cbn [gcmSeal gcmOpen cipher]. unfold seal, open. intros [= <- <-].
  rewrite (proj2 (bytesEq_eq _ _) eq_refl). now rewrite shift_back.
Qed.

Lemma sumBytes_app (a b : list byte) : sumBytes (a ++ b) = sumBytes a + sumBytes b.
Proof.
  induction a as [|x a IH]; simpl; [reflexivity|]. unfold sumBytes in *. simpl.
  rewrite IH. lia.
Qed.

(** Changing one byte changes the sum of the bytes modulo 256. *)
Lemma sumBytes_changed (a a' : list byte) (rest : Z) :
  oneByteChanged a a' ->
  byteOf (sumBytes a + rest) <> byteOf (sumBytes a' + rest).
Proof.
  intros [pre x y post Hxy] Heq.
  apply (f_equal byteVal) in Heq. rewrite !byteVal_byteOf in Heq.
  rewrite !sumBytes_app in Heq. cbn [sumBytes fold_right] in Heq.
  fold (sumBytes post) in Heq.
  apply Hxy, byteVal_inj.
  pose proof (byteVal_range x). pose proof (byteVal_range y). zarith.
Qed.

Lemma oneByteChanged_neq (a b : list byte) : oneByteChanged a b -> a <> b.
Proof.
  intros [pre x y post Hxy] Heq. apply app_inv_head in Heq. congruence.
Qed.

Lemma checksum_detects_any (key aad iv plaintext ct tag iv' tag' ct' : list byte) :
  gcmSeal cipher key iv aad plaintext = Some (ct, tag) ->
  tampered iv tag ct iv' tag' ct' ->
  gcmOpen cipher key iv' aad tag' ct' = None.
Proof.
  cbn [gcmSeal gcmOpen cipher]. unfold seal, open. intros [= <- <-] Ht.
  destruct (bytesEq tag' _) eqn:E; [exfalso|reflexivity].
  apply bytesEq_eq in E.
  destruct Ht as [(Hc & -> & ->) | [(-> & Hc & ->) | (-> & -> & Hc)]].
  - unfold tagOf in E. injection E as E.
    apply (sumBytes_changed _ _ (sumBytes aad + sumBytes (shift 1 plaintext))) in Hc.
    apply Hc. rewrite !Z.add_assoc. exact E.
  - apply oneByteChanged_neq in Hc. congruence.
  - unfold tagOf in E. injection E as E.
    apply (sumBytes_changed _ _ (sumBytes iv + sumBytes aad)) in Hc.
    apply Hc. rewrite (Z.add_comm (sumBytes (shift 1 plaintext))), E.
    f_equal. lia.
Qed.

Lemma checksum_detects (key iv plaintext ct tag iv' tag' ct' : list byte) :
  gcmSeal cipher key iv Security.aad plaintext = Some (ct, tag) ->
  tampered iv tag ct iv' tag' ct' ->
  gcmOpen cipher key iv' Security.aad tag' ct' = None.
Proof. apply checksum_detects_any. Qed.

End ChecksumCipherFacts.

(* ------------------------------------------------------------------ *)
(** ** SecurityService: decryption failures *)

Section HexFlip.

Lemma hexVal_Some (c v : Z) :
  hexVal c = Some v -> 0 <= v < 16 /\ c <> 58 /\ isWhiteSpace c = false.
Proof.
  unfold hexVal.
  destruct ((48 <=? c) && (c <=? 57)) eqn:E1;
    [|destruct ((97 <=? c) && (c <=? 102)) eqn:E2;
      [|destruct ((65 <=? c) && (c <=? 70)) eqn:E3; [|discriminate]]];
    intros [= <-];
    match goal with
    | H : (_ && _) = true |- _ =>
        apply andb_true_iff in H as [Ha Hb];
        apply Z.leb_le in Ha; apply Z.leb_le in Hb
    end;
    (split; [lia|]); (split; [lia|]);
    unfold isWhiteSpace; zbool; reflexivity.
Qed.

Lemma oneByteChanged_cons (b : byte) (a a' : list byte) :
  oneByteChanged a a' -> oneByteChanged (b :: a) (b :: a').
Proof.
  intros [pre x y post Hxy]. apply (changedAt (b :: pre) x y post Hxy).
Qed.

Lemma oneByteChanged_head (x y : byte) (rest : list byte) :
  x <> y -> oneByteChanged (x :: rest) (y :: rest).
Proof. apply (changedAt [] x y rest). Qed.

(** Replacing one digit of the hexadecimal text of a buffer by a digit of
    another value changes exactly one byte of what is decoded. *)
Lemma hex_flip (buf : list byte) (p q : jsstring) (c c' v' : Z) :
  toHex buf = p ++ c :: q ->
  hexVal c' = Some v' -> hexVal c <> Some v' ->
  oneByteChanged buf (fromHex (p ++ c' :: q)).
Proof.
  intros Hhex Hc' Hne. revert p Hhex.
  induction buf as [|b buf IH]; intros p Hhex.
  - destruct p; discriminate.
  - destruct (hexDigit_pair b) as (Hh & Hl & Hsum).
    destruct (hexVal_Some _ _ Hc') as (Hv' & _ & _).
    cbn [toHex flat_map app] in Hhex. fold (toHex buf) in Hhex.
    destruct p as [|x [|y p]]; cbn [app] in Hhex;
      injection Hhex; clear Hhex; intros; subst; cbn [app fromHex].
    + rewrite Hc', (hexVal_hexDigit _ Hl), fromHex_toHex.
      apply oneByteChanged_head. intros Heq. apply (f_equal byteVal) in Heq.
      rewrite byteVal_byteOf_small in Heq by lia.
      rewrite (hexVal_hexDigit _ Hh) in Hne.
      apply Hne. f_equal. lia.
    + rewrite Hc', (hexVal_hexDigit _ Hh), fromHex_toHex.
      apply oneByteChanged_head. intros Heq. apply (f_equal byteVal) in Heq.
      rewrite byteVal_byteOf_small in Heq by lia.
      rewrite (hexVal_hexDigit _ Hl) in Hne.
      apply Hne. f_equal. lia.
    + rewrite (hexVal_hexDigit _ Hh), (hexVal_hexDigit _ Hl), Hsum, byteOf_byteVal.
      apply oneByteChanged_cons. now apply IH.
Qed.

(** Where a unit of [a ++ sep :: b] lies when it is not the separator. *)
Lemma app_cons_split (sep c : Z) (pre post a b : jsstring) :
  pre ++ c :: post = a ++ sep :: b -> c <> sep ->
  (exists q, a = pre ++ c :: q /\ post = q ++ sep :: b)
  \/ (exists p, pre = a ++ sep :: p /\ b = p ++ c :: post).
Proof.
  revert a. induction pre as [|x pre IH]; intros [|y a] Heq Hne; cbn [app] in Heq;
    injection Heq as H1 H2.
  - congruence.
  - subst. left. now exists a.
  - subst. right. now exists pre.
  - subst. destruct (IH a H2 Hne) as [[q [-> ->]] | [p [-> ->]]].
    + left. now exists q.
    + right. now exists p.
Qed.

Lemma Forall_replace {P : Z -> Prop} (p q : jsstring) (c c' : Z) :
  Forall P (p ++ c :: q) -> P c' -> Forall P (p ++ c' :: q).
Proof.
  rewrite !Forall_app. intros [Hp Hq] Hc'. inversion Hq; subst.
  split; [assumption | now constructor].
Qed.

End HexFlip.

Lemma app_cons_assoc {A : Type} (p : list A) (c : A) (q r : list A) :
  p ++ c :: q ++ r = (p ++ c :: q) ++ r.
Proof. now rewrite <- app_assoc. Qed.

Section Decryption.

Variable cipher : AesGcm.
Variable key : list byte.

(** The decipher rejects a sealed message in which one byte of the vector,
    of the tag or of the ciphertext was changed. *)
Hypothesis cipher_detects : forall iv plaintext ct tag iv' tag' ct',
  gcmSeal cipher key iv Security.aad plaintext = Some (ct, tag) ->
  tampered iv tag ct iv' tag' ct' ->
  gcmOpen cipher key iv' Security.aad tag' ct' = None.

(** [decrypt] on a token that is not blank, by cases on its segments. *)
Lemma decrypt_cases (S : Type) (token : jsstring) (st : S) :
  Security.isBlank token = false ->
  Security.decrypt cipher key token st
  = match split 58 token with
    | [p0; p1; p2] =>
        if Nat.odd (List.length p2) then (Thrown decryptionError, st)
        else
          match gcmOpen cipher key (fromHex p0) Security.aad (fromHex p1) (fromHex p2) with
          | Some decrypted => (Returned (utf8Decode decrypted), st)
          | None => (Thrown decryptionError, st)
          end
    | _ => (Thrown decryptionError, st)
    end.
Proof.
  intros Hblank. unfold Security.decrypt, tryCatch. rewrite Hblank.
  destruct (split 58 token) as [|p0 [|p1 [|p2 [|p3 ps]]]]; try reflexivity.
  destruct (Nat.odd (List.length p2)); [reflexivity|].
  now destruct (gcmOpen cipher key (fromHex p0) Security.aad (fromHex p1) (fromHex p2)).
Qed.

(** A token of three colon-free segments, one of which decodes to a
    changed buffer, is rejected. *)
Lemma decrypt_tampered (S : Type) (st : S) (iv tag ct : list byte)
  (plaintext : list byte) (a b c : jsstring) :
  gcmSeal cipher key iv Security.aad plaintext = Some (ct, tag) ->
  Forall (fun u => u <> 58) a -> Forall (fun u => u <> 58) b ->
  Forall (fun u => u <> 58) c ->
  tampered iv tag ct (fromHex a) (fromHex b) (fromHex c) ->
  Security.decrypt cipher key (a ++ 58 :: b ++ 58 :: c) st
  = (Thrown decryptionError, st).
Proof.
  intros Hseal Ha Hb Hc Ht.
  rewrite decrypt_cases by (now apply isBlank_app_false).
  rewrite split_app by assumption. rewrite split_app by assumption.
  rewrite split_none by assumption.
  destruct (Nat.odd (List.length c)); [reflexivity|].
  now rewrite (cipher_detects _ _ _ _ _ _ _ Hseal Ht).
Qed.

(** What a returned token is made of. *)
Lemma encrypt_returned (s token : jsstring) (tape tape' : Tape) :
  Security.encrypt cipher key s tape = (Returned token, tape') ->
  (Security.isBlank s = true /\ token = s)
  \/ (exists iv tag ct,
        gcmSeal cipher key iv Security.aad (utf8Encode s) = Some (ct, tag)
        /\ token = toHex iv ++ 58 :: toHex tag ++ 58 :: toHex ct).
Proof.
  unfold Security.encrypt. destruct (Security.isBlank s) eqn:Hblank.
  - intros [= <- _]. now left.
  - unfold tryCatch, bind.
    destruct (randomBytes_returns Security.ivLength tape) as (iv & t1 & Hiv & _).
    rewrite Hiv.
    destruct (gcmSeal cipher key iv Security.aad (utf8Encode s)) as [[ct tag]|] eqn:E;
      [|discriminate].
    intros [= <- _]. right. now exists iv, tag, ct.
Qed.

(** C7, as amended: for every token that is not blank, [decrypt] throws
    the error 'Failed to decrypt data' exactly when the token does not
    have exactly three colon-delimited segments, or its third segment has
    an odd number of characters (the decipher refuses it as hexadecimal
    input), or the decipher rejects the decoded segments, and returns a
    plaintext otherwise; and replacing any hexadecimal digit of a token
    returned by [encrypt] by a digit of another value makes [decrypt] throw
    that error. *)
Theorem decrypt_fails_exactly_when :
  (forall (S : Type) (token : jsstring) (st : S),
      Security.isBlank token = false ->
      (Security.decrypt cipher key token st = (Thrown decryptionError, st)
       <-> (List.length (split 58 token) <> 3%nat
            \/ oddCiphertext token
            \/ tagRejected cipher key token))
      /\ (Security.decrypt cipher key token st = (Thrown decryptionError, st)
          \/ exists plaintext,
              Security.decrypt cipher key token st = (Returned plaintext, st)))
  /\ (forall (s token : jsstring) (tape tape' : Tape),
        Security.encrypt cipher key s tape = (Returned token, tape') ->
        forall (pre post : jsstring) (c c' v v' : Z),
          token = pre ++ c :: post ->
          hexVal c = Some v -> hexVal c' = Some v' -> v' <> v ->
          forall (S : Type) (st : S),
            Security.decrypt cipher key (pre ++ c' :: post) st
            = (Thrown decryptionError, st)).
Proof.
  split.
  - intros S token st Hblank. rewrite decrypt_cases by assumption.
    unfold tagRejected, oddCiphertext.
    destruct (split 58 token) as [|p0 [|p1 [|p2 [|p3 ps]]]] eqn:Hsplit;
      cbn [List.length];
      try (split; [ split; [intros _; left; lia | reflexivity] | now left ]).
    destruct (Nat.odd (List.length p2)) eqn:Hodd.
    { split; [split|].
      - intros _. right; left. now exists p0, p1, p2.
      - reflexivity.
      - now left. }
    destruct (gcmOpen cipher key (fromHex p0) Security.aad (fromHex p1) (fromHex p2))
      as [d|] eqn:Hopen.
    + split; [split|].
      * discriminate.
      * intros [Hlen | [(q0 & q1 & q2 & [= <- <- <-] & Hq)
                       | (q0 & q1 & q2 & [= <- <- <-] & Hrej)]];
          [lia | congruence | congruence].
      * right. now exists (utf8Decode d).
    + split; [split|].
      * intros _. right; right. now exists p0, p1, p2.
      * reflexivity.
      * now left.
  - intros s token tape tape' Henc pre post c c' v v' Htok Hc Hc' Hv S st.
    destruct (hexVal_Some _ _ Hc) as (_ & Hcolon & Hspace).
    destruct (hexVal_Some _ _ Hc') as (_ & Hcolon' & _).
    assert (hexVal c <> Some v') as Hne by congruence.
    destruct (encrypt_returned _ _ _ _ Henc)
      as [[Hblank ->] | (iv & tag & ct & Hseal & ->)].
    { rewrite isBlank_spec, Htok, forallb_app in Hblank. cbn [forallb] in Hblank.
      rewrite Hspace, andb_false_r in Hblank. discriminate. }
    pose proof (toHex_no_colon iv) as Niv.
    pose proof (toHex_no_colon tag) as Ntag.
    pose proof (toHex_no_colon ct) as Nct.
    symmetry in Htok.
    destruct (app_cons_split _ _ _ _ _ _ Htok Hcolon)
      as [(q & Hiv & ->) | (p & -> & Hrest)].
    + (* the digit is in the vector *)
      rewrite app_cons_assoc. rewrite Hiv in Niv.
      apply (decrypt_tampered S st iv tag ct (utf8Encode s)); try assumption.
      * now apply (Forall_replace _ _ c).
      * left. rewrite !fromHex_toHex. repeat split.
        now apply (hex_flip _ _ _ c c' v').
    + symmetry in Hrest.
      destruct (app_cons_split _ _ _ _ _ _ Hrest Hcolon)
        as [(q & Htag & ->) | (p' & -> & Hct)].
      * (* the digit is in the tag *)
        rewrite <- app_assoc. cbn [app]. rewrite (app_cons_assoc p).
        rewrite Htag in Ntag.
        apply (decrypt_tampered S st iv tag ct (utf8Encode s)); try assumption.
        -- now apply (Forall_replace _ _ c).
        -- right; left. rewrite !fromHex_toHex. repeat split.
           now apply (hex_flip _ _ _ c c' v').
      * (* the digit is in the ciphertext *)
        rewrite <- app_assoc. cbn [app]. rewrite <- app_assoc. cbn [app].
        rewrite Hct in Nct.
        apply (decrypt_tampered S st iv tag ct (utf8Encode s)); try assumption.
        -- now apply (Forall_replace _ _ c).
        -- right; right. rewrite !fromHex_toHex. repeat split.
           now apply (hex_flip _ _ _ c c' v').
Qed.

End Decryption.

(* ------------------------------------------------------------------ *)
(** ** SecurityService on concrete inputs *)

(** The tape that always yields [0xAB]. *)
Example encrypt_sample :
  Security.encrypt ChecksumCipher.cipher [] (js "Amina") (fun _ => 0xAB)
  = (Returned (js "abababababababababababababababab:69000000000000000000000000000000:426e6a6f62"),
     fun _ => 0xAB).
Proof. reflexivity. Qed.

Lemma encrypt_decrypt_roundtrip_witness :
  exists token tape',
    Security.encrypt ChecksumCipher.cipher [] (js "Amina") (fun _ => 0xAB)
    = (Returned token, tape')
    /\ forall (S : Type) (st : S),
        Security.decrypt ChecksumCipher.cipher [] token st
        = (Returned (js "Amina"), st).
Proof.
  apply (proj1 (encrypt_decrypt_roundtrip ChecksumCipher.cipher []
                  (checksum_seals []) (checksum_opens []))).
  reflexivity.
Defined.

(** C1 as stated fails: the one-unit string made of the unpaired surrogate
    U+D800 is not empty, and [decrypt (encrypt s)] is U+FFFD, not [s];
    under every cipher that opens what it seals, and on the reference
    cipher. *)
Lemma roundtrip_fails_on_lone_surrogate :
  validUnits [0xD800] = true /\ [0xD800] <> @nil Z /\ [0xFFFD] <> [0xD800]
  /\ (forall (cipher : AesGcm) (key : list byte),
        (forall iv plaintext, List.length iv = Security.ivLength ->
           gcmSeal cipher key iv Security.aad plaintext <> None) ->
        (forall iv plaintext ct tag,
           gcmSeal cipher key iv Security.aad plaintext = Some (ct, tag) ->
           gcmOpen cipher key iv Security.aad tag ct = Some plaintext) ->
        forall tape, exists token tape',
          Security.encrypt cipher key [0xD800] tape = (Returned token, tape')
          /\ Security.decrypt cipher key token tt = (Returned [0xFFFD], tt))
  /\ (exists token tape',
        Security.encrypt ChecksumCipher.cipher [] [0xD800] (fun _ => 0xAB)
        = (Returned token, tape')
        /\ Security.decrypt ChecksumCipher.cipher [] token tt
           = (Returned [0xFFFD], tt)).
Proof.
  split; [reflexivity|]. split; [discriminate|]. split; [discriminate|]. split.
  - intros cipher key Hseals Hopens tape.
    destruct (lone_surrogate_replaced cipher key Hseals Hopens tape)
      as (token & tape' & Henc & Hdec).
    exists token, tape'. split; [exact Henc | apply Hdec].
  - eexists _, _. split; reflexivity.
Qed.

Lemma decrypt_fails_witness :
  Security.decrypt ChecksumCipher.cipher []
    (js "bbababababababababababababababab:69000000000000000000000000000000:426e6a6f62")
    tt
  = (Thrown decryptionError, tt).
Proof.
  apply (proj2 (decrypt_fails_exactly_when ChecksumCipher.cipher []
                  (checksum_detects []))
           (js "Amina")
           (js "abababababababababababababababab:69000000000000000000000000000000:426e6a6f62")
           (fun _ => 0xAB) (fun _ => 0xAB) eq_refl
           []
           (js "bababababababababababababababab:69000000000000000000000000000000:426e6a6f62")
           97 98 10 11 eq_refl eq_refl eq_refl).
  discriminate.
Defined.

(** C7 as stated fails on two tokens.  One space is not empty and has a
    single segment, and [decrypt] returns it instead of throwing.  A token
    returned by [encrypt] with one more digit at its end has three
    segments, and the decipher would accept what they decode to (the
    reference decipher does); [decrypt] throws nevertheless, under every
    cipher, because its third segment has an odd number of characters. *)
Lemma decrypt_departs_from_claim :
  (js " " <> [] /\ List.length (split 58 (js " ")) <> 3%nat
   /\ forall (cipher : AesGcm) (key : list byte),
       Security.decrypt cipher key (js " ") tt = (Returned (js " "), tt))
  /\ (let token :=
        js "abababababababababababababababab:69000000000000000000000000000000:426e6a6f62a"
      in
      js "426e6a6f62a" = js "426e6a6f62" ++ js "a"
      /\ split 58 token
         = [js "abababababababababababababababab";
            js "69000000000000000000000000000000"; js "426e6a6f62a"]
      /\ gcmOpen ChecksumCipher.cipher []
           (fromHex (js "abababababababababababababababab")) Security.aad
           (fromHex (js "69000000000000000000000000000000"))
           (fromHex (js "426e6a6f62a"))
         = Some (utf8Encode (js "Amina"))
      /\ forall (cipher : AesGcm) (key : list byte),
          Security.decrypt cipher key token tt = (Thrown decryptionError, tt)).
Proof.
  split.
  - split; [discriminate|]. split; [discriminate|]. reflexivity.
  - cbv zeta. split; [reflexivity|]. split; [reflexivity|].
    split; [reflexivity|]. intros cipher key. reflexivity.
Qed.

(* ------------------------------------------------------------------ *)
(** ** AccessControlService: access decisions *)

Section AccessDecisions.

Import AccessControl.

(** The pairs of the table are distinct: a rule for [(res, act)] is the
    one the lookup finds. *)
Lemma findRule_ruleFor (res act : jsstring) (rule : AccessRule) :
  ruleFor res act rule -> findRule res act = Some rule.
Proof.
  intros (Hin & <- & <-). unfold accessRules in Hin. simpl in Hin.
  repeat (destruct Hin as [<- | Hin]; [reflexivity|]). contradiction.
Qed.

Lemma findRule_Some (res act : jsstring) (rule : AccessRule) :
  findRule res act = Some rule -> ruleFor res act rule.
Proof.
  unfold findRule. intros H. apply find_some in H as [Hin Htest].
  apply andb_true_iff in Htest as [Hr Ha].
  apply strEq_eq in Hr. apply strEq_eq in Ha. now split.
Qed.

Lemma findRule_None (res act : jsstring) :
  (forall rule, ~ ruleFor res act rule) -> findRule res act = None.
Proof.
  intros Hnone. destruct (findRule res act) as [rule|] eqn:E; [|reflexivity].
  exfalso. now apply (Hnone rule), findRule_Some.
Qed.

Lemma hasRequiredPermissions_spec (rule : AccessRule) (perms : list jsstring) :
  hasRequiredPermissions rule perms = true
  <-> forall p, In p (requiredPermissions rule) -> In p perms.
Proof.
  unfold hasRequiredPermissions. rewrite forallb_forall.
  split; intros H p Hp; apply includes_In; now apply H.
Qed.

Lemma truthyStr_hubAbsent (ctx : AccessContext) :
  truthyStr (hubId ctx) = false <-> hubAbsent ctx.
Proof.
  unfold hubAbsent. destruct (hubId ctx) as [[|c s]|]; simpl; split;
    try tauto; try discriminate; intros [H|H]; discriminate.
Qed.

Lemma isTrue_spec (o : option bool) : isTrue o = true <-> o = Some true.
Proof.
  destruct o as [[|]|]; simpl; split; congruence.
Qed.

(** The checks of [checkAccess], as one boolean. *)
Lemma passes_spec (ctx : AccessContext) (rule : AccessRule) :
  includes (allowedUserTypes rule) (userTypeName (userType ctx))
  && negb match permissions ctx with
          | Some perms =>
              (0 <? List.length (requiredPermissions rule))%nat
              && negb (hasRequiredPermissions rule perms)
          | None => false
          end
  && negb (isTrue (requiresHubAccess rule) && negb (truthyStr (hubId ctx)))
  = true
  <-> passes ctx rule.
Proof.
  unfold passes, permissionsSuffice.
  rewrite !andb_true_iff, includes_In, !negb_true_iff. split.
  - intros [[Htype Hperm] Hhub]. split; [assumption|]. split.
    + intros perms Hp p Hin. rewrite Hp in Hperm.
      apply andb_false_iff in Hperm as [Hlen | Hall].
      * apply Nat.ltb_ge in Hlen.
        destruct (requiredPermissions rule); [destruct Hin | simpl in Hlen; lia].
      * apply negb_false_iff in Hall.
        now apply (proj1 (hasRequiredPermissions_spec rule perms)).
    + intros Hreq Habs. apply isTrue_spec in Hreq.
      apply truthyStr_hubAbsent in Habs. rewrite Hreq, Habs in Hhub.
      discriminate.
  - intros (Htype & Hperm & Hhub). split; [split|].
    + assumption.
    + destruct (permissions ctx) as [perms|]; [|reflexivity].
      apply andb_false_iff. right. apply negb_false_iff.
      apply hasRequiredPermissions_spec. now apply Hperm.
    + destruct (isTrue (requiresHubAccess rule)) eqn:E; [|reflexivity].
      apply isTrue_spec in E. cbn [andb]. apply negb_false_iff.
      destruct (truthyStr (hubId ctx)) eqn:T; [reflexivity|].
      apply truthyStr_hubAbsent in T. now elim (Hhub E).
Qed.

Lemma evaluateAccess_run (S : Type) (st : S) (ctx : AccessContext)
  (res act : jsstring) (resourceId : option jsstring) (rule : AccessRule) :
  findRule res act = Some rule ->
  exists d,
    evaluateAccess (Some ctx) res act resourceId st = (Returned d, st)
    /\ (allowed d = true <-> passes ctx rule)
    /\ (passes ctx rule ->
        d = {| allowed := true; reason := None;
               complianceFlags := complianceRequired rule |}).
Proof.
  intros Hrule. pose proof (passes_spec ctx rule) as Hp.
  unfold evaluateAccess. rewrite Hrule. cbn [readContext]. unfold bind, ret.
  destruct (includes (allowedUserTypes rule) (userTypeName (userType ctx)));
    [destruct (match permissions ctx with
               | Some perms =>
                   (0 <? List.length (requiredPermissions rule))%nat
                   && negb (hasRequiredPermissions rule perms)
               | None => false
               end);
     [|destruct (isTrue (requiresHubAccess rule) && negb (truthyStr (hubId ctx)))]|];
    cbn [negb andb] in *; eexists; (split; [reflexivity|]);
    unfold deny; cbn [allowed]; rewrite <- Hp; (split; [split; congruence|]);
    intros H; (discriminate H || reflexivity).
Qed.

(** C2: for every context, resource and action, [checkAccess] returns a
    decision; with no rule for the pair it is the denial 'No access rule
    defined'; with a rule, it is a denial when the user type is not among
    the rule's allowed types, when the context carries permissions that
    miss a required one (with no permissions the check is skipped), and
    when the rule requires a hub and the context has none; otherwise it is
    allowed and carries the rule's compliance flags. *)
Theorem checkAccess_decides (S : Type) (st : S) (ctx : AccessContext)
  (res act : jsstring) (resourceId : option jsstring) :
  exists d,
    checkAccess (Some ctx) res act resourceId st = (Returned d, st)
    /\ ((forall rule, ~ ruleFor res act rule) ->
        d = {| allowed := false; reason := Some (js "No access rule defined");
               complianceFlags := None |})
    /\ (forall rule, ruleFor res act rule ->
          (~ In (userTypeName (userType ctx)) (allowedUserTypes rule) ->
           allowed d = false)
          /\ (~ permissionsSuffice ctx rule -> allowed d = false)
          /\ (permissions ctx = None -> permissionsSuffice ctx rule)
          /\ (requiresHubAccess rule = Some true -> hubAbsent ctx ->
              allowed d = false)
          /\ (In (userTypeName (userType ctx)) (allowedUserTypes rule) ->
              permissionsSuffice ctx rule ->
              (requiresHubAccess rule = Some true -> ~ hubAbsent ctx) ->
              d = {| allowed := true; reason := None;
                     complianceFlags := complianceRequired rule |})).
Proof.
  unfold checkAccess, tryCatch.
  destruct (findRule res act) as [rule|] eqn:Hfind.
  - destruct (evaluateAccess_run S st ctx res act resourceId rule Hfind)
      as (d & Hrun & Hallowed & Hflags).
    exists d. rewrite Hrun. split; [reflexivity|]. split.
    + intros Hnone. exfalso. now apply (Hnone rule), findRule_Some.
    + intros rule' Hfor. apply findRule_ruleFor in Hfor.
      assert (rule' = rule) as -> by congruence.
      assert (~ passes ctx rule -> allowed d = false) as Hdeny.
      { intros Hn. destruct (allowed d); [|reflexivity].
        exfalso. now apply Hn, Hallowed. }
      repeat split.
      * intros Hn. apply Hdeny. unfold passes. tauto.
      * intros Hn. apply Hdeny. unfold passes. tauto.
      * intros Hnone perms Hperms. congruence.
      * intros Hreq Habs. apply Hdeny. unfold passes. tauto.
      * intros Htype Hperm Hhub. apply Hflags. unfold passes. tauto.
  - exists (deny (js "No access rule defined")).
    unfold evaluateAccess. rewrite Hfind. split; [reflexivity|]. split.
    + reflexivity.
    + intros rule Hfor. apply findRule_ruleFor in Hfor. congruence.
Qed.

(** C10: [checkAccess] never throws: for every context, a missing one
    included, and every resource and action, it returns a decision; and
    when the evaluation throws, the decision is the denial 'Access check
    failed'. *)
Theorem checkAccess_never_throws (S : Type) (st : S)
  (context : option AccessContext) (res act : jsstring)
  (resourceId : option jsstring) :
  exists d,
    checkAccess context res act resourceId st = (Returned d, st)
    /\ (forall e st',
          evaluateAccess context res act resourceId st = (Thrown e, st') ->
          d = {| allowed := false; reason := Some (js "Access check failed");
                 complianceFlags := None |}).
Proof.
  unfold checkAccess, tryCatch.
  destruct context as [ctx|].
  - destruct (findRule res act) as [rule|] eqn:Hfind.
    + destruct (evaluateAccess_run S st ctx res act resourceId rule Hfind)
        as (d & Hrun & _).
      exists d. rewrite Hrun. split; [reflexivity | discriminate].
    + unfold evaluateAccess. rewrite Hfind. eexists. split; [reflexivity|].
      discriminate.
  - unfold evaluateAccess. destruct (findRule res act) as [rule|].
    + eexists. split; reflexivity.
    + eexists. split; [reflexivity | discriminate].
Qed.

(** The evaluation does throw on a missing context, once a rule is found. *)
Example checkAccess_fails_closed :
  evaluateAccess None (js "student") (js "view") None tt
  = (Thrown (TypeError
               (js "Cannot read properties of undefined (reading 'userType')")), tt)
  /\ checkAccess None (js "student") (js "view") None tt
     = (Returned (deny (js "Access check failed")), tt).
Proof. split; reflexivity. Qed.

(** The fail-closed default on an unknown pair. *)
Example checkAccess_unknown (ctx : option AccessContext) :
  checkAccess ctx (js "unknown-resource") (js "unknown-action") None tt
  = (Returned (deny (js "No access rule defined")), tt).
Proof. reflexivity. Qed.

End AccessDecisions.


(* ------------------------------------------------------------------ *)
(** ** The calendar *)

Section Calendar.

(** The date of a day number leads back to the day number. *)
Lemma MakeDay_civilFromDay (day : Z) :
  let '(y, m, d) := Date.civilFromDay day in
  Date.MakeDay y m d = day /\ 0 <= m <= 11 /\ 1 <= d <= 31.
Proof.
  unfold Date.civilFromDay, Date.MakeDay, Date.dayOfMonthStart. cbv zeta.
  remember (day + 719468) as z eqn:Ez.
  remember (z / 146097) as era eqn:Eera. remember (z mod 146097) as doe eqn:Edoe.
  remember ((doe - doe / 1460 + doe / 36524 - doe / 146096) / 365) as yoe eqn:Eyoe.
  remember (doe - (365 * yoe + yoe / 4 - yoe / 100)) as doy eqn:Edoy.
  remember ((5 * doy + 2) / 153) as mp eqn:Emp.
  assert (0 <= yoe <= 399 /\ 0 <= doy <= 365) as [Hyoe Hdoy].
  { subst yoe doy doe. split; zarith. }
  assert (0 <= mp <= 11) as Hmp by (subst mp; zarith).
  assert (z = era * 146097 + doe /\ 0 <= doe < 146097) as [Hz Hdoe]
    by (subst era doe; zarith).
  clear Eera Edoe Eyoe.
  destruct (Z.ltb_spec mp 10) as [Hlt|Hge].
  - rewrite (proj2 (Z.ltb_ge (mp + 2) 2)) by lia.
    replace ((mp + 2) / 12) with 0 by zarith.
    replace ((mp + 2) mod 12) with (mp + 2) by zarith.
    rewrite (proj2 (Z.ltb_ge (mp + 2) 2)) by lia.
    rewrite Z.add_0_r.
    replace ((yoe + era * 400) / 400) with era by zarith.
    replace (mp + 2 - 2) with mp by lia.
    repeat split; try lia; subst mp; zarith.
  - rewrite (proj2 (Z.ltb_lt (mp - 10) 2)) by lia.
    replace ((mp - 10) / 12) with 0 by zarith.
    replace ((mp - 10) mod 12) with (mp - 10) by zarith.
    rewrite (proj2 (Z.ltb_lt (mp - 10) 2)) by lia.
    rewrite Z.add_0_r.
    replace ((yoe + era * 400 + 1 - 1) / 400) with era by zarith.
    replace (mp - 10 + 10) with mp by lia.
    repeat split; try lia; subst mp; zarith.
Qed.

(** The year of the era is recovered from the day of the era. *)
Lemma yoe_of_doe (yoe doy : Z) :
  0 <= yoe <= 399 -> 0 <= doy ->
  doy <= 364 + (if ((yoe + 1) mod 4 =? 0) && (negb ((yoe + 1) mod 100 =? 0) || ((yoe + 1) mod 400 =? 0)) then 1 else 0) ->
  let doe := yoe * 365 + yoe / 4 - yoe / 100 + doy in
  0 <= doe < 146097
  /\ (doe - doe / 1460 + doe / 36524 - doe / 146096) / 365 = yoe.
Proof.
  intros Hyoe Hdoy Hmax. cbv zeta.
  destruct (Z.eqb_spec ((yoe + 1) mod 4) 0) as [H4|H4];
    destruct (Z.eqb_spec ((yoe + 1) mod 100) 0) as [H100|H100];
    destruct (Z.eqb_spec ((yoe + 1) mod 400) 0) as [H400|H400];
    cbn [negb andb orb] in Hmax.
  all: split; zarith.
Qed.

(** Days before each month of a year that starts in March, and the month
    a day of that year falls in. *)
Lemma month_of_doy (mp d len : Z) :
  (mp, len) = (0, 31) \/ (mp, len) = (1, 30) \/ (mp, len) = (2, 31)
  \/ (mp, len) = (3, 30) \/ (mp, len) = (4, 31) \/ (mp, len) = (5, 31)
  \/ (mp, len) = (6, 30) \/ (mp, len) = (7, 31) \/ (mp, len) = (8, 30)
  \/ (mp, len) = (9, 31) \/ (mp, len) = (10, 31) \/ (mp, len) = (11, 29) ->
  1 <= d <= len ->
  let doy := (153 * mp + 2) / 5 + d - 1 in
  0 <= doy <= 365 /\ (mp <= 10 -> doy <= 336) /\ (d <= 28 -> doy <= 364)
  /\ (5 * doy + 2) / 153 = mp /\ doy - (153 * mp + 2) / 5 + 1 = d.
Proof.
  intros Hcases Hd. cbv zeta.
  repeat (destruct Hcases as [[= -> ->] | Hcases]); [.. | injection Hcases as -> ->];
    repeat split; zarith.
Qed.

Lemma civilFromDay_MakeDay (y m d : Z) :
  0 <= m <= 11 -> 1 <= d <= Date.daysInMonth y m ->
  Date.civilFromDay (Date.MakeDay y m d) = (y, m, d).
Proof.
  intros Hm Hd. unfold Date.MakeDay.
  replace (m / 12) with 0 by zarith. replace (m mod 12) with m by zarith.
  rewrite Z.add_0_r. unfold Date.dayOfMonthStart. cbv zeta.
  set (y' := if m <? 2 then y - 1 else y).
  set (mp := if m <? 2 then m + 10 else m - 2).
  remember (y' / 400) as era eqn:Eera.
  remember (y' - era * 400) as yoe eqn:Eyoe.
  assert (0 <= yoe <= 399) as Hyoe by (subst yoe era; zarith).
  assert (y' = yoe + era * 400) as Hy' by lia.
  set (leap := ((yoe + 1) mod 4 =? 0)
               && (negb ((yoe + 1) mod 100 =? 0) || ((yoe + 1) mod 400 =? 0))).
  assert (m = 1 -> leap = Date.inLeapYear y) as Hleap.
  { intros ->. subst leap y'. cbn [Z.ltb Z.compare Pos.compare Pos.compare_cont] in *.
    unfold Date.inLeapYear.
    replace ((yoe + 1) mod 4) with (y mod 4) by zarith.
    replace ((yoe + 1) mod 100) with (y mod 100) by zarith.
    replace ((yoe + 1) mod 400) with (y mod 400) by zarith.
    reflexivity. }
  set (len := if m =? 1 then 29 else Date.daysInMonth y m).
  assert (1 <= d <= len /\ (m = 1 -> leap = false -> d <= 28)) as [Hlen Hfeb].
  { subst len. unfold Date.daysInMonth in *. destruct (Z.eqb_spec m 1) as [->|Hne].
    - rewrite <- (Hleap eq_refl) in Hd. destruct leap; split; try lia;
        intros _ Hfalse; discriminate Hfalse.
    - split; [lia | intros; lia]. }
  destruct (month_of_doy mp d len) as (Hdoy & Hearly & Hshort & Hmp & Hday);
    [|exact Hlen|].
  { subst mp len. unfold Date.daysInMonth.
    assert (m = 0 \/ m = 1 \/ m = 2 \/ m = 3 \/ m = 4 \/ m = 5 \/ m = 6 \/ m = 7
            \/ m = 8 \/ m = 9 \/ m = 10 \/ m = 11) as Hcases by lia.
    repeat (destruct Hcases as [-> | Hcases]); try subst m; cbn; tauto. }
  set (doy := (153 * mp + 2) / 5 + d - 1) in *.
  assert (doy <= 364 + (if leap then 1 else 0)) as Hmax.
  { destruct (Z.eqb_spec m 1) as [->|Hne].
    - destruct leap eqn:El; [lia|]. specialize (Hfeb eq_refl eq_refl). lia.
    - assert (mp <= 10) by (subst mp; destruct (Z.ltb_spec m 2); lia).
      destruct leap; lia. }
  destruct (yoe_of_doe yoe doy Hyoe (proj1 Hdoy) Hmax) as [Hdoe Hrec].
  cbv zeta in Hdoe, Hrec.
  remember (yoe * 365 + yoe / 4 - yoe / 100 + doy) as doe eqn:Edoe.
  assert (era * 146097 + (yoe * 365 + yoe / 4 - yoe / 100 + (153 * mp + 2) / 5)
          - 719468 + d - 1 + 719468 = era * 146097 + doe) as Hz
    by (subst doe doy; lia).
  unfold Date.civilFromDay. cbv zeta. rewrite Hz.
  replace ((era * 146097 + doe) / 146097) with era by zarith.
  replace ((era * 146097 + doe) mod 146097) with doe by zarith.
  rewrite Hrec.
  replace (doe - (365 * yoe + yoe / 4 - yoe / 100)) with doy by lia.
  rewrite Hmp, Hday.
  subst mp y'. destruct (Z.ltb_spec m 2) as [Hlt|Hge].
  - rewrite (proj2 (Z.ltb_ge (m + 10) 10)) by lia.
    rewrite (proj2 (Z.ltb_lt (m + 10 - 10) 2)) by lia.
    f_equal. f_equal; lia.
  - rewrite (proj2 (Z.ltb_lt (m - 2) 10)) by lia.
    rewrite (proj2 (Z.ltb_ge (m - 2 + 2) 2)) by lia.
    f_equal. f_equal; lia.
Qed.

(** Replacing the year keeps the month, the day of the month and the time
    of day, when the month of the new year has that day. *)
Lemma withFullYear_keeps_date (t year : Z) :
  let '(y, m, d) := Date.civilFromDay (Date.Day t) in
  d <= Date.daysInMonth year m ->
  Date.civilFromDay (Date.Day (Date.withFullYear t year)) = (year, m, d)
  /\ Date.TimeWithinDay (Date.withFullYear t year) = Date.TimeWithinDay t.
Proof.
  unfold Date.withFullYear, Date.MonthFromTime, Date.DateFromTime.
  pose proof (MakeDay_civilFromDay (Date.Day t)) as H.
  destruct (Date.civilFromDay (Date.Day t)) as [[y m] d]. cbn [fst snd].
  destruct H as (_ & Hm & Hd). intros Hlen.
  assert (0 <= Date.TimeWithinDay t < Date.msPerDay) as Htw
    by (unfold Date.TimeWithinDay, Date.msPerDay; zarith).
  unfold Date.MakeDate.
  assert (Date.Day (Date.MakeDay year m d * Date.msPerDay + Date.TimeWithinDay t)
          = Date.MakeDay year m d) as ->.
  { unfold Date.Day, Date.msPerDay in *. zarith. }
  split.
  - apply civilFromDay_MakeDay; lia.
  - unfold Date.TimeWithinDay at 1. unfold Date.msPerDay in *. zarith.
Qed.

(** 29 February carries into 1 March of a year that is not a leap year. *)
Lemma withFullYear_leap_day (t year : Z) :
  Date.civilFromDay (Date.Day t) = (Date.YearFromTime t, 1, 29) ->
  Date.inLeapYear year = false ->
  Date.civilFromDay (Date.Day (Date.withFullYear t year)) = (year, 2, 1).
Proof.
  intros Hciv Hleap.
  unfold Date.withFullYear, Date.MonthFromTime, Date.DateFromTime. rewrite Hciv.
  cbn [fst snd].
  assert (0 <= Date.TimeWithinDay t < Date.msPerDay) as Htw
    by (unfold Date.TimeWithinDay, Date.msPerDay; zarith).
  unfold Date.MakeDate.
  assert (Date.Day (Date.MakeDay year 1 29 * Date.msPerDay + Date.TimeWithinDay t)
          = Date.MakeDay year 1 29) as ->.
  { unfold Date.Day, Date.msPerDay in *. zarith. }
  replace (Date.MakeDay year 1 29) with (Date.MakeDay year 2 1).
  - apply civilFromDay_MakeDay; [lia | unfold Date.daysInMonth; cbn; lia].
  - unfold Date.MakeDay, Date.dayOfMonthStart.
    change (2 / 12) with 0. change (1 / 12) with 0.
    change (2 mod 12) with 2. change (1 mod 12) with 1.
    cbn [Z.ltb Z.compare Pos.compare Pos.compare_cont]. rewrite !Z.add_0_r.
    change ((153 * (2 - 2) + 2) / 5) with 0. change ((153 * (1 + 10) + 2) / 5) with 337.
    unfold Date.inLeapYear in Hleap.
    destruct (Z.eqb_spec (year mod 4) 0); destruct (Z.eqb_spec (year mod 100) 0);
      destruct (Z.eqb_spec (year mod 400) 0); cbn [negb andb orb] in Hleap;
      try discriminate; zarith.
Qed.

End Calendar.

(* ------------------------------------------------------------------ *)
(** ** AccessControlService: age and retention *)

Section AgeAndRetention.

Import AccessControl.

(** C6: [validateStudentAge] returns, for a missing age, not compliant
    with consent required and a warning; for an age below 3, not
    compliant; for an age in [3, 13), compliant with consent required; for
    an age of 13 or more, compliant without consent; so 12 requires
    consent, 13 does not and 2 is not compliant. *)
Theorem validateStudentAge_cases :
  (compliant (validateStudentAge None) = false
   /\ requiresParentalConsent (validateStudentAge None) = true
   /\ warnings (validateStudentAge None)
      = [js "Age not provided - cannot verify COPPA compliance"])
  /\ (forall a : Z, a < 3 -> compliant (validateStudentAge (Some a)) = false)
  /\ (forall a : Z, 3 <= a < 13 ->
        compliant (validateStudentAge (Some a)) = true
        /\ requiresParentalConsent (validateStudentAge (Some a)) = true)
  /\ (forall a : Z, 13 <= a ->
        compliant (validateStudentAge (Some a)) = true
        /\ requiresParentalConsent (validateStudentAge (Some a)) = false)
  /\ (compliant (validateStudentAge (Some 12)) = true
      /\ requiresParentalConsent (validateStudentAge (Some 12)) = true)
  /\ (compliant (validateStudentAge (Some 13)) = true
      /\ requiresParentalConsent (validateStudentAge (Some 13)) = false)
  /\ compliant (validateStudentAge (Some 2)) = false.
Proof.
  split; [repeat split|]. split; [|split; [|split; [|repeat split]]].
  - intros a Ha. unfold validateStudentAge.
    destruct a as [|p|p]; [reflexivity| |];
      rewrite (proj2 (Z.ltb_lt _ 3)) by lia; reflexivity.
  - intros a Ha. unfold validateStudentAge.
    destruct a as [|p|p]; [lia| |lia].
    rewrite (proj2 (Z.ltb_ge _ 3)) by lia.
    cbn [getCOPPARequirements minimumAge].
    rewrite (proj2 (Z.ltb_lt _ 13)) by lia. split; reflexivity.
  - intros a Ha. unfold validateStudentAge.
    destruct a as [|p|p]; [lia| |lia].
    rewrite (proj2 (Z.ltb_ge _ 3)) by lia.
    cbn [getCOPPARequirements minimumAge].
    rewrite (proj2 (Z.ltb_ge _ 13)) by lia. split; reflexivity.
Qed.

(** The warning of the consent branch. *)
Example validateStudentAge_12_warning :
  warnings (validateStudentAge (Some 12))
  = [js "Student under 13 - COPPA parental consent required"].
Proof. reflexivity. Qed.

(** The calendar step of [setFullYear] is the time value of the new year
    with the month, day and time of day of the old date. *)
Lemma withFullYear_utc (t year : Z) :
  Date.withFullYear t year
  = Date.utc year (Date.MonthFromTime t) (Date.DateFromTime t) (Date.TimeWithinDay t).
Proof. reflexivity. Qed.

(** C8: in every time zone, for every data type and last activity, the
    cutoff is the last activity with the year of its local date advanced
    by N, N being 3 for student data, 2 for analytics and 7 for audit
    logs; once the current time is past the cutoff the answer is not to
    retain, with action 'anonymize' for analytics and 'delete' for student
    and audit data; until then, and when the cutoff is not a valid date,
    the answer is to retain.  The cutoff is the instant at which the local
    clock shows the same month, day and time of day N calendar years
    later, whenever that day exists in the later year. *)
Theorem shouldRetainData_policy (zone : Date.TimeZone) (now : Z)
  (dataType : DataType) (lastActivity : Z) (studentAge : option Z) :
  let years := match dataType with student => 3 | analytics => 2 | audit => 7 end in
  let cutoff :=
    Date.setFullYear zone lastActivity (Date.getFullYear zone lastActivity + years) in
  let answer := shouldRetainData zone now dataType lastActivity studentAge in
  (forall c, cutoff = Some c -> c < now ->
     retain answer = false
     /\ retentionAction answer
        = Some (match dataType with
                | analytics => js "anonymize"
                | student | audit => js "delete"
                end))
  /\ (forall c, cutoff = Some c -> now <= c ->
        retain answer = true /\ retentionAction answer = None)
  /\ (cutoff = None -> retain answer = true /\ retentionAction answer = None)
  /\ (let local := Date.LocalTime zone lastActivity in
      let '(y, m, d) := Date.civilFromDay (Date.Day local) in
      d <= Date.daysInMonth (y + years) m ->
      exists later,
        cutoff = Date.TimeClip (Date.UTC zone later)
        /\ Date.civilFromDay (Date.Day later) = (y + years, m, d)
        /\ Date.TimeWithinDay later = Date.TimeWithinDay local).
Proof.
  cbv zeta. unfold shouldRetainData, retentionDate.
  replace (retentionYears dataType)
    with (match dataType with student => 3 | analytics => 2 | audit => 7 end)
    by (now destruct dataType).
  split; [|split; [|split]].
  - intros c -> H. cbn [isAfter]. rewrite (proj2 (Z.ltb_lt _ _) H).
    now destruct dataType.
  - intros c -> H. cbn [isAfter]. rewrite (proj2 (Z.ltb_ge _ _) H).
    split; reflexivity.
  - intros ->. split; reflexivity.
  - pose proof (withFullYear_keeps_date (Date.LocalTime zone lastActivity)
                  (Date.getFullYear zone lastActivity
                   + match dataType with student => 3 | analytics => 2 | audit => 7 end))
      as H.
    unfold Date.getFullYear, Date.YearFromTime in *.
    destruct (Date.civilFromDay (Date.Day (Date.LocalTime zone lastActivity)))
      as [[y m] d] eqn:Hciv.
    cbn [fst] in *. intros Hd. eexists. split; [reflexivity | exact (H Hd)].
Qed.

(** The boundary cases of the retention policy, on 1 November 2026 at
    noon, in UTC: a last activity three years and a day before is past its
    cutoff, one of two years before is not. *)
Example shouldRetainData_boundary :
  let now := Date.utc 2026 10 1 43200000 in
  (let answer :=
     shouldRetainData Date.utcZone now student (Date.utc 2023 9 31 43200000) None in
   retain answer = false /\ retentionAction answer = Some (js "delete")
   /\ retentionReason answer = js "Data older than 3 years")
  /\ (let answer :=
        shouldRetainData Date.utcZone now student (Date.utc 2024 10 1 43200000) None in
      retain answer = true /\ retentionAction answer = None
      /\ retentionReason answer = js "Within 3 year retention period").
Proof. repeat split. Qed.

(** Adding years keeps the calendar day, and carries 29 February into
    1 March of a year that is not a leap year; the calendar day is the
    local one: five hours west of UTC, 1 March 2024 at 02:00 UTC is still
    29 February. *)
Example setFullYear_examples :
  Date.setFullYear Date.utcZone (Date.utc 2023 9 31 1234) 2026
  = Some (Date.utc 2026 9 31 1234)
  /\ Date.setFullYear Date.utcZone (Date.utc 2024 1 29 0) 2027
     = Some (Date.utc 2027 2 1 0)
  /\ Date.setFullYear Date.utcZone (Date.utc 2024 1 29 0) 2028
     = Some (Date.utc 2028 1 29 0)
  /\ Date.setFullYear Date.utcZone (Date.utc 2024 2 1 7200000) 2027
     = Some (Date.utc 2027 2 1 7200000)
  /\ Date.setFullYear (Date.fixedZone (-18000000)) (Date.utc 2024 2 1 7200000) 2027
     = Some (Date.utc 2027 2 2 7200000)
  /\ Date.setFullYear Date.utcZone 8640000000000000 275761 = None.
Proof. repeat split. Qed.

(** The answer depends on the time zone of the process: for a last
    activity on 1 March 2024 at 02:00 UTC and a request on 1 March 2027 at
    noon UTC, student data is past its cutoff in UTC and not yet five hours
    west of it. *)
Example shouldRetainData_by_zone :
  let lastActivity := Date.utc 2024 2 1 7200000 in
  let now := Date.utc 2027 2 1 43200000 in
  lastActivity = 1709258400000
  /\ retain (shouldRetainData Date.utcZone now student lastActivity None) = false
  /\ retain (shouldRetainData (Date.fixedZone (-18000000)) now student lastActivity None)
     = true.
Proof. repeat split. Qed.

End AgeAndRetention.

(* ------------------------------------------------------------------ *)
(** ** Code generation *)

Lemma inCharset_In (charset : jsstring) (c : Z) :
  Students.inCharset charset c = true <-> In c charset.
Proof.
  unfold Students.inCharset. rewrite existsb_exists. split.
  - intros [x [Hin Heq]]. apply Z.eqb_eq in Heq. now subst.
  - intros Hin. exists c. split; [assumption | apply Z.eqb_refl].
Qed.

(** Membership in a literal character set, decided by computation. *)
Ltac inCharset := apply inCharset_In; reflexivity.

Section CodeGeneration.

Lemma charAt_in (chars : jsstring) (i : Z) :
  0 <= i < Z.of_nat (List.length chars) ->
  exists c, Security.charAt chars i = [c] /\ In c chars.
Proof.
  intros Hi. unfold Security.charAt.
  destruct (nth_error chars (Z.to_nat i)) as [c|] eqn:E.
  - exists c. split; [reflexivity|]. now apply nth_error_In in E.
  - apply nth_error_None in E. lia.
Qed.

(** The [for] loop of the student generator appends [rounds] units of the
    alphabet. *)
Lemma appendRandomChars_returns (rounds : nat) (result : jsstring) (tape : Tape) :
  exists added tape',
    Students.appendRandomChars rounds result tape = (Returned (result ++ added), tape')
    /\ List.length added = rounds
    /\ Forall (fun c => In c Students.chars) added.
Proof.
  revert result tape. induction rounds as [|rounds IH]; intros result tape.
  - exists [], tape. rewrite app_nil_r. repeat split. constructor.
  - cbn [Students.appendRandomChars]. unfold bind at 1. unfold randomBelow, bind, draw, ret.
    destruct (charAt_in Students.chars (tape 0%nat mod Z.of_nat (List.length Students.chars)))
      as (c & Hc & Hin).
    { apply Z.mod_pos_bound. reflexivity. }
    rewrite Hc.
    destruct (IH (result ++ [c]) (fun n => tape (S n))) as (added & tape' & Hrun & Hlen & Hall).
    rewrite Hrun. exists (c :: added), tape'.
    rewrite <- app_assoc. repeat split; [simpl; now rewrite Hlen|].
    now constructor.
Qed.

Lemma letterChars_in_chars (c : Z) : In c Students.letterChars -> In c Students.chars.
Proof.
  intros H. unfold Students.letterChars, js in H. simpl in H.
  repeat (destruct H as [<- | H]; [inCharset|]). contradiction.
Qed.

Lemma chars_in_class (c : Z) : In c Students.chars -> inCodeClass c = true.
Proof.
  intros H. unfold Students.chars, js in H. simpl in H.
  repeat (destruct H as [<- | H]; [reflexivity|]). contradiction.
Qed.

Lemma letterChars_not_digit (c : Z) :
  In c Students.letterChars -> (48 <=? c) && (c <=? 57) = false.
Proof.
  intros H. unfold Students.letterChars, js in H. simpl in H.
  repeat (destruct H as [<- | H]; [reflexivity|]). contradiction.
Qed.

(** A student code of a valid length: that many units of the alphabet,
    the first of them a letter. *)
Lemma generateStudentCode_returns (len : nat) (tape : Tape) :
  (3 <= len <= 6)%nat ->
  exists code tape',
    Students.generateStudentCode len tape = (Returned code, tape')
    /\ List.length code = len
    /\ Forall (fun c => In c alphabet) code
    /\ (exists c rest, code = c :: rest /\ In c Students.letterChars).
Proof.
  intros Hlen. unfold Students.generateStudentCode.
  replace ((len <? 3)%nat || (6 <? len)%nat) with false
    by (symmetry; apply orb_false_iff; split; apply Nat.ltb_ge; lia).
  unfold bind at 1.
  destruct (appendRandomChars_returns len [] tape) as (code & tape1 & Hrun & Hcl & Hall).
  rewrite Hrun. cbn [app].
  destruct code as [|c rest]; [simpl in Hcl; lia|].
  destruct (Students.startsWithDigit (c :: rest)) eqn:Hdigit.
  - unfold randomBelow, bind, draw, ret.
    destruct (charAt_in Students.letterChars
                (tape1 0%nat mod Z.of_nat (List.length Students.letterChars)))
      as (l & Hl & Hin).
    { apply Z.mod_pos_bound. reflexivity. }
    rewrite Hl. cbn [tl app]. eexists _, _. split; [reflexivity|].
    split; [exact Hcl|]. split.
    + inversion Hall; subst. constructor; [|assumption].
      now apply letterChars_in_chars.
    + now exists l, rest.
  - unfold ret. eexists _, _. split; [reflexivity|]. split; [exact Hcl|].
    split; [exact Hall|]. exists c, rest. split; [reflexivity|].
    inversion Hall as [|? ? Hc _]; subst. cbn [Students.startsWithDigit] in Hdigit.
    unfold Students.chars, js in Hc. simpl in Hc.
    repeat (destruct Hc as [<- | Hc]; [first [discriminate Hdigit | inCharset]|]).
    contradiction.
Qed.

(** A string of 3 to 6 units of the alphabet matches
    [^[A-HJ-NP-Z2-9][A-HJ-NP-Z2-9]{2,5}$] and [validateStudentCodeFormat]. *)
Lemma alphabet_matches_patterns (code : jsstring) :
  (3 <= List.length code <= 6)%nat ->
  Forall (fun c => In c alphabet) code ->
  matchesStudentPattern code = true
  /\ Students.validateStudentCodeFormat code = true.
Proof.
  intros Hlen Hall.
  unfold matchesStudentPattern, Students.validateStudentCodeFormat.
  replace ((3 <=? List.length code)%nat) with true by (symmetry; apply Nat.leb_le; lia).
  replace ((List.length code <=? 6)%nat) with true by (symmetry; apply Nat.leb_le; lia).
  rewrite !andb_true_r. rewrite Forall_forall in Hall. split.
  - apply forallb_forall. intros x Hx. apply chars_in_class. now apply Hall.
  - apply forallb_forall. intros x Hx. apply inCharset_In. now apply Hall.
Qed.

Lemma defaultCharset_in_class (c : Z) :
  In c Security.defaultCharset -> inCodeClass c = true.
Proof.
  intros H. unfold Security.defaultCharset, js in H. simpl in H.
  repeat (destruct H as [<- | H]; [reflexivity|]). contradiction.
Qed.

Lemma flat_map_charAt (chars : jsstring) (buf : list byte) :
  chars <> [] ->
  let out := flat_map
               (fun b => Security.charAt chars
                           (byteVal b mod Z.of_nat (List.length chars))) buf in
  List.length out = List.length buf /\ Forall (fun c => In c chars) out.
Proof.
  intros Hne. induction buf as [|b buf [IHlen IHall]]; [split; [reflexivity|constructor]|].
  cbn [flat_map].
  destruct (charAt_in chars (byteVal b mod Z.of_nat (List.length chars)))
    as (c & Hc & Hin).
  { apply Z.mod_pos_bound. destruct chars; [congruence | simpl; lia]. }
  rewrite Hc. cbn [app List.length]. split; [now rewrite IHlen | now constructor].
Qed.

(** [randomBytes] accepts a size up to 2^31 - 1. *)
Lemma randomBytesChecked_accepts (size : nat) (tape : Tape) :
  Z.of_nat size <= maxRandomSize ->
  randomBytesChecked size tape = randomBytes size tape.
Proof.
  intros H. unfold randomBytesChecked.
  now replace (Z.of_nat size <=? maxRandomSize) with true
    by (symmetry; now apply Z.leb_le).
Qed.

(** [generateSecureRandom] with the default character set, for a length
    that a string can have: [len] units of that set. *)
Lemma generateSecureRandom_returns (len : nat) (tape : Tape) :
  Z.of_nat len <= maxStringLength ->
  exists code tape',
    Security.generateSecureRandom len None tape = (Returned code, tape')
    /\ List.length code = len
    /\ Forall (fun c => In c Security.defaultCharset) code.
Proof.
  intros Hsize. change maxStringLength with 536870888 in Hsize.
  unfold Security.generateSecureRandom, bind.
  rewrite randomBytesChecked_accepts
    by (change maxRandomSize with 2147483647; lia).
  destruct (randomBytes_returns (len * 2) tape) as (buf & tape' & Hrun & Hlen).
  rewrite Hrun.
  destruct (flat_map_charAt Security.defaultCharset (firstn len buf)) as [Hl Hall];
    [discriminate|].
  assert (List.length (firstn len buf) = len) as Hfirst
    by (rewrite length_firstn; lia).
  rewrite Hl, Hfirst.
  replace (Z.of_nat len <=? maxStringLength) with true
    by (symmetry; apply Z.leb_le; change maxStringLength with 536870888; lia).
  unfold ret. eexists _, tape'. split; [reflexivity|].
  split; [|exact Hall]. now rewrite Hl.
Qed.

(** Every device code has 6 to 8 units of the default character set. *)
Lemma generateDeviceCode_returns (tape : Tape) :
  exists code tape',
    Security.generateDeviceCode tape = (Returned code, tape')
    /\ (6 <= List.length code <= 8)%nat
    /\ Forall (fun c => In c Security.defaultCharset) code.
Proof.
  unfold Security.generateDeviceCode, bind at 1. unfold randomBelow, bind, draw, ret.
  pose proof (Z.mod_pos_bound (tape 0%nat) 3 eq_refl) as Hr.
  destruct (generateSecureRandom_returns (6 + Z.to_nat (tape 0%nat mod 3))
              (fun n => tape (S n))) as (code & tape' & Hrun & Hlen & Hall).
  { change maxStringLength with 536870888. lia. }
  rewrite Hrun. exists code, tape'. split; [reflexivity|].
  split; [lia | exact Hall].
Qed.

(** C4, where the code departs from it: the default character set of
    [generateSecureRandom] contains L, which the unambiguous alphabet
    excludes; a device code can therefore contain it, and the service's own
    [validateDeviceCodeFormat] then rejects the code it generated. *)
Theorem device_code_outside_alphabet :
  exists tape',
    Security.generateDeviceCode (tapeOf [0; 10]) = (Returned (js "LAAAAA"), tape')
    /\ ~ Forall (fun c => In c alphabet) (js "LAAAAA")
    /\ Devices.validateDeviceCodeFormat (js "LAAAAA") = false
    /\ (forall w : World,
          fst (Devices.validateDeviceCode (js "LAAAAA") w) = Returned None).
Proof.
  eexists. split; [reflexivity|]. split; [|split; [reflexivity|reflexivity]].
  intros H. inversion H as [|? ? Hin _]; subst.
  apply inCharset_In in Hin. discriminate.
Qed.

End CodeGeneration.

(* ------------------------------------------------------------------ *)
(** ** Unique codes *)

Section UniqueCodes.

Lemma find_code_None {A : Type} (f : A -> jsstring) (l : list A) (code : jsstring) :
  find (fun x => strEq (f x) code) l = None <-> ~ In code (map f l).
Proof.
  induction l as [|x l IH]; simpl; [tauto|].
  destruct (strEq (f x) code) eqn:E.
  - apply strEq_eq in E. split; [discriminate | tauto].
  - apply strEq_neq in E. rewrite IH. tauto.
Qed.

(** C5 for student codes: the candidate generated after [attempts]
    collisions has 4 units, 5 from the fifth collision on and 6 from the
    tenth; together with C3's bounds on the student loop.  [attempts] and
    [codeLength] are the loop's variables at the start of a round. *)
Lemma uniqueStudentCodeLoop_run (remaining attempts : nat) (w : World) :
  let '(r, w') :=
    Students.uniqueStudentCodeLoop remaining attempts (studentCodeLength attempts) w in
  students w' = students w
  /\ match r with
     | Returned code =>
         ~ In code (studentCodes w)
         /\ exists collisions,
             (collisions < remaining)%nat
             /\ codeLookups w' = (codeLookups w + collisions + 1)%nat
             /\ List.length code = studentCodeLength (attempts + collisions)
             /\ matchesStudentPattern code = true
     | Thrown e =>
         e = Error (js "Unable to generate unique student code after 15 attempts")
         /\ codeLookups w' = (codeLookups w + remaining)%nat
     end.
Proof.
  revert attempts w. induction remaining as [|remaining IH]; intros attempts w.
  - cbn [Students.uniqueStudentCodeLoop]. unfold throw.
    split; [reflexivity|]. split; [reflexivity | lia].
  - cbn [Students.uniqueStudentCodeLoop]. unfold bind at 1. unfold random, zoom.
    assert (3 <= studentCodeLength attempts <= 6)%nat as Hvalid.
    { unfold studentCodeLength.
      destruct (attempts <? 5)%nat; [lia|]. destruct (attempts <? 10)%nat; lia. }
    destruct (generateStudentCode_returns (studentCodeLength attempts) (rng w) Hvalid)
      as (code & tape' & Hgen & Hlen & Hall & _).
    assert (matchesStudentPattern code = true) as Hpat
      by (apply alphabet_matches_patterns; [now rewrite Hlen | exact Hall]).
    clear Hvalid Hall.
    rewrite Hgen. unfold bind at 1. unfold Students.findByCode.
    cbn [students setRng countLookup].
    destruct (find (fun s => strEq (Student.studentCode s) code) (students w)) eqn:Hfind.
    + (* collision *)
      set (w1 := countLookup (setRng tape' w)).
      assert ((if (S attempts =? 5)%nat then 5%nat
               else if (S attempts =? 10)%nat then 6%nat
               else studentCodeLength attempts)
              = studentCodeLength (S attempts)) as Hnext.
      { unfold studentCodeLength.
        destruct (Nat.eqb_spec (S attempts) 5) as [->|H5]; [reflexivity|].
        destruct (Nat.eqb_spec (S attempts) 10) as [->|H10]; [reflexivity|].
        destruct (Nat.ltb_spec attempts 5), (Nat.ltb_spec (S attempts) 5);
          destruct (Nat.ltb_spec attempts 10), (Nat.ltb_spec (S attempts) 10);
          reflexivity || lia. }
      rewrite Hnext. unfold bind.
      set (w2 := snd ((if (3 <? S attempts)%nat
                       then sleep (10 * Z.of_nat (S attempts)) else ret tt) w1)).
      assert ((if (3 <? S attempts)%nat
               then sleep (10 * Z.of_nat (S attempts)) else ret tt) w1
              = (Returned tt, w2)) as Hsleep
        by (subst w2; now destruct (3 <? S attempts)%nat).
      rewrite Hsleep.
      assert (students w2 = students w /\ codeLookups w2 = S (codeLookups w)) as [Hs Hc]
        by (subst w2 w1; now destruct (3 <? S attempts)%nat).
      clear Hsleep. clearbody w2. clear w1.
      specialize (IH (S attempts) w2).
      destruct (Students.uniqueStudentCodeLoop remaining (S attempts)
                  (studentCodeLength (S attempts)) w2) as [r w'].
      destruct IH as [Hst IH]. split; [congruence|].
      destruct r as [code'|e].
      * destruct IH as [Hfresh (k & Hk & Hlook & Hl & Hp)].
        split; [unfold studentCodes in *; congruence|].
        exists (S k). repeat split; try assumption; try lia.
        now rewrite Nat.add_succ_r.
      * destruct IH as [He Hlook]. split; [assumption | lia].
    + (* fresh *)
      unfold ret. cbn [students setRng countLookup codeLookups].
      split; [reflexivity|]. split.
      * unfold studentCodes. now apply find_code_None.
      * exists 0%nat. rewrite !Nat.add_0_r. repeat split; try assumption; lia.
Qed.

(** The device loop: the same bounds, whatever [codeLength] holds. *)
Lemma uniqueDeviceCodeLoop_run (remaining attempts codeLength : nat) (w : World) :
  let '(r, w') := Devices.uniqueDeviceCodeLoop remaining attempts codeLength w in
  devices w' = devices w
  /\ match r with
     | Returned code =>
         ~ In code (deviceCodes w)
         /\ exists collisions,
             (collisions < remaining)%nat
             /\ codeLookups w' = (codeLookups w + collisions + 1)%nat
             /\ (6 <= List.length code <= 8)%nat
     | Thrown e =>
         e = Error (js "Unable to generate unique device code after 15 attempts")
         /\ codeLookups w' = (codeLookups w + remaining)%nat
     end.
Proof.
  revert attempts codeLength w.
  induction remaining as [|remaining IH]; intros attempts codeLength w.
  - cbn [Devices.uniqueDeviceCodeLoop]. unfold throw.
    split; [reflexivity|]. split; [reflexivity | lia].
  - cbn [Devices.uniqueDeviceCodeLoop]. unfold bind at 1. unfold random, zoom.
    destruct (generateDeviceCode_returns (rng w)) as (code & tape' & Hgen & Hlen & _).
    unfold Devices.generateDeviceCode. rewrite Hgen.
    unfold bind at 1. unfold Devices.findByCode. cbn [devices setRng countLookup].
    destruct (find (fun d => strEq (Device.deviceCode d) code) (devices w)) eqn:Hfind.
    + (* collision *)
      set (w1 := countLookup (setRng tape' w)).
      set (codeLength' := if (S attempts =? 5)%nat then 7%nat
                          else if (S attempts =? 10)%nat then 8%nat
                          else codeLength).
      unfold bind.
      set (w2 := snd ((if (3 <? S attempts)%nat
                       then sleep (10 * Z.of_nat (S attempts)) else ret tt) w1)).
      assert ((if (3 <? S attempts)%nat
               then sleep (10 * Z.of_nat (S attempts)) else ret tt) w1
              = (Returned tt, w2)) as Hsleep
        by (subst w2; now destruct (3 <? S attempts)%nat).
      rewrite Hsleep.
      assert (devices w2 = devices w /\ codeLookups w2 = S (codeLookups w)) as [Hs Hc]
        by (subst w2 w1; now destruct (3 <? S attempts)%nat).
      clear Hsleep. clearbody w2 codeLength'. clear w1.
      specialize (IH (S attempts) codeLength' w2).
      destruct (Devices.uniqueDeviceCodeLoop remaining (S attempts) codeLength' w2)
        as [r w'].
      destruct IH as [Hst IH]. split; [congruence|].
      destruct r as [code'|e].
      * destruct IH as [Hfresh (k & Hk & Hlook & Hl)].
        split; [unfold deviceCodes in *; congruence|].
        exists (S k). repeat split; try assumption; lia.
      * destruct IH as [He Hlook]. split; [assumption | lia].
    + (* fresh *)
      unfold ret. cbn [devices setRng countLookup codeLookups].
      split; [reflexivity|]. split.
      * unfold deviceCodes. now apply find_code_None.
      * exists 0%nat. rewrite !Nat.add_0_r. repeat split; try assumption; lia.
Qed.

(** C3: whatever the storage holds, [generateUniqueStudentCode] and
    [generateUniqueDeviceCode] never return a code that is stored; each
    call returns after at most 15 generated candidates, or throws 'Unable
    to generate unique ... code after 15 attempts' after exactly 15. *)
Theorem unique_codes_fresh_and_bounded (hubId : option jsstring) (w : World) :
  (let '(r, w') := Students.generateUniqueStudentCode hubId w in
   match r with
   | Returned code =>
       ~ In code (studentCodes w)
       /\ (1 <= codeLookups w' - codeLookups w <= 15)%nat
   | Thrown e =>
       e = Error (js "Unable to generate unique student code after 15 attempts")
       /\ (codeLookups w' - codeLookups w = 15)%nat
   end)
  /\ (let '(r, w') := Devices.generateUniqueDeviceCode hubId w in
      match r with
      | Returned code =>
          ~ In code (deviceCodes w)
          /\ (1 <= codeLookups w' - codeLookups w <= 15)%nat
      | Thrown e =>
          e = Error (js "Unable to generate unique device code after 15 attempts")
          /\ (codeLookups w' - codeLookups w = 15)%nat
      end).
Proof.
  split.
  - unfold Students.generateUniqueStudentCode.
    pose proof (uniqueStudentCodeLoop_run Students.maxAttempts 0 w) as H.
    change (studentCodeLength 0) with 4%nat in H.
    destruct (Students.uniqueStudentCodeLoop Students.maxAttempts 0 4 w) as [[code|e] w'].
    + destruct H as [_ [Hfresh (k & Hk & Hlook & _)]].
      split; [assumption|]. unfold Students.maxAttempts in Hk. lia.
    + destruct H as [_ [He Hlook]]. split; [assumption|].
      unfold Students.maxAttempts in Hlook. lia.
  - unfold Devices.generateUniqueDeviceCode.
    pose proof (uniqueDeviceCodeLoop_run Devices.maxAttempts 0 6 w) as H.
    destruct (Devices.uniqueDeviceCodeLoop Devices.maxAttempts 0 6 w) as [[code|e] w'].
    + destruct H as [_ [Hfresh (k & Hk & Hlook & _)]].
      split; [assumption|]. unfold Devices.maxAttempts in Hk. lia.
    + destruct H as [_ [He Hlook]]. split; [assumption|].
      unfold Devices.maxAttempts in Hlook. lia.
Qed.

(** C5, where the code departs from it: the device loop assigns
    [codeLength] 7 and 8 but generates its candidates without it.  With one
    stored code AAAAAA and a tape that repeats it seven times, the eighth
    candidate, generated after seven collisions, still has six units. *)
Theorem device_code_length_not_increased :
  let w :=
    {| students := []; edgeHubs := [];
       devices := [ {| Device.id := js "d1"; Device.hubId := js "HUB-1";
                       Device.deviceCode := js "AAAAAA";
                       Device.status := js "pending" |} ];
       auditLogs := []; rng := tapeOf (repeat 0 92 ++ [1]); now := 0;
       codeLookups := 0 |} in
  fst (Devices.generateUniqueDeviceCode None w) = Returned (js "BAAAAA")
  /\ codeLookups (snd (Devices.generateUniqueDeviceCode None w)) = 8%nat
  /\ List.length (js "BAAAAA") = 6%nat.
Proof.
  cbv zeta. split; [|split]; vm_compute; reflexivity.
Qed.

End UniqueCodes.

(* ------------------------------------------------------------------ *)
(** ** StudentsService: age validation *)

Section AgeValidation.

Variable cipher : AesGcm.
Variable key : list byte.

(** The ORM's choice of [updatedAt] on [save]. *)
Variable stamp : World -> Student.t -> Z.

Lemma checkAccess_decision (S : Type) (st : S)
  (context : option AccessControl.AccessContext) (res act : jsstring)
  (resourceId : option jsstring) :
  AccessControl.checkAccess context res act resourceId st
  = (Returned (decision context res act resourceId), st).
Proof.
  unfold decision, AccessControl.checkAccess, tryCatch, AccessControl.evaluateAccess.
  destruct (AccessControl.findRule res act) as [rule|]; [|reflexivity].
  destruct context as [ctx|]; [|reflexivity].
  cbn [AccessControl.readContext]. unfold bind, ret.
  destruct (negb _); [reflexivity|].
  destruct (match AccessControl.permissions ctx with Some _ => _ | None => _ end);
    [reflexivity|].
  now destruct (_ && _).
Qed.

(** [enforceAccess] returns when access is granted and throws otherwise;
    the state is untouched. *)
Lemma enforceAccess_run (S : Type) (st : S) (ctx : AccessControl.AccessContext)
  (res act : jsstring) (resourceId : option jsstring) :
  (accessGranted ctx res act resourceId ->
   exists flags,
     AccessControl.enforceAccess (Some ctx) res act resourceId st = (Returned flags, st))
  /\ (~ accessGranted ctx res act resourceId ->
      exists msg,
        AccessControl.enforceAccess (Some ctx) res act resourceId st
        = (Thrown (ForbiddenException msg), st)).
Proof.
  unfold accessGranted, AccessControl.enforceAccess, bind.
  rewrite checkAccess_decision.
  destruct (AccessControl.allowed (decision (Some ctx) res act resourceId));
    cbn [negb]; split; intros H; try congruence.
  - eexists. reflexivity.
  - cbn [AccessControl.readContext]. unfold ret, throw. eexists. reflexivity.
Qed.

(** Writing an audit entry touches neither the students nor the hubs. *)
Lemma logStudentDataAccess_run (ctx : AccessControl.AccessContext)
  (params : AuditLogger.StudentAccess) (w : World) :
  exists w',
    AuditLogger.logStudentDataAccess ctx params w = (Returned tt, w')
    /\ students w' = students w /\ edgeHubs w' = edgeHubs w.
Proof.
  unfold AuditLogger.logStudentDataAccess, AuditLogger.logEvent,
    AuditLogger.generateId, bind, get, random, zoom, randomBelow, bind, draw, ret,
    modify.
  eexists. split; [reflexivity|]. split; reflexivity.
Qed.

Lemma find_hub_Some (hubId : jsstring) (w : World) :
  In hubId (hubIds w) ->
  exists hub, find (fun h => strEq (EdgeHub.hubId h) hubId) (edgeHubs w) = Some hub.
Proof.
  intros Hin.
  destruct (find (fun h => strEq (EdgeHub.hubId h) hubId) (edgeHubs w)) as [hub|] eqn:E.
  - now exists hub.
  - apply find_code_None in E. contradiction.
Qed.

(** The failure branch that both methods share: log, then rethrow. *)
Lemma log_and_rethrow (ctx : AccessControl.AccessContext)
  (params : AuditLogger.StudentAccess) (e : Exn) (w : World) :
  exists w',
    bind (AuditLogger.logStudentDataAccess ctx params) (fun _ => throw e) w
    = (@Thrown Student.t e, w')
    /\ students w' = students w /\ edgeHubs w' = edgeHubs w.
Proof.
  destruct (logStudentDataAccess_run ctx params w) as (w' & Hlog & Hs & Hh).
  exists w'. unfold bind. rewrite Hlog. now split.
Qed.

Lemma createStudent_rejects (hubId : jsstring) (data : Students.StudentData)
  (ctx : AccessControl.AccessContext) (w : World) :
  Students.ageOutOfRange (Students.age data) = true ->
  let '(r, w') := Students.createStudent cipher key hubId data ctx w in
  students w' = students w
  /\ (exists e, r = Thrown e)
  /\ (accessGranted (Students.withHub ctx hubId) (js "student") (js "create") None ->
      In hubId (hubIds w) ->
      r = Thrown invalidAge).
Proof.
  intros Hage. unfold Students.createStudent, tryCatch.
  unfold bind at 1.
  destruct (enforceAccess_run World w (Students.withHub ctx hubId)
              (js "student") (js "create") None) as [Hyes Hno].
  destruct (AccessControl.allowed
              (decision (Some (Students.withHub ctx hubId)) (js "student")
                 (js "create") None)) eqn:Hallowed.
  - destruct (Hyes Hallowed) as (flags & ->). unfold bind at 1. unfold get at 1.
    destruct (find (fun h => strEq (EdgeHub.hubId h) hubId) (edgeHubs w)) as [hub|] eqn:Hhub.
    + rewrite Hage. fold invalidAge.
      destruct (log_and_rethrow (Students.withHub ctx hubId)
                  (Students.failure (js "create") (js "unknown") hubId
                     (js "Invalid age provided")) invalidAge w)
        as (w1 & -> & Hs1 & _).
      destruct (log_and_rethrow ctx
                  (Students.failure (js "create") (js "unknown") hubId
                     (message invalidAge)) invalidAge w1)
        as (w2 & -> & Hs2 & _).
      split; [congruence|]. split; [now exists invalidAge | reflexivity].
    + destruct (log_and_rethrow (Students.withHub ctx hubId)
                  (Students.failure (js "create") (js "unknown") hubId
                     (js "Hub not found"))
                  (NotFoundException (js "Hub not found")) w)
        as (w1 & -> & Hs1 & _).
      destruct (log_and_rethrow ctx
                  (Students.failure (js "create") (js "unknown") hubId
                     (message (NotFoundException (js "Hub not found"))))
                  (NotFoundException (js "Hub not found")) w1)
        as (w2 & -> & Hs2 & _).
      split; [congruence|]. split; [now eexists|].
      intros _ Hin. apply find_hub_Some in Hin as [hub Hfound]. congruence.
  - destruct Hno as (msg & ->); [unfold accessGranted; congruence|].
    destruct (log_and_rethrow ctx
                (Students.failure (js "create") (js "unknown") hubId
                   (message (ForbiddenException msg)))
                (ForbiddenException msg) w)
      as (w2 & -> & Hs2 & _).
    split; [congruence|]. split; [now eexists|].
    unfold accessGranted. congruence.
Qed.

Lemma updateStudent_rejects (studentId : jsstring) (data : Students.StudentData)
  (ctx : AccessControl.AccessContext) (w : World) :
  Students.ageOutOfRange (Students.age data) = true ->
  let '(r, w') := Students.updateStudent cipher key stamp studentId data ctx w in
  students w' = students w
  /\ (exists e, r = Thrown e)
  /\ (forall student,
        find (fun s => strEq (Student.id s) studentId) (students w) = Some student ->
        accessGranted (Students.withHub ctx (Student.hubId student))
          (js "student") (js "update") (Some studentId) ->
        r = Thrown invalidAge).
Proof.
  intros Hage. unfold Students.updateStudent, tryCatch.
  unfold bind at 1. unfold get at 1.
  destruct (find (fun s => strEq (Student.id s) studentId) (students w))
    as [student|] eqn:Hfind.
  - unfold bind at 1.
    destruct (enforceAccess_run World w (Students.withHub ctx (Student.hubId student))
                (js "student") (js "update") (Some studentId)) as [Hyes Hno].
    destruct (AccessControl.allowed
                (decision (Some (Students.withHub ctx (Student.hubId student)))
                   (js "student") (js "update") (Some studentId))) eqn:Hallowed.
    + destruct (Hyes Hallowed) as (flags & ->). rewrite Hage. fold invalidAge.
      destruct (log_and_rethrow (Students.withHub ctx (Student.hubId student))
                  (Students.failure (js "update") studentId (Student.hubId student)
                     (js "Invalid age provided")) invalidAge w)
        as (w1 & -> & Hs1 & _).
      destruct (log_and_rethrow ctx
                  (Students.failure (js "update") studentId (js "unknown")
                     (message invalidAge)) invalidAge w1)
        as (w2 & -> & Hs2 & _).
      split; [congruence|]. split; [now exists invalidAge | reflexivity].
    + destruct Hno as (msg & ->); [unfold accessGranted; congruence|].
      destruct (log_and_rethrow ctx
                  (Students.failure (js "update") studentId (js "unknown")
                     (message (ForbiddenException msg)))
                  (ForbiddenException msg) w)
        as (w2 & -> & Hs2 & _).
      split; [congruence|]. split; [now eexists|].
      intros student' [= <-]. unfold accessGranted. congruence.
  - unfold throw at 1.
    destruct (log_and_rethrow ctx
                (Students.failure (js "update") studentId (js "unknown")
                   (message (NotFoundException (js "Student not found"))))
                (NotFoundException (js "Student not found")) w)
      as (w2 & -> & Hs2 & _).
    split; [congruence|]. split; [now eexists | discriminate].
Qed.

(** C9, as amended: for every provided age outside [3, 18], [createStudent]
    and [updateStudent] throw and leave every student record as it was; and
    when the caller is granted access and the hub (the student, for an
    update) exists, what they throw is BadRequestException('Student age
    must be between 3 and 18'). *)
Theorem out_of_range_age_rejected (a : Z) (data : Students.StudentData)
  (ctx : AccessControl.AccessContext) (w : World)
  (hubId studentId : jsstring) :
  Students.age data = Some a -> a < 3 \/ 18 < a ->
  (let '(r, w') := Students.createStudent cipher key hubId data ctx w in
   students w' = students w
   /\ (exists e, r = Thrown e)
   /\ (accessGranted (Students.withHub ctx hubId) (js "student") (js "create") None ->
       In hubId (hubIds w) ->
       r = Thrown invalidAge))
  /\ (let '(r, w') := Students.updateStudent cipher key stamp studentId data ctx w in
      students w' = students w
      /\ (exists e, r = Thrown e)
      /\ (forall student,
            find (fun s => strEq (Student.id s) studentId) (students w) = Some student ->
            accessGranted (Students.withHub ctx (Student.hubId student))
              (js "student") (js "update") (Some studentId) ->
            r = Thrown invalidAge)).
Proof.
  intros Ha Hrange.
  assert (Students.ageOutOfRange (Students.age data) = true) as Hage.
  { rewrite Ha. cbn [Students.ageOutOfRange]. apply orb_true_iff.
    destruct Hrange; [left; now apply Z.ltb_lt | right; now apply Z.ltb_lt]. }
  split; [now apply createStudent_rejects | now apply updateStudent_rejects].
Qed.

End AgeValidation.

(** An age of 19, the system context, the hub and the student of the
    sample world: both methods throw the age error. *)
Lemma out_of_range_age_witness :
  (let '(r, w') :=
     Students.createStudent ChecksumCipher.cipher [] (js "HUB-1")
       (Sample.ageOnly 19) Students.defaultContext Sample.world in
   students w' = students Sample.world
   /\ (exists e, r = Thrown e)
   /\ (accessGranted (Students.withHub Students.defaultContext (js "HUB-1"))
         (js "student") (js "create") None ->
       In (js "HUB-1") (hubIds Sample.world) ->
       r = Thrown invalidAge))
  /\ (let '(r, w') :=
        Students.updateStudent ChecksumCipher.cipher [] Sample.clockStamp (js "s-1")
          (Sample.ageOnly 19) Students.defaultContext Sample.world in
      students w' = students Sample.world
      /\ (exists e, r = Thrown e)
      /\ (forall student,
            find (fun s => strEq (Student.id s) (js "s-1")) (students Sample.world)
            = Some student ->
            accessGranted (Students.withHub Students.defaultContext (Student.hubId student))
              (js "student") (js "update") (Some (js "s-1")) ->
            r = Thrown invalidAge)).
Proof.
  exact (out_of_range_age_rejected ChecksumCipher.cipher [] Sample.clockStamp
           19 (Sample.ageOnly 19)
           Students.defaultContext Sample.world (js "HUB-1") (js "s-1")
           eq_refl (or_intror eq_refl)).
Defined.

(** On the sample world the guards are passed and the age error is what
    both methods throw. *)
Example out_of_range_age_sample :
  fst (Students.createStudent ChecksumCipher.cipher [] (js "HUB-1")
         (Sample.ageOnly 19) Students.defaultContext Sample.world)
  = Thrown invalidAge
  /\ fst (Students.updateStudent ChecksumCipher.cipher [] Sample.clockStamp (js "s-1")
            (Sample.ageOnly 2) Students.defaultContext Sample.world)
     = Thrown invalidAge.
Proof. split; vm_compute; reflexivity. Qed.

(** C9 as stated fails when a guard that precedes the validation throws
    first: for an anonymous caller and an age of 50, [createStudent]
    throws ForbiddenException, not the age error (and creates nothing). *)
Lemma age_check_after_access_check :
  fst (Students.createStudent ChecksumCipher.cipher [] (js "HUB-1")
         (Sample.ageOnly 50) Sample.anonymousContext Sample.world)
  = Thrown (ForbiddenException
              (js "User type 'anonymous' not allowed for student:create"))
  /\ fst (Students.updateStudent ChecksumCipher.cipher [] Sample.clockStamp (js "s-1")
            (Sample.ageOnly 50) Sample.anonymousContext Sample.world)
     = Thrown (ForbiddenException
                 (js "User type 'anonymous' not allowed for student:update"))
  /\ fst (Students.createStudent ChecksumCipher.cipher [] (js "HUB-9")
            (Sample.ageOnly 50) Students.defaultContext Sample.world)
     = Thrown (NotFoundException (js "Hub not found")).
Proof. repeat split; vm_compute; reflexivity. Qed.

(** With a valid age the sample request goes through: the student is
    stored under a fresh code, its name comes back decrypted and one audit
    entry is written. *)
Example createStudent_sample :
  let '(r, w') :=
    Students.createStudent ChecksumCipher.cipher [] (js "HUB-1")
      {| Students.firstName := Some (js " Amina "); Students.lastName := None;
         Students.grade := None; Students.age := Some 10;
         Students.metadata := None; Students.status := None |}
      Students.defaultContext Sample.world in
  match r with
  | Returned student =>
      Student.firstName student = Some (js "Amina")
      /\ Student.studentCode student = js "AAAA"
      /\ List.length (students w') = 2%nat
      /\ List.length (auditLogs w') = 1%nat
  | Thrown _ => False
  end.
Proof. vm_compute. repeat split. Qed.

(* ------------------------------------------------------------------ *)
(** ** Further properties of the generators and of the audit buffer *)

(** X1: every code [generateStudentCode] produces for a length from 3 to 6
    has that length, matches [^[A-HJ-NP-Z2-9][A-HJ-NP-Z2-9]{2,5}$], passes
    [validateStudentCodeFormat] and starts with a letter; the generator
    throws for no such length. *)
Theorem student_code_format (len : nat) (tape : Tape) :
  (3 <= len <= 6)%nat ->
  exists code tape',
    Students.generateStudentCode len tape = (Returned code, tape')
    /\ List.length code = len
    /\ matchesStudentPattern code = true
    /\ Students.validateStudentCodeFormat code = true
    /\ Students.startsWithDigit code = false.
Proof.
  intros Hlen.
  destruct (generateStudentCode_returns len tape Hlen)
    as (code & tape' & Hrun & Hcl & Hall & c & rest & -> & Hletter).
  exists (c :: rest), tape'. split; [exact Hrun|]. split; [exact Hcl|].
  destruct (alphabet_matches_patterns (c :: rest)) as [Hpat Hfmt];
    [now rewrite Hcl | exact Hall |].
  split; [exact Hpat|]. split; [exact Hfmt|].
  cbn [Students.startsWithDigit]. now apply letterChars_not_digit.
Qed.

Lemma student_code_format_witness :
  exists code tape',
    Students.generateStudentCode 4 (tapeOf [25; 3; 4; 5; 7]) = (Returned code, tape')
    /\ List.length code = 4%nat
    /\ matchesStudentPattern code = true
    /\ Students.validateStudentCodeFormat code = true
    /\ Students.startsWithDigit code = false.
Proof.
  apply (student_code_format 4 (tapeOf [25; 3; 4; 5; 7])).
  split; [apply le_S, le_n | apply le_S, le_S, le_n].
Defined.

(** The digit 4 drawn first is replaced by the letter H. *)
Example student_code_sample :
  fst (Students.generateStudentCode 4 (tapeOf [25; 3; 4; 5; 7])) = Returned (js "HDEF").
Proof. reflexivity. Qed.

(** X2: every device code [generateDeviceCode] produces has 6 to 8
    characters of [generateSecureRandom]'s default set and matches
    [^[A-HJ-NP-Z2-9]{6,8}$]. *)
Theorem device_code_format (tape : Tape) :
  exists code tape',
    Security.generateDeviceCode tape = (Returned code, tape')
    /\ (6 <= List.length code <= 8)%nat
    /\ Forall (fun c => In c Security.defaultCharset) code
    /\ matchesDevicePattern code = true.
Proof.
  destruct (generateDeviceCode_returns tape) as (code & tape' & Hrun & Hlen & Hall).
  exists code, tape'. split; [exact Hrun|]. split; [exact Hlen|]. split; [exact Hall|].
  unfold matchesDevicePattern.
  replace ((6 <=? List.length code)%nat) with true by (symmetry; apply Nat.leb_le; lia).
  replace ((List.length code <=? 8)%nat) with true by (symmetry; apply Nat.leb_le; lia).
  rewrite !andb_true_r. apply forallb_forall. intros x Hx.
  apply defaultCharset_in_class. rewrite Forall_forall in Hall. now apply Hall.
Qed.

(** X3: a student code returned by [generateUniqueStudentCode] after [n]
    collisions has 4 characters when [n < 5], 5 when [5 <= n < 10] and 6
    from the tenth collision on. *)
Theorem student_code_length_after_collisions (hubId : option jsstring)
  (w w' : World) (code : jsstring) :
  Students.generateUniqueStudentCode hubId w = (Returned code, w') ->
  List.length code = studentCodeLength (codeLookups w' - codeLookups w - 1).
Proof.
  unfold Students.generateUniqueStudentCode. intros Hrun.
  pose proof (uniqueStudentCodeLoop_run Students.maxAttempts 0 w) as H.
  change (studentCodeLength 0) with 4%nat in H. rewrite Hrun in H.
  destruct H as [_ [_ (k & _ & Hlook & Hlen & _)]].
  rewrite Hlen. f_equal. lia.
Qed.

Lemma student_code_length_after_collisions_witness :
  List.length (js "AAAA")
  = studentCodeLength
      (codeLookups (snd (Students.generateUniqueStudentCode None Sample.world))
       - codeLookups Sample.world - 1).
Proof.
  apply (student_code_length_after_collisions None Sample.world
           (snd (Students.generateUniqueStudentCode None Sample.world))
           (js "AAAA")).
  reflexivity.
Defined.

Section AuditBuffer.

(** X4: [logEvent] never throws; it appends the entry, stamped with the
    current time, and a buffer that would exceed its bound of 10000
    entries loses its oldest one. *)
Theorem logEvent_bounded (entry : AuditEntry.t) (w : World) :
  Z.of_nat (List.length (auditLogs w)) <= AuditLogger.maxLogEntries ->
  exists w' stored,
    AuditLogger.logEvent entry w = (Returned tt, w')
    /\ (auditLogs w' = auditLogs w ++ [stored]
        \/ auditLogs w' = tl (auditLogs w) ++ [stored])
    /\ AuditEntry.action stored = AuditEntry.action entry
    /\ AuditEntry.resource stored = AuditEntry.resource entry
    /\ AuditEntry.success stored = AuditEntry.success entry
    /\ AuditEntry.timestamp stored = now w
    /\ List.length (auditLogs w')
       = Z.to_nat (Z.min (Z.of_nat (List.length (auditLogs w)) + 1)
                         AuditLogger.maxLogEntries).
Proof.
  intros Hbound.
  unfold AuditLogger.logEvent, AuditLogger.generateId, bind, get, random, zoom,
    randomBelow, bind, draw, ret, modify.
  cbn [auditLogs setRng setAuditLogs now].
  unfold AuditLogger.maxLogEntries in *.
  rewrite length_app. cbn [List.length].
  destruct (Z.ltb_spec 10000 (Z.of_nat (List.length (auditLogs w) + 1))) as [Hfull|Hroom].
  - destruct (auditLogs w) as [|x l] eqn:Hlogs; cbn [List.length] in *; [lia|].
    eexists _, _. split; [reflexivity|]. cbn [app tl].
    split; [right; reflexivity|]. repeat (split; [reflexivity|]).
    cbn [auditLogs setAuditLogs app tl]. rewrite length_app. cbn [List.length]. lia.
  - eexists _, _. split; [reflexivity|].
    split; [left; reflexivity|]. repeat (split; [reflexivity|]).
    cbn [auditLogs setAuditLogs]. rewrite length_app. cbn [List.length]. lia.
Qed.

End AuditBuffer.

Lemma logEvent_bounded_witness :
  exists w' stored,
    AuditLogger.logEvent Sample.entry Sample.world = (Returned tt, w')
    /\ (auditLogs w' = auditLogs Sample.world ++ [stored]
        \/ auditLogs w' = tl (auditLogs Sample.world) ++ [stored])
    /\ AuditEntry.action stored = AuditEntry.action Sample.entry
    /\ AuditEntry.resource stored = AuditEntry.resource Sample.entry
    /\ AuditEntry.success stored = AuditEntry.success Sample.entry
    /\ AuditEntry.timestamp stored = now Sample.world
    /\ List.length (auditLogs w')
       = Z.to_nat (Z.min (Z.of_nat (List.length (auditLogs Sample.world)) + 1)
                         AuditLogger.maxLogEntries).
Proof.
  apply (logEvent_bounded Sample.entry Sample.world). discriminate.
Defined.

(* ================================================================== *)
(** * Further properties *)

(* ------------------------------------------------------------------ *)
(** ** Lists *)

Section ListFacts.

Lemma filter_true {A : Type} (l : list A) : filter (fun _ => true) l = l.
Proof. induction l as [|x l IH]; cbn; [reflexivity | now rewrite IH]. Qed.

Lemma filter_filter {A : Type} (p q : A -> bool) (l : list A) :
  filter p (filter q l) = filter (fun x => q x && p x) l.
Proof.
  induction l as [|x l IH]; cbn; [reflexivity|].
  destruct (q x); cbn; [destruct (p x)|]; now rewrite IH.
Qed.

Lemma filter_all {A : Type} (p : A -> bool) (l : list A) :
  Forall (fun x => p x = true) l -> filter p l = l.
Proof.
  induction 1 as [|x l Hx Hl IH]; cbn; [reflexivity | now rewrite Hx, IH].
Qed.

End ListFacts.

(* ------------------------------------------------------------------ *)
(** ** RateLimiterGuard: the map of requests *)

Section RateLimiterFacts.

Import RateLimiter GuardVocabulary.

Lemma mapGet_mapSet_same (m : Requests) (k : jsstring) (v : ClientData) :
  mapGet (mapSet m k v) k = Some v.
Proof.
  unfold mapGet. induction m as [|[k' v'] m IH]; cbn.
  - now rewrite strEq_refl.
  - destruct (strEq k' k) eqn:E; cbn; rewrite E; [reflexivity | exact IH].
Qed.

Lemma mapGet_mapSet_other (m : Requests) (k k' : jsstring) (v : ClientData) :
  k' <> k -> mapGet (mapSet m k v) k' = mapGet m k'.
Proof.
  intros Hne. unfold mapGet. induction m as [|[k0 v0] m IH]; cbn.
  - now rewrite (proj2 (strEq_neq k k')) by congruence.
  - destruct (strEq k0 k) eqn:E; cbn.
    + apply strEq_eq in E. subst k0.
      now rewrite (proj2 (strEq_neq k k')) by congruence.
    + destruct (strEq k0 k'); [reflexivity | exact IH].
Qed.

Lemma mapSet_keys (m : Requests) (k : jsstring) (v : ClientData) :
  map fst (mapSet m k v)
  = if existsb (strEq k) (map fst m) then map fst m else map fst m ++ [k].
Proof.
  induction m as [|[k0 v0] m IH]; cbn; [reflexivity|].
  destruct (strEq k0 k) eqn:E; cbn.
  - apply strEq_eq in E. subst. now rewrite strEq_refl.
  - assert (strEq k k0 = false) as ->.
    { apply strEq_neq. apply strEq_neq in E. congruence. }
    cbn. rewrite IH. now destruct (existsb (strEq k) (map fst m)).
Qed.

Lemma mapSet_distinct (m : Requests) (k : jsstring) (v : ClientData) :
  distinctKeys m -> distinctKeys (mapSet m k v).
Proof.
  unfold distinctKeys. intros H. rewrite mapSet_keys.
  destruct (existsb (strEq k) (map fst m)) eqn:E; [exact H|].
  apply NoDup_app; [exact H | repeat constructor; intros [] |].
  intros x Hx [Heq|[]]. subst x.
  assert (existsb (strEq k) (map fst m) = true) as Hc; [|congruence].
  apply existsb_exists. exists k. split; [exact Hx | apply strEq_refl].
Qed.

(** The entry the guard holds for the client after a call that it let
    through. *)
Lemma canActivate_distinct (now : Z) (r : Request) (m : Requests) :
  distinctKeys m -> distinctKeys (snd (canActivate now r m)).
Proof.
  intros H. unfold canActivate.
  destruct (mapGet m (getClientId r)) as [d|]; cbn.
  - destruct (resetTime d <? now); cbn; [now apply mapSet_distinct|].
    destruct (maxRequests <=? count d); cbn; [exact H | now apply mapSet_distinct].
  - now apply mapSet_distinct.
Qed.

(** A call leaves the entries of the other clients alone. *)
Lemma canActivate_other (now : Z) (r : Request) (m : Requests) (k : jsstring) :
  k <> getClientId r -> mapGet (snd (canActivate now r m)) k = mapGet m k.
Proof.
  intros Hne. unfold canActivate.
  destruct (mapGet m (getClientId r)) as [d|]; cbn.
  - destruct (resetTime d <? now); cbn; [now apply mapGet_mapSet_other|].
    destruct (maxRequests <=? count d); cbn;
      [reflexivity | now apply mapGet_mapSet_other].
  - now apply mapGet_mapSet_other.
Qed.

(** Within the window of an entry, the calls of its client are let through
    until the count reaches the maximum and refused from then on, whatever
    the other clients do in between. *)
Lemma serve_within_window (calls : list (Z * Request)) (m : Requests)
  (k : jsstring) (c R : Z) :
  mapGet m k = Some {| count := c; resetTime := R |} ->
  (forall t r, In (t, r) (callsOf k calls) -> t <= R) ->
  c <= maxRequests ->
  let n := List.length (callsOf k calls) in
  let room := Z.to_nat (maxRequests - c) in
  outcomesOf k (fst (serve calls m))
  = repeat (inr true) (Nat.min n room) ++ repeat tooManyRequests (n - room).
Proof.
  revert m c. induction calls as [|[t r] calls IH]; intros m c Hget Htimes Hc.
  - reflexivity.
  - cbn [serve].
    destruct (canActivate t r m) as [outcome m'] eqn:Hact.
    destruct (serve calls m') as [outcomes final] eqn:Hserve.
    cbn [fst]. unfold outcomesOf, callsOf in *. cbn [filter snd fst] in *.
    destruct (strEq (getClientId r) k) eqn:Hk.
    + apply strEq_eq in Hk. cbn [map snd List.length].
      assert (t <= R) as Ht by (apply (Htimes t r); now left).
      unfold canActivate in Hact. rewrite Hk, Hget in Hact.
      cbn [resetTime count] in Hact.
      rewrite (proj2 (Z.ltb_ge R t)) in Hact by lia.
      destruct (Z.leb_spec maxRequests c) as [Hfull|Hroom].
      * injection Hact as <- <-.
        specialize (IH m c Hget (fun t' r' H => Htimes t' r' (or_intror H)) Hc).
        rewrite Hserve in IH. cbn [fst] in IH. rewrite IH.
        replace (Z.to_nat (maxRequests - c)) with 0%nat by lia.
        rewrite !Nat.min_0_r, !Nat.sub_0_r. reflexivity.
      * injection Hact as <- <-.
        specialize (IH (mapSet m k {| count := c + 1; resetTime := R |}) (c + 1)
                      (mapGet_mapSet_same _ _ _)
                      (fun t' r' H => Htimes t' r' (or_intror H))).
        rewrite Hserve in IH. cbn [fst] in IH. rewrite IH by lia.
        replace (Z.to_nat (maxRequests - c))
          with (S (Z.to_nat (maxRequests - (c + 1)))) by lia.
        reflexivity.
    + assert (mapGet m' k = mapGet m k) as Hframe.
      { replace m' with (snd (canActivate t r m)) by now rewrite Hact.
        apply canActivate_other. apply strEq_neq in Hk. congruence. }
      specialize (IH m' c (eq_trans Hframe Hget) Htimes Hc).
      rewrite Hserve in IH. exact IH.
Qed.

Lemma strEq_sym (a b : jsstring) : strEq a b = strEq b a.
Proof.
  revert b. induction a as [|x a IH]; intros [|y b]; cbn; try reflexivity.
  now rewrite IH, Z.eqb_sym.
Qed.

Lemma cleanupLoop_filter (now : Z) (entries m : Requests) :
  cleanupLoop now entries m
  = filter (fun e' => negb (existsb (fun e => expired now (snd e)
                                              && strEq (fst e) (fst e')) entries)) m.
Proof.
  revert m. induction entries as [|[k d] rest IH]; intros m; cbn [cleanupLoop].
  - cbn. induction m as [|x m IHm]; cbn; [reflexivity | now rewrite <- IHm].
  - rewrite IH. cbn [existsb fst snd]. unfold expired at 2.
    destruct (resetTime d <? now); cbn [andb orb].
    + unfold mapDelete. rewrite filter_filter. apply filter_ext. intros e'.
      now rewrite negb_orb, (strEq_sym k).
    + reflexivity.
Qed.

Lemma distinct_same_key (m : Requests) (e e' : jsstring * ClientData) :
  distinctKeys m -> In e m -> In e' m -> fst e = fst e' -> e = e'.
Proof.
  unfold distinctKeys. induction m as [|x m IH]; cbn; [intros _ []|].
  intros Hnd [->|He] [->|He'] Hk; inversion Hnd as [|? ? Hnotin Hnd']; subst.
  - reflexivity.
  - exfalso. apply Hnotin. rewrite Hk. now apply in_map.
  - exfalso. apply Hnotin. rewrite <- Hk. now apply in_map.
  - now apply IH.
Qed.

(** The sweep removes the entries that have run out and keeps the others
    in their order. *)
Lemma cleanup_filter (now : Z) (m : Requests) :
  distinctKeys m ->
  cleanup now m = filter (fun e => negb (expired now (snd e))) m.
Proof.
  intros Hnd. unfold cleanup. rewrite cleanupLoop_filter.
  apply filter_ext_in. intros e' He'. f_equal.
  destruct (expired now (snd e')) eqn:Hexp.
  - apply existsb_exists. exists e'. split; [exact He'|].
    now rewrite Hexp, strEq_refl.
  - destruct (existsb _ m) eqn:Hex; [|reflexivity].
    apply existsb_exists in Hex. destruct Hex as (e & He & Hboth).
    apply andb_prop in Hboth. destruct Hboth as [Hold Hkey].
    apply strEq_eq in Hkey.
    rewrite (distinct_same_key m e e' Hnd He He' Hkey) in Hold. congruence.
Qed.

Lemma mapGet_absent (m : Requests) (k : jsstring) :
  ~ In k (map fst m) -> mapGet m k = None.
Proof.
  unfold mapGet. induction m as [|[k0 d0] m IH]; cbn; [reflexivity|].
  intros Hnot. destruct (strEq k0 k) eqn:E.
  - apply strEq_eq in E. tauto.
  - apply IH. tauto.
Qed.

Lemma cleanup_swept (now : Z) (m : Requests) :
  distinctKeys m -> sweptAt now (cleanup now m) m.
Proof.
  intros Hnd k. rewrite (cleanup_filter now m Hnd). unfold distinctKeys in Hnd.
  induction m as [|[k0 d0] m IH]; [reflexivity|].
  inversion Hnd as [|? ? Hnotin Hnd']; subst. specialize (IH Hnd').
  cbn [filter snd]. unfold mapGet at 2. cbn [find fst].
  destruct (strEq k0 k) eqn:E.
  - apply strEq_eq in E. subst k0. cbn [option_map snd].
    destruct (expired now d0); cbn [negb].
    + rewrite IH. now rewrite (mapGet_absent m k Hnotin).
    + unfold mapGet. cbn [find fst]. now rewrite strEq_refl.
  - destruct (expired now d0); cbn [negb].
    + exact IH.
    + unfold mapGet at 1. cbn [find fst]. rewrite E. exact IH.
Qed.

(** A call at or after the time of the sweep has the same outcome on the
    swept map, and leaves it swept. *)
Lemma canActivate_swept (tc now : Z) (r : Request) (m1 m2 : Requests) :
  sweptAt tc m1 m2 -> tc <= now ->
  fst (canActivate now r m1) = fst (canActivate now r m2)
  /\ sweptAt tc (snd (canActivate now r m1)) (snd (canActivate now r m2)).
Proof.
  intros Hsim Hle.
  assert (forall m1' m2' d, expired tc d = false ->
            m1' = mapSet m1 (getClientId r) d -> m2' = mapSet m2 (getClientId r) d ->
            sweptAt tc m1' m2') as Hset.
  { intros m1' m2' d Hd -> -> k.
    destruct (strEq (getClientId r) k) eqn:E.
    - apply strEq_eq in E. subst k. rewrite !mapGet_mapSet_same. now rewrite Hd.
    - apply strEq_neq in E.
      rewrite !mapGet_mapSet_other by congruence. apply Hsim. }
  pose proof (Hsim (getClientId r)) as Hk.
  unfold canActivate.
  destruct (mapGet m2 (getClientId r)) as [d|] eqn:H2.
  - destruct (expired tc d) eqn:Hexp; rewrite Hk.
    + unfold expired in Hexp. apply Z.ltb_lt in Hexp.
      rewrite (proj2 (Z.ltb_lt (resetTime d) now)) by lia. cbn [fst snd].
      split; [reflexivity|].
      eapply Hset; [|reflexivity|reflexivity].
      unfold expired, windowMs. cbn [resetTime]. apply Z.ltb_ge. lia.
    + destruct (resetTime d <? now) eqn:Hnow; cbn [fst snd].
      * split; [reflexivity|].
        eapply Hset; [|reflexivity|reflexivity].
        unfold expired, windowMs. cbn [resetTime]. apply Z.ltb_ge. lia.
      * destruct (maxRequests <=? count d); cbn [fst snd].
        -- split; [reflexivity | exact Hsim].
        -- split; [reflexivity|].
           eapply Hset; [|reflexivity|reflexivity]. exact Hexp.
  - rewrite Hk. cbn [fst snd]. split; [reflexivity|].
    eapply Hset; [|reflexivity|reflexivity].
    unfold expired, windowMs. cbn [resetTime]. apply Z.ltb_ge. lia.
Qed.

Lemma serve_swept (tc : Z) (calls : list (Z * Request)) (m1 m2 : Requests) :
  sweptAt tc m1 m2 ->
  (forall t r, In (t, r) calls -> tc <= t) ->
  fst (serve calls m1) = fst (serve calls m2)
  /\ sweptAt tc (snd (serve calls m1)) (snd (serve calls m2)).
Proof.
  revert m1 m2. induction calls as [|[t r] calls IH]; intros m1 m2 Hsim Htimes.
  - split; [reflexivity | exact Hsim].
  - cbn [serve].
    destruct (canActivate_swept tc t r m1 m2 Hsim (Htimes t r (or_introl eq_refl)))
      as [Hout Hsim'].
    destruct (canActivate t r m1) as [o1 m1'], (canActivate t r m2) as [o2 m2'].
    cbn [fst snd] in Hout, Hsim'. subst o2.
    destruct (IH m1' m2' Hsim' (fun t' r' H => Htimes t' r' (or_intror H)))
      as [Houts Hfinal].
    destruct (serve calls m1') as [os1 f1], (serve calls m2') as [os2 f2].
    cbn [fst snd] in *. subst os2. split; [reflexivity | exact Hfinal].
Qed.

End RateLimiterFacts.

(* ------------------------------------------------------------------ *)
(** ** RateLimiterGuard: the window and the sweep *)

Section RateLimiterGuard.

Import RateLimiter GuardVocabulary.

(** X5: a client whose entry is missing or has run out opens a window with
    its next request; of its further requests inside the window the first
    99 are let through and all later ones are refused with status 429,
    whatever other clients do in between. *)
Theorem guard_window_limit (m : Requests) (first : Request) (t0 : Z)
  (calls : list (Z * Request)) :
  let k := getClientId first in
  (forall data, mapGet m k = Some data -> resetTime data < t0) ->
  (forall t r, In (t, r) (callsOf k calls) -> t <= t0 + windowMs) ->
  let n := List.length (callsOf k calls) in
  outcomesOf k (fst (serve ((t0, first) :: calls) m))
  = inr true :: repeat (inr true) (Nat.min n 99)
    ++ repeat tooManyRequests (n - 99).
Proof.
  intros k Hold Htimes n. cbn [serve].
  assert (canActivate t0 first m
          = (inr true, mapSet m k {| count := 1; resetTime := t0 + windowMs |}))
    as ->.
  { unfold canActivate. fold k. destruct (mapGet m k) as [d|] eqn:Hget.
    - now rewrite (proj2 (Z.ltb_lt _ _) (Hold d eq_refl)).
    - reflexivity. }
  pose proof (serve_within_window calls
                (mapSet m k {| count := 1; resetTime := t0 + windowMs |})
                k 1 (t0 + windowMs) (mapGet_mapSet_same _ _ _) Htimes) as H.
  destruct (serve calls _) as [outcomes final]. cbn [fst] in *.
  unfold outcomesOf in *. cbn [filter fst]. fold k. rewrite strEq_refl.
  cbn [map snd]. f_equal. apply H. unfold maxRequests. lia.
Qed.

(** Every map the guard builds has one entry per client. *)
Lemma serve_distinct (calls : list (Z * Request)) (m : Requests) :
  distinctKeys m -> distinctKeys (snd (serve calls m)).
Proof.
  revert m. induction calls as [|[t r] calls IH]; intros m Hnd; [exact Hnd|].
  cbn [serve]. pose proof (canActivate_distinct t r m Hnd) as H.
  destruct (canActivate t r m) as [o m']. cbn [snd] in H.
  specialize (IH m' H). destruct (serve calls m') as [os f]. exact IH.
Qed.

(** X6: [cleanup] removes exactly the entries that have run out, keeping
    the others in order, and no request made at or after the time of the
    sweep can tell that it happened: every later call has the outcome it
    would have had without the sweep. *)
Theorem cleanup_unobservable (m : Requests) (tc : Z) (calls : list (Z * Request)) :
  distinctKeys m ->
  (forall t r, In (t, r) calls -> tc <= t) ->
  cleanup tc m = filter (fun e => negb (expired tc (snd e))) m
  /\ fst (serve calls (cleanup tc m)) = fst (serve calls m).
Proof.
  intros Hnd Htimes. split.
  - now apply cleanup_filter.
  - apply (serve_swept tc); [now apply cleanup_swept | exact Htimes].
Qed.

End RateLimiterGuard.

Lemma guard_window_limit_witness :
  let client := {| RateLimiter.ip := Some (js "10.0.0.7");
                   RateLimiter.remoteAddress := None |} in
  let other := {| RateLimiter.ip := None; RateLimiter.remoteAddress := None |} in
  GuardVocabulary.outcomesOf (js "10.0.0.7")
    (fst (GuardVocabulary.serve
            ((0, client) :: (5, client) :: (6, other) :: repeat (7, client) 99)
            [(js "10.0.0.7",
              {| RateLimiter.count := 100; RateLimiter.resetTime := -1 |})]))
  = inr true :: repeat (inr true) 99 ++ [GuardVocabulary.tooManyRequests].
Proof.
  intros client other.
  apply (guard_window_limit _ client 0
           ((5, client) :: (6, other) :: repeat (7, client) 99)).
  - intros data H. vm_compute in H. injection H as <-. reflexivity.
  - intros t r H. vm_compute in H.
    repeat (destruct H as [H|H]; [injection H as <- _; vm_compute; discriminate|]).
    destruct H.
Defined.

Lemma cleanup_unobservable_witness :
  let client := {| RateLimiter.ip := Some (js "10.0.0.7");
                   RateLimiter.remoteAddress := None |} in
  let m := [(js "10.0.0.7", {| RateLimiter.count := 100; RateLimiter.resetTime := 50 |});
            (js "unknown", {| RateLimiter.count := 3; RateLimiter.resetTime := 10 |})] in
  RateLimiter.cleanup 20 m
  = filter (fun e => negb (GuardVocabulary.expired 20 (snd e))) m
  /\ fst (GuardVocabulary.serve [(30, client); (60, client)] (RateLimiter.cleanup 20 m))
     = fst (GuardVocabulary.serve [(30, client); (60, client)] m).
Proof.
  intros client m. apply (cleanup_unobservable m 20 [(30, client); (60, client)]).
  - unfold GuardVocabulary.distinctKeys. cbn.
    repeat constructor; cbn; intuition discriminate.
  - intros t r [H|[H|[]]]; injection H as <- _; lia.
Defined.

(* ------------------------------------------------------------------ *)
(** ** AuditLoggerService: filters, order and the sweep *)

Section AuditQueryFacts.

Import AuditQueries AuditVocabulary.

(** The chain of filters keeps the entries that pass all of them. *)
Lemma filters_select (filters : Filters) (all : list AuditEntry.t) :
  filterBy (success filters) (fun b log => Bool.eqb (AuditEntry.success log) b)
    (filterBy (sensitiveData filters)
       (fun b log => isBoolean (AuditEntry.sensitiveData log) b)
       (filterBy (endDate filters) (fun d log => AuditEntry.timestamp log <=? d)
          (filterBy (startDate filters) (fun d log => d <=? AuditEntry.timestamp log)
             (filterByString (hubId filters) AuditEntry.hubId
                (filterByString (action filters)
                   (fun log => Some (AuditEntry.action log))
                   (filterByString (resource filters)
                      (fun log => Some (AuditEntry.resource log))
                      (filterByString (userId filters) AuditEntry.userId all)))))))
  = filter (selects filters) all.
Proof.
  assert (forall wanted field l,
            filterByString wanted field l
            = filter (fun log => match wanted with
                                 | Some (c :: cs) => isString (field log) (c :: cs)
                                 | _ => true
                                 end) l) as HS.
  { intros [[|c cs]|] field l; cbn; now rewrite ?filter_true. }
  assert (forall (A : Type) (wanted : option A) test l,
            filterBy wanted test l
            = filter (fun log => match wanted with
                                 | Some x => test x log
                                 | None => true
                                 end) l) as HB.
  { intros A [x|] test l; cbn; now rewrite ?filter_true. }
  rewrite !HS, !HB, !filter_filter. apply filter_ext. intros log.
  unfold selects. now rewrite !andb_assoc.
Qed.

Lemma insertNewestFirst_perm (a : AuditEntry.t) (l : list AuditEntry.t) :
  Permutation (insertNewestFirst a l) (a :: l).
Proof.
  induction l as [|b l IH]; cbn; [reflexivity|].
  destruct (AuditEntry.timestamp b <=? AuditEntry.timestamp a); [reflexivity|].
  rewrite IH. apply perm_swap.
Qed.

Lemma sortNewestFirst_perm (l : list AuditEntry.t) :
  Permutation (sortNewestFirst l) l.
Proof.
  induction l as [|a l IH]; cbn; [reflexivity|].
  rewrite insertNewestFirst_perm. now constructor.
Qed.

Lemma insertNewestFirst_sorted (a : AuditEntry.t) (l : list AuditEntry.t) :
  newestFirst l -> newestFirst (insertNewestFirst a l).
Proof.
  induction 1 as [|b rest Hall Hrest IH]; cbn.
  - constructor; constructor.
  - destruct (Z.leb_spec (AuditEntry.timestamp b) (AuditEntry.timestamp a)) as [Hle|Hgt].
    + constructor; [|now constructor].
      constructor; [exact Hle|].
      eapply Forall_impl; [|exact Hall]. cbn. intros; lia.
    + constructor; [|exact IH].
      apply (Permutation_Forall (Permutation_sym (insertNewestFirst_perm a rest))).
      constructor; [lia | exact Hall].
Qed.

Lemma sortNewestFirst_sorted (l : list AuditEntry.t) : newestFirst (sortNewestFirst l).
Proof.
  induction l as [|a l IH]; cbn; [constructor | now apply insertNewestFirst_sorted].
Qed.

(** A page holds no more entries than its size. *)
Lemma slice_length {A : Type} (arr : list A) (start size : Z) :
  0 < size -> Z.of_nat (List.length (slice arr start (start + size))) <= size.
Proof.
  intros Hsize. unfold slice. rewrite length_firstn.
  set (len := Z.of_nat (List.length arr)).
  assert (0 <= len) by lia.
  destruct (Z.ltb_spec start 0), (Z.ltb_spec (start + size) 0); lia.
Qed.



Lemma getAuditLogs_total (filters : Filters) (w : World) :
  exists page,
    getAuditLogs filters w = (Returned page, w)
    /\ total page = Z.of_nat (List.length (filter (selects filters) (auditLogs w))).
Proof.
  unfold getAuditLogs, bind, get, ret. rewrite filters_select.
  eexists. split; [reflexivity|]. cbn [total].
  now rewrite (Permutation_length (sortNewestFirst_perm _)).
Qed.

(** [logEvent] on a buffer with room appends the event, stamped with the
    current time. *)
Lemma logEvent_appends (entry : AuditEntry.t) (w : World) :
  hasRoom 1 w ->
  exists w' stored,
    AuditLogger.logEvent entry w = (Returned tt, w')
    /\ auditLogs w' = auditLogs w ++ [stored]
    /\ records stored entry (now w)
    /\ students w' = students w /\ edgeHubs w' = edgeHubs w /\ now w' = now w.
Proof.
  unfold hasRoom, AuditLogger.maxLogEntries. intros Hroom.
  unfold AuditLogger.logEvent, AuditLogger.generateId, bind, get, random, zoom,
    randomBelow, bind, draw, ret, modify.
  cbn [auditLogs setRng setAuditLogs now].
  unfold AuditLogger.maxLogEntries. rewrite length_app. cbn [List.length].
  rewrite (proj2 (Z.ltb_ge 10000 (Z.of_nat (List.length (auditLogs w) + 1)))) by lia.
  eexists _, _. split; [reflexivity|]. cbn [auditLogs setAuditLogs].
  split; [reflexivity|]. split; [|repeat split].
  unfold records. cbn. repeat split. discriminate.
Qed.

End AuditQueryFacts.

(* ------------------------------------------------------------------ *)
(** ** AuditLoggerService: queries and maintenance *)

Section AuditQueriesAndMaintenance.

Import AuditQueries AuditVocabulary.

(** X7: [getAuditLogs] leaves the buffer as it is; [total] counts the
    entries that pass every filter that is set; the page is a slice of
    those entries arranged newest first, and with a positive page size
    (100 when none is given) it holds at most that many entries. *)
Theorem getAuditLogs_page (filters : Filters) (w : World) :
  exists page sorted,
    getAuditLogs filters w = (Returned page, w)
    /\ total page
       = Z.of_nat (List.length (filter (selects filters) (auditLogs w)))
    /\ Permutation sorted (filter (selects filters) (auditLogs w))
    /\ newestFirst sorted
    /\ logs page
       = slice sorted (orElse (offset filters) 0)
           (orElse (offset filters) 0 + pageSize filters)
    /\ (0 < pageSize filters -> Z.of_nat (List.length (logs page)) <= pageSize filters).
Proof.
  unfold getAuditLogs, bind, get, ret. rewrite filters_select.
  eexists _, (sortNewestFirst (filter (selects filters) (auditLogs w))).
  split; [reflexivity|]. cbn [total logs].
  split; [now rewrite (Permutation_length (sortNewestFirst_perm _))|].
  split; [apply sortNewestFirst_perm|].
  split; [apply sortNewestFirst_sorted|].
  split; [reflexivity|].
  unfold pageSize. apply slice_length.
Qed.


End AuditQueriesAndMaintenance.

(* ------------------------------------------------------------------ *)
(** ** SecurityService: hashes *)

Section HashingFacts.

Variable scryptSync : list byte -> list byte -> nat -> list byte.

Lemma split_two (a b : list byte) :
  split 58 (toHex a ++ js ":" ++ toHex b) = [toHex a; toHex b].
Proof.
  change (js ":" ++ toHex b) with (58 :: toHex b).
  rewrite split_app by apply toHex_no_colon.
  now rewrite split_none by apply toHex_no_colon.
Qed.

Lemma blank_no_colon (s : jsstring) :
  Security.isBlank s = true -> Forall (fun c => c <> 58) s.
Proof.
  rewrite isBlank_spec. intros H. apply Forall_forall. intros c Hc ->.
  rewrite forallb_forall in H. specialize (H 58 Hc). discriminate.
Qed.

(** The token of a hash, and what [verifyHash] answers for a candidate. *)
Lemma verifyHash_token (S : Type) (st : S) (candidate : jsstring)
  (salt digest : list byte) :
  candidate <> [] ->
  Hashing.verifyHash scryptSync candidate (toHex salt ++ js ":" ++ toHex digest) st
  = (Returned (if list_eq_dec Byte.byte_eq_dec digest
                    (scryptSync (utf8Encode candidate) salt 64)
               then true else false), st).
Proof.
  intros Hne. unfold Hashing.verifyHash.
  destruct candidate as [|c cs]; [congruence|].
  destruct (toHex salt ++ js ":" ++ toHex digest) eqn:Htok.
  { destruct (toHex salt); discriminate. }
  rewrite <- Htok. rewrite split_two, !fromHex_toHex.
  unfold tryCatch, Hashing.timingSafeEqual.
  destruct (Nat.eqb_spec (List.length digest)
              (List.length (scryptSync (utf8Encode (c :: cs)) salt 64))) as [Hlen|Hlen];
    unfold ret, throw; [reflexivity|].
  destruct (list_eq_dec _ _ _) as [Heq|]; [|reflexivity].
  rewrite <- Heq in Hlen. congruence.
Qed.

(** X9: [hash] always returns; [verifyHash] accepts the data against its
    own hash exactly when the data is not blank (blank data is returned
    unhashed and then never verifies); and a candidate is accepted against
    the hash of non-blank data exactly when its digest under the stored
    salt is the stored digest. *)
Theorem hash_then_verify (data : jsstring) (tape : Tape) :
  exists token tape',
    Hashing.hash scryptSync data tape = (Returned token, tape')
    /\ (forall (S : Type) (st : S),
          Hashing.verifyHash scryptSync data token st
          = (Returned (negb (Security.isBlank data)), st))
    /\ (Security.isBlank data = false ->
        exists salt,
          List.length salt = 16%nat
          /\ token = toHex salt ++ js ":"
                     ++ toHex (scryptSync (utf8Encode data) salt 64)
          /\ forall (S : Type) (st : S) (candidate : jsstring),
               candidate <> [] ->
               (Hashing.verifyHash scryptSync candidate token st = (Returned true, st)
                <-> scryptSync (utf8Encode candidate) salt 64
                    = scryptSync (utf8Encode data) salt 64)).
Proof.
  unfold Hashing.hash. destruct (Security.isBlank data) eqn:Hblank.
  - exists data, tape. split; [reflexivity|]. split; [|discriminate].
    intros S st. unfold Hashing.verifyHash.
    destruct data as [|c cs]; [reflexivity|].
    rewrite (split_none 58 (c :: cs)) by now apply blank_no_colon.
    reflexivity.
  - destruct (randomBytes_returns 16 tape) as (salt & tape' & Hrun & Hlen).
    unfold tryCatch, bind. rewrite Hrun. unfold ret.
    eexists _, tape'. split; [reflexivity|].
    assert (data <> []) as Hne by (intros ->; discriminate).
    split.
    + intros S st. rewrite verifyHash_token by exact Hne.
      now destruct (list_eq_dec _ _ _).
    + intros _. exists salt. split; [exact Hlen|]. split; [reflexivity|].
      intros S st candidate Hcand. rewrite verifyHash_token by exact Hcand.
      destruct (list_eq_dec _ _ _) as [Heq|Hneq]; split; intros H;
        congruence.
Qed.

End HashingFacts.

(* ------------------------------------------------------------------ *)
(** ** SecurityService: random strings *)

Section SecureRandom.

(** [randomBytes n] reads the next [n] integers of the tape. *)
Lemma randomBytes_tape (n : nat) (tape : Tape) :
  exists buf tape',
    randomBytes n tape = (Returned buf, tape')
    /\ List.length buf = n
    /\ forall k, tape' k = tape (k + n)%nat.
Proof.
  revert tape. induction n as [|n IH]; intros tape.
  - exists [], tape. repeat split. intros k. now rewrite Nat.add_0_r.
  - cbn [randomBytes]. unfold bind, draw.
    destruct (IH (fun k => tape (S k))) as (buf & tape' & Hrun & Hlen & Htape).
    rewrite Hrun. exists (byteOf (tape 0%nat) :: buf), tape'.
    split; [reflexivity|]. split; [cbn; now rewrite Hlen|].
    intros k. rewrite Htape. f_equal. lia.
Qed.

(** X10: for a length (a non-negative integer) of at most 2^20, which is
    far below what [crypto.randomBytes] and a string can hold,
    [generateSecureRandom] returns exactly [length] characters, all taken
    from the character set it was given, or from the default set when
    none or an empty one was given, and it uses up [2 * length] random
    bytes; for a length whose double exceeds 2^31 - 1 it throws the
    [RangeError] of [crypto.randomBytes] and draws nothing. *)
Theorem generateSecureRandom_charset (len : nat) (charset : option jsstring)
  (tape : Tape) :
  (Z.of_nat len <= 2 ^ 20 ->
   exists code tape',
     Security.generateSecureRandom len charset tape = (Returned code, tape')
     /\ List.length code = len
     /\ (forall chars, charset = Some chars -> chars <> [] ->
         Forall (fun c => In c chars) code)
     /\ (charset = None \/ charset = Some [] ->
         Forall (fun c => In c Security.defaultCharset) code)
     /\ (forall k, tape' k = tape (k + 2 * len)%nat))
  /\ (2 ^ 31 - 1 < 2 * Z.of_nat len ->
      exists msg,
        Security.generateSecureRandom len charset tape
        = (Thrown (RangeError msg), tape)).
Proof.
  split.
  - intros Hsize. change (2 ^ 20) with 1048576 in Hsize.
    unfold Security.generateSecureRandom, bind.
    rewrite randomBytesChecked_accepts
      by (change maxRandomSize with 2147483647; lia).
    destruct (randomBytes_tape (len * 2) tape) as (buf & tape' & Hrun & Hlen & Htape).
    rewrite Hrun.
    set (chars := match charset with
                  | Some (c :: cs) => c :: cs
                  | _ => Security.defaultCharset
                  end).
    destruct (flat_map_charAt chars (firstn len buf)) as [Hl Hall].
    { subst chars. destruct charset as [[|c cs]|]; discriminate. }
    assert (List.length (firstn len buf) = len) as Hfirst
      by (rewrite length_firstn; lia).
    rewrite Hl, Hfirst.
    replace (Z.of_nat len <=? maxStringLength) with true
      by (symmetry; apply Z.leb_le; change maxStringLength with 536870888; lia).
    unfold ret. eexists _, tape'. split; [reflexivity|].
    split; [now rewrite Hl|].
    split; [|split].
    + intros cs -> Hne. subst chars. destruct cs; [congruence | exact Hall].
    + intros [->| ->]; exact Hall.
    + intros k. rewrite Htape. f_equal. lia.
  - intros Hsize. unfold Security.generateSecureRandom, bind, randomBytesChecked.
    replace (Z.of_nat (len * 2) <=? maxRandomSize) with false
      by (symmetry; apply Z.leb_gt; change maxRandomSize with (2 ^ 31 - 1); lia).
    unfold throw, sizeOutOfRange. eexists. reflexivity.
Qed.

(** Three characters of a two-letter set, from the bytes 4, 7 and 9 of a
    tape of six; and the message of the refusal of 2^32 + 2 bytes. *)
Example generateSecureRandom_sample :
  fst (Security.generateSecureRandom 3 (Some (js "ab")) (tapeOf [4; 7; 9; 1; 1; 1]))
  = Returned (js "abb")
  /\ message (sizeOutOfRange (2 ^ 32 + 2))
     = js "The value of " ++ [34] ++ js "size" ++ [34]
       ++ js " is out of range. It must be >= 0 && <= 2147483647. Received 4_294_967_298".
Proof. split; reflexivity. Qed.

End SecureRandom.

(* ------------------------------------------------------------------ *)
(** ** AccessControlService: the permissions of a user type *)

Section PermissionFacts.

Import AccessControl AccessPermissions.

(** The permissions of a user type cover what every rule that admits the
    type requires. *)
Lemma permissions_cover (rule : AccessRule) (u : UserType) (hub : option jsstring) :
  In rule accessRules ->
  includes (allowedUserTypes rule) (userTypeName u) = true ->
  hasRequiredPermissions rule (getUserPermissions (userTypeName u) hub) = true.
Proof.
  intros Hin. unfold accessRules in Hin. cbn [In] in Hin.
  repeat (destruct Hin as [<-|Hin];
          [destruct u; vm_compute; intros H; first [reflexivity | discriminate H]|]).
  destruct Hin.
Qed.

(** X11: a caller who carries the permissions [getUserPermissions] gives
    to its user type is never refused for missing permissions: for every
    rule of the table, access is granted exactly when the rule admits the
    user type and, where the rule requires a hub, the context names one. *)
Theorem own_permissions_suffice (ctx : AccessContext) (res act : jsstring)
  (resourceId : option jsstring) (rule : AccessRule) :
  findRule res act = Some rule ->
  permissions ctx
  = Some (getUserPermissions (userTypeName (userType ctx)) (hubId ctx)) ->
  allowed (decision (Some ctx) res act resourceId)
  = includes (allowedUserTypes rule) (userTypeName (userType ctx))
    && (negb (isTrue (requiresHubAccess rule)) || truthyStr (hubId ctx)).
Proof.
  intros Hrule Hperms.
  assert (In rule accessRules) as Hin.
  { unfold findRule in Hrule. now apply find_some in Hrule. }
  unfold decision, checkAccess, tryCatch, evaluateAccess.
  rewrite Hrule. cbn [readContext]. unfold bind, ret.
  destruct (includes (allowedUserTypes rule) (userTypeName (userType ctx))) eqn:Htype;
    cbn [negb andb]; [|reflexivity].
  rewrite Hperms.
  rewrite (permissions_cover rule (userType ctx) (hubId ctx) Hin Htype).
  cbn [negb]. rewrite andb_false_r.
  destruct (isTrue (requiresHubAccess rule)); cbn [negb andb orb];
    [destruct (truthyStr (hubId ctx))|]; reflexivity.
Qed.

End PermissionFacts.

Lemma own_permissions_suffice_witness :
  let ctx := {| AccessControl.userId := None;
                AccessControl.userType := AccessControl.system;
                AccessControl.hubId := Some (js "HUB-1");
                AccessControl.ipAddress := None; AccessControl.userAgent := None;
                AccessControl.permissions :=
                  Some (AccessPermissions.getUserPermissions (js "system")
                          (Some (js "HUB-1"))) |} in
  AccessControl.allowed (decision (Some ctx) (js "student") (js "update") None) = true.
Proof.
  intros ctx.
  exact (own_permissions_suffice ctx (js "student") (js "update") None _
           eq_refl eq_refl).
Defined.

(* ------------------------------------------------------------------ *)
(** ** StudentsService: accounts *)

Section AccountFacts.

Variable cipher : AesGcm.
Variable key : list byte.

(** The ORM's choice of [updatedAt] on [save]. *)
Variable stamp : World -> Student.t -> Z.

(** Decryption fills in the three virtual properties and nothing else. *)
Lemma decryptStudentData_stored (s : Student.t) :
  let d := Students.decryptStudentData cipher key s in
  Student.id d = Student.id s /\ Student.hubId d = Student.hubId s
  /\ Student.studentCode d = Student.studentCode s
  /\ Student.status d = Student.status s /\ Student.age d = Student.age s
  /\ Student.grade d = Student.grade s
  /\ Student.firstNameEncrypted d = Student.firstNameEncrypted s
  /\ Student.lastNameEncrypted d = Student.lastNameEncrypted s
  /\ Student.metadataEncrypted d = Student.metadataEncrypted s.
Proof.
  unfold Students.decryptStudentData.
  destruct (Students.decryptField cipher key (Student.firstNameEncrypted s));
    [|repeat split].
  destruct (Students.decryptField cipher key (Student.lastNameEncrypted s));
    [|repeat split].
  destruct (Students.decryptField cipher key (Student.metadataEncrypted s));
    repeat split.
Qed.

Lemma logEvent_run (entry : AuditEntry.t) (w : World) :
  exists w',
    AuditLogger.logEvent entry w = (Returned tt, w')
    /\ students w' = students w /\ edgeHubs w' = edgeHubs w
    /\ devices w' = devices w /\ now w' = now w.
Proof.
  unfold AuditLogger.logEvent, AuditLogger.generateId, bind, get, random, zoom,
    randomBelow, bind, draw, ret, modify.
  eexists. split; [reflexivity|]. repeat split.
Qed.

Lemma find_id (studentId : jsstring) (l : list Student.t) (student : Student.t) :
  find (fun s => strEq (Student.id s) studentId) l = Some student ->
  Student.id student = studentId /\ In student l.
Proof.
  intros H. apply find_some in H. destruct H as [Hin Heq].
  apply strEq_eq in Heq. now split.
Qed.

(** X12: [deactivateStudent] throws [NotFoundException] for an unknown id
    and changes nothing; for a stored student it returns the student with
    status 'inactive', after which neither [getStudentByCode] nor
    [validateStudentCode] returns that student for any code, while every
    other student is stored as before. *)
Theorem deactivated_student_is_not_found (studentId : jsstring) (w : World) :
  let '(r, w') := StudentAccounts.deactivateStudent cipher key stamp studentId w in
  match find (fun s => strEq (Student.id s) studentId) (students w) with
  | None => r = Thrown (NotFoundException (js "Student not found")) /\ w' = w
  | Some _ =>
      (exists saved,
          r = Returned saved /\ Student.id saved = studentId
          /\ Student.status saved = js "inactive")
      /\ (forall code found,
            fst (StudentAccounts.getStudentByCode cipher key code w')
            = Returned (Some found) ->
            Student.id found <> studentId)
      /\ (forall code found,
            fst (StudentAccounts.validateStudentCode code w') = Returned (Some found) ->
            Student.id found <> studentId)
      /\ (forall s, In s (students w) -> Student.id s <> studentId ->
                    In s (students w'))
  end.
Proof.
  unfold StudentAccounts.deactivateStudent, bind at 1.
  unfold StudentAccounts.findById.
  destruct (find (fun s => strEq (Student.id s) studentId) (students w))
    as [student|] eqn:Hfind; [|now split].
  destruct (find_id _ _ _ Hfind) as [Hid _].
  unfold Students.saveExisting, bind, get, modify, ret.
  cbn [Student.id StudentAccounts.setStatus].
  match goal with
  | |- context [setStudents (map (fun s => if _ then ?sv else s) _) w] =>
      set (saved := sv)
  end.
  set (w' := setStudents _ w).
  assert (forall code found,
            find (fun s => strEq (Student.studentCode s) code
                           && strEq (Student.status s) (js "active")) (students w')
            = Some found ->
            Student.id found <> studentId) as Hactive.
  { intros code found Hf. apply find_some in Hf. destruct Hf as [Hin Hmatch].
    apply andb_prop in Hmatch. destruct Hmatch as [_ Hst].
    subst w'. cbn [students setStudents] in Hin.
    apply in_map_iff in Hin. destruct Hin as (s & Hs & _).
    destruct (strEq (Student.id s) (Student.id student)) eqn:E.
    - subst found. discriminate Hst.
    - subst found. apply strEq_neq in E. congruence. }
  split; [|split; [|split]].
  - exists (StudentAccounts.decryptStudentData cipher key saved).
    split; [reflexivity|].
    destruct (decryptStudentData_stored saved) as (Hi & _ & _ & Hs & _).
    unfold StudentAccounts.decryptStudentData. rewrite Hi, Hs. now split.
  - intros code found.
    unfold StudentAccounts.getStudentByCode, bind, StudentAccounts.findActiveByCode, ret.
    destruct (find _ (students w')) as [s|] eqn:Hf; cbn; [|discriminate].
    intros [= <-]. unfold StudentAccounts.decryptStudentData.
    destruct (decryptStudentData_stored s) as (Hi & _). rewrite Hi.
    now apply (Hactive code).
  - intros code found. unfold StudentAccounts.validateStudentCode.
    destruct (negb _); cbn; [discriminate|].
    intros [= Hf]. now apply (Hactive code).
  - intros s Hin Hne. subst w'. cbn [students setStudents].
    apply in_map_iff. exists s. split; [|exact Hin].
    rewrite (proj2 (strEq_neq _ _)); [reflexivity | congruence].
Qed.

End AccountFacts.

(* ------------------------------------------------------------------ *)
(** ** StudentsService: deletion *)

Section DeletionFacts.

(** The time zone of the process. *)
Variable zone : Date.TimeZone.

Lemma logDataDeletion_run (ctx : AccessControl.AccessContext)
  (params : AuditDeletions.DataDeletion) (w : World) :
  exists w',
    AuditDeletions.logDataDeletion ctx params w = (Returned tt, w')
    /\ students w' = students w /\ edgeHubs w' = edgeHubs w
    /\ devices w' = devices w /\ now w' = now w.
Proof. apply logEvent_run. Qed.

(** Only administrators pass the rule for deleting student data. *)
Lemma delete_needs_admin (ctx : AccessControl.AccessContext)
  (resourceId : option jsstring) :
  accessGranted ctx (js "student") (js "delete") resourceId ->
  AccessControl.userType ctx = AccessControl.admin.
Proof.
  unfold accessGranted. destruct ctx as [uid [] hub ip ua perms];
    vm_compute; intros H; first [reflexivity | discriminate H].
Qed.

(** X13: for a stored student, [deleteStudentData] throws
    [ForbiddenException] unless the rule for deleting student data admits
    the caller, which only administrators pass; it refuses with
    [BadRequestException] 'Cannot delete: ...' while [shouldRetainData]
    answers to retain (the three years since the last update, counted in
    the time zone of the process, are not over) and the reason does not
    contain GDPR_REQUEST; otherwise it removes the student, and only that
    student, and reports the deletion.  A refused call leaves the students
    as they are. *)
Theorem deleteStudentData_policy (studentId reason : jsstring)
  (ctx : AccessControl.AccessContext) (w : World) (student : Student.t) :
  find (fun s => strEq (Student.id s) studentId) (students w) = Some student ->
  let contextWithHub := Students.withHub ctx (Student.hubId student) in
  let granted := accessGranted contextWithHub (js "student") (js "delete")
                   (Some studentId) in
  let retention :=
    AccessControl.shouldRetainData zone (now w) AccessControl.student
      (Student.updatedAt student) (Student.age student) in
  let '(r, w') := StudentAccounts.deleteStudentData zone studentId reason ctx w in
  (granted -> AccessControl.userType ctx = AccessControl.admin)
  /\ (~ granted ->
      (exists msg, r = Thrown (ForbiddenException msg))
      /\ students w' = students w)
  /\ (granted -> AccessControl.retain retention = true ->
      StudentAccounts.strIncludes reason (js "GDPR_REQUEST") = false ->
      r = Thrown (BadRequestException
                    (js "Cannot delete: " ++ AccessControl.retentionReason retention))
      /\ students w' = students w)
  /\ (granted ->
      AccessControl.retain retention = false
      \/ StudentAccounts.strIncludes reason (js "GDPR_REQUEST") = true ->
      (exists d, r = Returned d /\ StudentAccounts.deleted d = true)
      /\ students w'
         = filter (fun s => negb (strEq (Student.id s) studentId)) (students w)).
Proof.
  intros Hfind contextWithHub granted retention.
  destruct (find_id _ _ _ Hfind) as [Hid _].
  unfold StudentAccounts.deleteStudentData, tryCatch, bind at 1.
  unfold StudentAccounts.findById. rewrite Hfind. fold contextWithHub.
  unfold bind at 1.
  destruct (enforceAccess_run World w contextWithHub (js "student") (js "delete")
              (Some studentId)) as [Hyes Hno].
  assert (granted \/ ~ granted) as [Hg|Hg].
  { unfold granted, accessGranted.
    destruct (AccessControl.allowed _); [now left | right; discriminate]. }
  - destruct (Hyes Hg) as (flags & ->). unfold bind at 1. unfold get at 1.
    fold retention.
    destruct (AccessControl.retain retention
              && negb (StudentAccounts.strIncludes reason (js "GDPR_REQUEST")))
      eqn:Hkeep.
    + apply andb_prop in Hkeep. destruct Hkeep as [Hret Hgdpr].
      apply negb_true_iff in Hgdpr.
      unfold bind at 1.
      destruct (logDataDeletion_run contextWithHub
                  (StudentAccounts.deletionFailure studentId (Student.hubId student)
                     (js "Data retention policy prevents deletion: "
                      ++ AccessControl.retentionReason retention) reason) w)
        as (w1 & -> & Hs1 & _).
      unfold throw at 1. unfold bind.
      match goal with
      | |- context [AuditDeletions.logDataDeletion ctx ?p w1] =>
          destruct (logDataDeletion_run ctx p w1) as (w2 & -> & Hs2 & _)
      end.
      unfold throw.
      split; [intros _; now apply (delete_needs_admin contextWithHub (Some studentId))|].
      split; [tauto|]. split; [intros _ _ _; split; [reflexivity | congruence]|].
      intros _ [H|H]; congruence.
    + unfold bind at 1. unfold modify at 1. unfold bind at 1.
      match goal with
      | |- context [AuditDeletions.logDataDeletion contextWithHub ?p ?w0] =>
          destruct (logDataDeletion_run contextWithHub p w0) as (w1 & -> & Hs1 & _)
      end.
      unfold ret.
      split; [intros _; now apply (delete_needs_admin contextWithHub (Some studentId))|].
      split; [tauto|]. split.
      * intros _ Hret Hgdpr. rewrite Hret, Hgdpr in Hkeep. discriminate.
      * intros _ _. split; [eexists; split; reflexivity|].
        rewrite Hs1. cbn [students setStudents]. now rewrite Hid.
  - destruct (Hno Hg) as (msg & ->). unfold bind.
    match goal with
    | |- context [AuditDeletions.logDataDeletion ctx ?p w] =>
        destruct (logDataDeletion_run ctx p w) as (w1 & -> & Hs1 & _)
    end.
    unfold throw. split; [tauto|]. split; [|split; tauto].
    intros _. split; [now exists msg | exact Hs1].
Qed.

End DeletionFacts.

Lemma deleteStudentData_policy_witness :
  let granted :=
    accessGranted (Students.withHub Fixtures.adminContext (js "HUB-1"))
      (js "student") (js "delete") (Some (js "s-1")) in
  let retention :=
    AccessControl.shouldRetainData Date.utcZone (now Sample.world)
      AccessControl.student
      (Student.updatedAt Sample.amina) (Student.age Sample.amina) in
  let '(r, w') :=
    StudentAccounts.deleteStudentData Date.utcZone (js "s-1")
      (js "GDPR_REQUEST of the parents")
      Fixtures.adminContext Sample.world in
  (granted -> AccessControl.userType Fixtures.adminContext = AccessControl.admin)
  /\ (~ granted ->
      (exists msg, r = Thrown (ForbiddenException msg))
      /\ students w' = students Sample.world)
  /\ (granted -> AccessControl.retain retention = true ->
      StudentAccounts.strIncludes (js "GDPR_REQUEST of the parents")
        (js "GDPR_REQUEST") = false ->
      r = Thrown (BadRequestException
                    (js "Cannot delete: " ++ AccessControl.retentionReason retention))
      /\ students w' = students Sample.world)
  /\ (granted ->
      AccessControl.retain retention = false
      \/ StudentAccounts.strIncludes (js "GDPR_REQUEST of the parents")
           (js "GDPR_REQUEST") = true ->
      (exists d, r = Returned d /\ StudentAccounts.deleted d = true)
      /\ students w'
         = filter (fun s => negb (strEq (Student.id s) (js "s-1")))
             (students Sample.world)).
Proof.
  exact (deleteStudentData_policy Date.utcZone (js "s-1")
           (js "GDPR_REQUEST of the parents")
           Fixtures.adminContext Sample.world Sample.amina eq_refl).
Defined.

(** The sample student was last updated in 1970: an administrator may
    delete it for any reason, a system caller may not. *)
Example deleteStudentData_sample :
  students (snd (StudentAccounts.deleteStudentData Date.utcZone (js "s-1")
                   (js "left the school")
                   Fixtures.adminContext (setNow (Date.utc 2026 10 2 0) Sample.world)))
  = []
  /\ fst (StudentAccounts.deleteStudentData Date.utcZone (js "s-1")
            (js "left the school")
            Students.defaultContext Sample.world)
     = Thrown (ForbiddenException
                 (js "User type 'system' not allowed for student:delete")).
Proof. split; vm_compute; reflexivity. Qed.

(* ------------------------------------------------------------------ *)
(** ** StudentsService: creation *)

Section MonadFacts.

Lemma bind_returned {S A B : Type} (m : Eff S A) (k : A -> Eff S B)
  (s s' : S) (b : B) :
  bind m k s = (Returned b, s') ->
  exists a s1, m s = (Returned a, s1) /\ k a s1 = (Returned b, s').
Proof.
  unfold bind. destruct (m s) as [[a|e] s1]; [|discriminate].
  intros H. now exists a, s1.
Qed.

End MonadFacts.

(** What changes in the state outside the repositories: the random tape,
    the clock and the count of lookups. *)
Lemma uniqueStudentCodeLoop_frame (remaining attempts : nat) (w : World) :
  let '(r, w') :=
    Students.uniqueStudentCodeLoop remaining attempts (studentCodeLength attempts) w in
  students w' = students w /\ edgeHubs w' = edgeHubs w
  /\ devices w' = devices w /\ auditLogs w' = auditLogs w
  /\ forall code, r = Returned code ->
       ~ In code (studentCodes w)
       /\ Students.validateStudentCodeFormat code = true.
Proof.
  revert attempts w. induction remaining as [|remaining IH]; intros attempts w.
  - cbn [Students.uniqueStudentCodeLoop]. unfold throw. repeat split; discriminate.
  - cbn [Students.uniqueStudentCodeLoop]. unfold bind at 1. unfold random, zoom.
    assert (3 <= studentCodeLength attempts <= 6)%nat as Hvalid.
    { unfold studentCodeLength.
      destruct (attempts <? 5)%nat; [lia|]. destruct (attempts <? 10)%nat; lia. }
    destruct (generateStudentCode_returns (studentCodeLength attempts) (rng w) Hvalid)
      as (code & tape' & Hgen & Hlen & Hall & _).
    assert (Students.validateStudentCodeFormat code = true) as Hpat
      by (apply alphabet_matches_patterns; [now rewrite Hlen | exact Hall]).
    rewrite Hgen. unfold bind at 1. unfold Students.findByCode.
    cbn [students setRng countLookup].
    destruct (find (fun s => strEq (Student.studentCode s) code) (students w)) eqn:Hfind.
    + set (w1 := countLookup (setRng tape' w)).
      assert ((if (S attempts =? 5)%nat then 5%nat
               else if (S attempts =? 10)%nat then 6%nat
               else studentCodeLength attempts)
              = studentCodeLength (S attempts)) as Hnext.
      { unfold studentCodeLength.
        destruct (Nat.eqb_spec (S attempts) 5) as [->|H5]; [reflexivity|].
        destruct (Nat.eqb_spec (S attempts) 10) as [->|H10]; [reflexivity|].
        destruct (Nat.ltb_spec attempts 5), (Nat.ltb_spec (S attempts) 5);
          destruct (Nat.ltb_spec attempts 10), (Nat.ltb_spec (S attempts) 10);
          reflexivity || lia. }
      rewrite Hnext. unfold bind.
      set (w2 := snd ((if (3 <? S attempts)%nat
                       then sleep (10 * Z.of_nat (S attempts)) else ret tt) w1)).
      assert ((if (3 <? S attempts)%nat
               then sleep (10 * Z.of_nat (S attempts)) else ret tt) w1
              = (Returned tt, w2)) as Hsleep
        by (subst w2; now destruct (3 <? S attempts)%nat).
      rewrite Hsleep.
      assert (students w2 = students w /\ edgeHubs w2 = edgeHubs w
              /\ devices w2 = devices w /\ auditLogs w2 = auditLogs w)
        as (Hs & Hh & Hd & Ha)
        by (subst w2 w1; now destruct (3 <? S attempts)%nat).
      clear Hsleep. clearbody w2. clear w1.
      specialize (IH (S attempts) w2).
      destruct (Students.uniqueStudentCodeLoop remaining (S attempts)
                  (studentCodeLength (S attempts)) w2) as [r w'].
      destruct IH as (Hs' & Hh' & Hd' & Ha' & IH).
      repeat split; try congruence.
      * unfold studentCodes. rewrite <- Hs. now apply IH.
      * now apply IH.
    + unfold ret. cbn [students edgeHubs devices auditLogs setRng countLookup].
      repeat split.
      * injection H as <-. unfold studentCodes. now apply find_code_None.
      * injection H as <-. exact Hpat.
Qed.

Lemma isBlank_trim (s : jsstring) : Security.isBlank (trim s) = Security.isBlank s.
Proof.
  rewrite !isBlank_spec. unfold trim, trimEnd.
  now rewrite forallb_rev, forallb_trimStart, forallb_rev, forallb_trimStart.
Qed.

Section StudentCreation.

Variable cipher : AesGcm.
Variable key : list byte.

(** The decipher returns the plaintext of what the cipher produced. *)
Hypothesis cipher_opens : forall iv plaintext ct tag,
  gcmSeal cipher key iv Security.aad plaintext = Some (ct, tag) ->
  gcmOpen cipher key iv Security.aad tag ct = Some plaintext.

(** A stored token decrypts, to the text that was encrypted when that text
    is not blank. *)
Lemma decryptField_encrypted (x token : jsstring) (tape tape' : Tape) :
  Security.encrypt cipher key x tape = (Returned token, tape') ->
  exists v,
    Students.decryptField cipher key (Some token) = Returned v
    /\ (Security.isBlank x = false -> v = Some (utf8Decode (utf8Encode x))).
Proof.
  intros Henc. apply encrypt_returned in Henc.
  destruct Henc as [[Hblank ->] | (iv & tag & ct & Hseal & ->)].
  - unfold Students.decryptField. destruct x as [|c cs].
    + exists None. split; [reflexivity | congruence].
    + rewrite decrypt_blank by exact Hblank. cbn [fst].
      eexists. split; [reflexivity | congruence].
  - unfold Students.decryptField.
    destruct (toHex iv ++ 58 :: toHex tag ++ 58 :: toHex ct) as [|c cs] eqn:Htok.
    { destruct (toHex iv); discriminate. }
    rewrite <- Htok.
    change (toHex iv ++ 58 :: toHex tag ++ 58 :: toHex ct)
      with (toHex iv ++ js ":" ++ toHex tag ++ js ":" ++ toHex ct).
    rewrite decrypt_token, (cipher_opens _ _ _ _ Hseal). cbn [fst].
    eexists. split; reflexivity.
Qed.

Lemma encryptField_returned (f : jsstring -> jsstring) (x v : option jsstring)
  (w w1 : World) :
  f [] = [] ->
  Students.encryptField cipher key f x w = (Returned v, w1) ->
  students w1 = students w /\ edgeHubs w1 = edgeHubs w
  /\ auditLogs w1 = auditLogs w
  /\ exists first,
       Students.decryptField cipher key v = Returned first
       /\ forall text, x = Some text -> Security.isBlank (f text) = false ->
                       first = Some (utf8Decode (utf8Encode (f text))).
Proof.
  intros Hf. unfold Students.encryptField. destruct x as [[|c cs]|].
  - intros [= <- <-]. repeat split. exists None. split; [reflexivity|].
    intros text [= <-] H. now rewrite Hf in H.
  - intros H. apply bind_returned in H. destruct H as (token & w2 & Henc & H).
    injection H as <- <-. unfold random, zoom in Henc.
    destruct (Security.encrypt cipher key (f (c :: cs)) (rng w)) as [r tape'] eqn:E.
    injection Henc as -> <-. repeat split.
    destruct (decryptField_encrypted _ _ _ _ E) as (first & Hdec & Htext).
    exists first. split; [exact Hdec|].
    intros text [= <-]. exact Htext.
  - intros [= <- <-]. repeat split. exists None. split; [reflexivity | discriminate].
Qed.

Lemma newId_returned (w : World) :
  exists id w1,
    Students.newId w = (Returned id, w1)
    /\ students w1 = students w /\ edgeHubs w1 = edgeHubs w /\ now w1 = now w.
Proof.
  unfold Students.newId, bind, random, zoom.
  destruct (randomBytes_returns 16 (rng w)) as (buf & tape' & -> & _).
  unfold ret. eexists _, _. split; [reflexivity|]. repeat split.
Qed.

(** The handler of both methods never returns. *)
Lemma rethrowing_returned {A : Type} (body : Eff World A)
  (ctx : AccessControl.AccessContext) (act studentId hubId : jsstring)
  (w w' : World) (a : A) :
  tryCatch body
    (fun error =>
       bind (AuditLogger.logStudentDataAccess ctx
               (Students.failure act studentId hubId (message error)))
            (fun _ => throw error)) w
  = (Returned a, w') ->
  body w = (Returned a, w').
Proof.
  unfold tryCatch. destruct (body w) as [[x|e] w1]; [trivial|].
  unfold bind.
  destruct (logStudentDataAccess_run ctx
              (Students.failure act studentId hubId (message e)) w1) as (w2 & -> & _).
  discriminate.
Qed.

Lemma log_then_throw_returned {A : Type} (ctx : AccessControl.AccessContext)
  (params : AuditLogger.StudentAccess) (e : Exn) (w w' : World) (a : A) :
  bind (AuditLogger.logStudentDataAccess ctx params) (fun _ => throw e) w
  <> (Returned a, w').
Proof.
  unfold bind.
  destruct (logStudentDataAccess_run ctx params w) as (w2 & -> & _). discriminate.
Qed.

(** X14: when [createStudent] returns, the age was given and lies between
    3 and 18, the caller passed the access rule and the hub exists; one
    student was added to the repository, active, in that hub, under a code
    no other student has and that [validateStudentCode] accepts;
    looking the code up returns the student as [createStudent] returned
    it; and the first name, last name and metadata of that student are the
    trimmed first and last name and the metadata of the request, whenever
    these are not blank and are well-formed UTF-16. *)
Theorem createStudent_roundtrip (hubId : jsstring) (data : Students.StudentData)
  (ctx : AccessControl.AccessContext) (w w' : World) (s : Student.t) :
  Students.createStudent cipher key hubId data ctx w = (Returned s, w') ->
  exists stored,
    students w' = students w ++ [stored]
    /\ Student.hubId stored = hubId
    /\ Student.status stored = js "active"
    /\ ~ In (Student.studentCode stored) (studentCodes w)
    /\ (exists a, Students.age data = Some a /\ 3 <= a <= 18
                  /\ Student.age stored = Some a)
    /\ accessGranted (Students.withHub ctx hubId) (js "student") (js "create") None
    /\ In hubId (hubIds w)
    /\ fst (StudentAccounts.validateStudentCode (Student.studentCode stored) w')
       = Returned (Some stored)
    /\ fst (StudentAccounts.getStudentByCode cipher key (Student.studentCode stored) w')
       = Returned (Some s)
    /\ (forall name, Students.firstName data = Some name ->
          Security.isBlank name = false -> wellFormed (trim name) = true ->
          Student.firstName s = Some (trim name))
    /\ (forall name, Students.lastName data = Some name ->
          Security.isBlank name = false -> wellFormed (trim name) = true ->
          Student.lastName s = Some (trim name))
    /\ (forall text, Students.metadata data = Some text ->
          Security.isBlank text = false -> wellFormed text = true ->
          Student.metadata s = Some text).
Proof.
  intros H. unfold Students.createStudent in H.
  apply rethrowing_returned in H.
  apply bind_returned in H. destruct H as (flags & w0 & Henf & H).
  assert (accessGranted (Students.withHub ctx hubId) (js "student") (js "create") None
          /\ w0 = w) as [Hgranted ->].
  { destruct (enforceAccess_run World w (Students.withHub ctx hubId)
                (js "student") (js "create") None) as [Hyes Hno].
    unfold accessGranted in *.
    destruct (AccessControl.allowed _).
    - destruct (Hyes eq_refl) as (fl & Hrun). rewrite Hrun in Henf.
      now injection Henf as _ <-.
    - destruct (Hno ltac:(discriminate)) as (msg & Hrun). rewrite Hrun in Henf.
      discriminate. }
  clear Henf.
  apply bind_returned in H. destruct H as (w0 & w1 & Hget & H).
  injection Hget as <- <-.
  destruct (find (fun h => strEq (EdgeHub.hubId h) hubId) (edgeHubs w)) as [hub|] eqn:Hhub;
    [|now apply log_then_throw_returned in H].
  assert (In hubId (hubIds w)) as Hin.
  { apply find_some in Hhub. destruct Hhub as [Hh Heq]. apply strEq_eq in Heq.
    unfold hubIds. rewrite <- Heq. now apply in_map. }
  destruct (Students.ageOutOfRange (Students.age data)) eqn:Hrange;
    [now apply log_then_throw_returned in H|].
  destruct (negb (AccessControl.compliant
                    (AccessControl.validateStudentAge (Students.age data)))) eqn:Hcoppa;
    [now apply log_then_throw_returned in H|].
  assert (exists a, Students.age data = Some a /\ 3 <= a <= 18) as (a & Ha & Hbounds).
  { unfold Students.ageOutOfRange in Hrange.
    destruct (Students.age data) as [a|]; [|discriminate Hcoppa].
    exists a. split; [reflexivity|].
    apply orb_false_iff in Hrange. destruct Hrange as [H1 H2].
    apply Z.ltb_ge in H1, H2. lia. }
  apply bind_returned in H. destruct H as (w0 & w1 & Hget & H).
  injection Hget as <- <-.
  destruct (1000 <=? _); [now apply log_then_throw_returned in H|].
  apply bind_returned in H. destruct H as (studentCode & w1 & Hcode & H).
  pose proof (uniqueStudentCodeLoop_frame Students.maxAttempts 0 w) as Hloop.
  unfold Students.generateUniqueStudentCode in Hcode.
  change (studentCodeLength 0) with 4%nat in Hloop. rewrite Hcode in Hloop.
  destruct Hloop as (Hs1 & Hh1 & _ & _ & Hfresh).
  destruct (Hfresh studentCode eq_refl) as [Hnew Hformat]. clear Hfresh Hcode.
  apply bind_returned in H. destruct H as (v1 & w2 & He1 & H).
  apply encryptField_returned in He1; [|reflexivity].
  destruct He1 as (Hs2 & _ & _ & first & Hd1 & Hfirst).
  apply bind_returned in H. destruct H as (v2 & w3 & He2 & H).
  apply encryptField_returned in He2; [|reflexivity].
  destruct He2 as (Hs3 & _ & _ & last & Hd2 & Hlast).
  apply bind_returned in H. destruct H as (v3 & w4 & He3 & H).
  apply encryptField_returned in He3; [|reflexivity].
  destruct He3 as (Hs4 & _ & _ & meta & Hd3 & Hmeta).
  apply bind_returned in H. destruct H as (newStudentId & w5 & Hid & H).
  destruct (newId_returned w4) as (id' & w5' & Hid' & Hs5 & _).
  rewrite Hid' in Hid. injection Hid as <- <-.
  apply bind_returned in H. destruct H as (w0 & w6 & Hget & H).
  injection Hget as <- <-.
  apply bind_returned in H. destruct H as ([] & w6 & Hmod & H).
  unfold modify in Hmod. injection Hmod as <-.
  apply bind_returned in H. destruct H as ([] & w7 & Hlog & H).
  match type of Hlog with
  | AuditLogger.logStudentDataAccess ?c ?p ?w0 = _ =>
      destruct (logStudentDataAccess_run c p w0) as (w7' & Hlog' & Hs7 & _)
  end.
  rewrite Hlog' in Hlog. injection Hlog as <-.
  unfold ret in H. injection H as <- <-.
  match goal with
  | |- exists stored, students ?final = _ /\ _ => set (w' := final) in *
  end.
  cbn [students setStudents] in Hs7.
  match type of Hs7 with
  | _ = _ ++ [?st] => set (stored := st) in *
  end.
  assert (students w' = students w ++ [stored]) as Hstudents by congruence.
  assert (find (fun s => strEq (Student.studentCode s) studentCode
                         && strEq (Student.status s) (js "active")) (students w')
          = Some stored) as Hfound.
  { rewrite Hstudents. clear - Hnew. unfold studentCodes in Hnew.
    induction (students w) as [|x l IH]; cbn.
    - now rewrite strEq_refl.
    - cbn in Hnew.
      rewrite (proj2 (strEq_neq (Student.studentCode x) studentCode)) by tauto.
      cbn. apply IH. tauto. }
  assert (Students.decryptStudentData cipher key stored
          = Students.setDecrypted stored first last meta) as Hdec.
  { unfold Students.decryptStudentData. subst stored.
    cbn [Student.firstNameEncrypted Student.lastNameEncrypted
         Student.metadataEncrypted].
    now rewrite Hd1, Hd2, Hd3. }
  exists stored. split; [exact Hstudents|].
  split; [reflexivity|]. split; [reflexivity|]. split; [exact Hnew|].
  split.
  { exists a. split; [exact Ha|]. split; [exact Hbounds|].
    subst stored. cbn [Student.age]. rewrite Ha. destruct a; [lia | reflexivity..]. }
  split; [exact Hgranted|]. split; [exact Hin|].
  split.
  { unfold StudentAccounts.validateStudentCode. subst stored.
    cbn [Student.studentCode]. rewrite Hformat. cbn [negb].
    unfold StudentAccounts.findActiveByCode. cbn [fst]. now rewrite Hfound. }
  split.
  { unfold StudentAccounts.getStudentByCode, bind, StudentAccounts.findActiveByCode, ret.
    subst stored. cbn [Student.studentCode]. rewrite Hfound. reflexivity. }
  rewrite Hdec. cbn [Students.setDecrypted Student.firstName Student.lastName
                     Student.metadata].
  split; [|split].
  - intros name Hname Hblank Hwf.
    rewrite (Hfirst name Hname) by now rewrite isBlank_trim.
    now rewrite utf8_roundtrip.
  - intros name Hname Hblank Hwf.
    rewrite (Hlast name Hname) by now rewrite isBlank_trim.
    now rewrite utf8_roundtrip.
  - intros text Htext Hblank Hwf.
    rewrite (Hmeta text Htext) by exact Hblank.
    now rewrite utf8_roundtrip.
Qed.

End StudentCreation.

Lemma createStudent_roundtrip_witness :
  exists stored,
    students Fixtures.worldAfterCreate = students Sample.world ++ [stored]
    /\ Student.hubId stored = js "HUB-1"
    /\ Student.status stored = js "active"
    /\ ~ In (Student.studentCode stored) (studentCodes Sample.world)
    /\ (exists a, Students.age Fixtures.request = Some a /\ 3 <= a <= 18
                  /\ Student.age stored = Some a)
    /\ accessGranted (Students.withHub Students.defaultContext (js "HUB-1"))
         (js "student") (js "create") None
    /\ In (js "HUB-1") (hubIds Sample.world)
    /\ fst (StudentAccounts.validateStudentCode (Student.studentCode stored)
              Fixtures.worldAfterCreate)
       = Returned (Some stored)
    /\ fst (StudentAccounts.getStudentByCode ChecksumCipher.cipher []
              (Student.studentCode stored) Fixtures.worldAfterCreate)
       = Returned (Some Fixtures.createdStudent)
    /\ (forall name, Students.firstName Fixtures.request = Some name ->
          Security.isBlank name = false -> wellFormed (trim name) = true ->
          Student.firstName Fixtures.createdStudent = Some (trim name))
    /\ (forall name, Students.lastName Fixtures.request = Some name ->
          Security.isBlank name = false -> wellFormed (trim name) = true ->
          Student.lastName Fixtures.createdStudent = Some (trim name))
    /\ (forall text, Students.metadata Fixtures.request = Some text ->
          Security.isBlank text = false -> wellFormed text = true ->
          Student.metadata Fixtures.createdStudent = Some text).
Proof.
  apply (createStudent_roundtrip ChecksumCipher.cipher [] (checksum_opens [])
           (js "HUB-1") Fixtures.request Students.defaultContext Sample.world).
  vm_compute. reflexivity.
Defined.

(** The request above: the stored first name comes back trimmed. *)
Example createStudent_roundtrip_sample :
  Student.firstName Fixtures.createdStudent = Some (js "Amina")
  /\ Student.lastName Fixtures.createdStudent = Some (js "Diallo")
  /\ Student.studentCode Fixtures.createdStudent = js "AAAA".
Proof. vm_compute. repeat split. Qed.

(* ------------------------------------------------------------------ *)
(** ** StudentsService: creation in bulk *)

Section BulkFacts.

Import StoreVocabulary.

Variable cipher : AesGcm.
Variable key : list byte.
Variable uniqueViolation : Exn.

Lemma distinct_NoDup (codes : list jsstring) :
  Bulk.distinct codes = true <-> NoDup codes.
Proof.
  induction codes as [|c rest IH]; cbn.
  - split; [constructor | reflexivity].
  - rewrite andb_true_iff, negb_true_iff, IH. split.
    + intros [Hnot Hnd]. constructor; [|exact Hnd].
      intros Hin. apply includes_In in Hin. congruence.
    + intros Hnd. inversion Hnd as [|? ? Hnot Hnd']; subst. split; [|exact Hnd'].
      destruct (includes rest c) eqn:E; [|reflexivity].
      apply includes_In in E. contradiction.
Qed.

Lemma sameStores_refl (w : World) : sameStores w w.
Proof. repeat split. Qed.

Lemma sameStores_trans (w w1 w2 : World) :
  sameStores w w1 -> sameStores w1 w2 -> sameStores w w2.
Proof. unfold sameStores. intuition congruence. Qed.

Ltac sameStores :=
  first [ eassumption
        | apply sameStores_refl
        | eapply sameStores_trans; [eassumption | sameStores] ].

Lemma encryptField_stores (f : jsstring -> jsstring) (x : option jsstring) (w : World) :
  sameStores w (snd (Students.encryptField cipher key f x w)).
Proof.
  unfold Students.encryptField. destruct x as [[|c cs]|]; try apply sameStores_refl.
  unfold bind, random, zoom.
  destruct (Security.encrypt cipher key (f (c :: cs)) (rng w)) as [[v|e] t];
    repeat split.
Qed.

Lemma generateUniqueStudentCode_stores (hub : option jsstring) (w : World) :
  sameStores w (snd (Students.generateUniqueStudentCode hub w)).
Proof.
  unfold Students.generateUniqueStudentCode.
  pose proof (uniqueStudentCodeLoop_frame Students.maxAttempts 0 w) as H.
  change (studentCodeLength 0) with 4%nat in H.
  destruct (Students.uniqueStudentCodeLoop Students.maxAttempts 0 4 w) as [r w1].
  unfold sameStores. cbn [snd]. tauto.
Qed.

Lemma newId_stores (w : World) :
  exists id w1, Students.newId w = (Returned id, w1) /\ sameStores w w1.
Proof.
  unfold Students.newId, bind, random, zoom.
  destruct (randomBytes_returns 16 (rng w)) as (buf & tape' & -> & _).
  unfold ret. eexists _, _. split; [reflexivity|]. repeat split.
Qed.

(** The loop of [bulkCreateStudents] adds one new student per request, for
    the hub and active, and touches no repository. *)
Lemma createEach_run (hub : jsstring) (data : list Students.StudentData)
  (acc : list Bulk.NewStudent) (w : World) :
  let '(r, w1) := Bulk.createEach cipher key hub data acc w in
  sameStores w w1
  /\ forall out, r = Returned out ->
       exists added,
         out = acc ++ added /\ List.length added = List.length data
         /\ Forall (fun n => Bulk.hubId n = hub /\ Bulk.status n = js "active") added
         /\ Forall (fun d => Students.ageOutOfRange (Students.age d) = false) data.
Proof.
  revert acc w. induction data as [|d data IH]; intros acc w; cbn [Bulk.createEach].
  - unfold ret. split; [apply sameStores_refl|].
    intros out [= <-]. exists []. rewrite app_nil_r. repeat split; constructor.
  - destruct (Students.ageOutOfRange (Students.age d)) eqn:Hage.
    { unfold throw. split; [apply sameStores_refl | discriminate]. }
    unfold bind at 1.
    pose proof (generateUniqueStudentCode_stores (Some hub) w) as H1.
    destruct (Students.generateUniqueStudentCode (Some hub) w) as [[code|e] w1];
      cbn [snd] in H1; [|split; [exact H1 | discriminate]].
    unfold bind at 1.
    pose proof (encryptField_stores trim (Students.firstName d) w1) as H2.
    destruct (Students.encryptField cipher key trim (Students.firstName d) w1)
      as [[v1|e] w2]; cbn [snd] in H2;
      [|split; [sameStores | discriminate]].
    unfold bind at 1.
    pose proof (encryptField_stores trim (Students.lastName d) w2) as H3.
    destruct (Students.encryptField cipher key trim (Students.lastName d) w2)
      as [[v2|e] w3]; cbn [snd] in H3;
      [|split; [sameStores | discriminate]].
    unfold bind at 1.
    pose proof (encryptField_stores (fun x => x) (Students.metadata d) w3) as H4.
    destruct (Students.encryptField cipher key (fun x => x) (Students.metadata d) w3)
      as [[v3|e] w4]; cbn [snd] in H4;
      [|split; [sameStores | discriminate]].
    match goal with
    | |- context [Bulk.createEach cipher key hub data (acc ++ [?n]) w4] =>
        set (student := n); specialize (IH (acc ++ [student]) w4)
    end.
    destruct (Bulk.createEach cipher key hub data (acc ++ [student]) w4) as [r w5].
    destruct IH as [H5 IH]. split.
    + sameStores.
    + intros out Hout. destruct (IH out Hout) as (added & -> & Hlen & Hall & Hages).
      exists (student :: added). rewrite <- app_assoc. split; [reflexivity|].
      split; [cbn; now rewrite Hlen|]. split.
      * constructor; [now split | exact Hall].
      * now constructor.
Qed.

Lemma insertStudents_run (newStudents : list Bulk.NewStudent) (w : World) :
  exists rows w1,
    Bulk.insertStudents newStudents w = (Returned rows, w1)
    /\ sameStores w w1
    /\ map Student.studentCode rows = map Bulk.studentCode newStudents
    /\ map Student.hubId rows = map Bulk.hubId newStudents
    /\ map Student.status rows = map Bulk.status newStudents.
Proof.
  revert w. induction newStudents as [|n rest IH]; intros w; cbn [Bulk.insertStudents].
  - exists [], w. repeat split.
  - unfold bind at 1. unfold Bulk.insertStudent, bind at 1.
    destruct (newId_stores w) as (id & w1 & -> & H1).
    unfold bind at 1. unfold get, ret. unfold bind.
    destruct (IH w1) as (rows & w2 & -> & H2 & Hc & Hh & Hs).
    eexists _, w2. split; [reflexivity|].
    split; [sameStores|].
    cbn [map Student.studentCode Student.hubId Student.status].
    now rewrite Hc, Hh, Hs.
Qed.

(** X15: [bulkCreateStudents] stores all the students of a request or
    none: when it throws, the repository is as before (an unknown hub gives
    [NotFoundException], more than 100 requests [BadRequestException]
    before any code is generated); when it returns, one student per
    request was added, active and in the hub, under codes that differ from
    each other and from every code stored before, every age given lies
    between 3 and 18, and the hub holds at most 1000 students.  No audit
    entry is written either way. *)
Theorem bulkCreateStudents_all_or_nothing (hub : jsstring)
  (data : list Students.StudentData) (w : World) :
  let '(r, w') := Bulk.bulkCreateStudents cipher key uniqueViolation hub data w in
  auditLogs w' = auditLogs w
  /\ match r with
     | Thrown e =>
         students w' = students w
         /\ (~ In hub (hubIds w) -> e = NotFoundException (js "Hub not found"))
         /\ (In hub (hubIds w) -> (100 < List.length data)%nat ->
             e = BadRequestException
                   (js "Cannot create more than 100 students at once")
             /\ codeLookups w' = codeLookups w)
     | Returned created =>
         exists stored,
           students w' = students w ++ stored
           /\ created = map (Students.decryptStudentData cipher key) stored
           /\ List.length stored = List.length data
           /\ Forall (fun s => Student.hubId s = hub
                               /\ Student.status s = js "active"
                               /\ ~ In (Student.studentCode s) (studentCodes w))
                stored
           /\ NoDup (map Student.studentCode stored)
           /\ Forall (fun d => Students.ageOutOfRange (Students.age d) = false) data
           /\ (studentsOfHub hub w' <= 1000)%nat
     end.
Proof.
  unfold Bulk.bulkCreateStudents, bind at 1. unfold get at 1.
  destruct (find (fun h => strEq (EdgeHub.hubId h) hub) (edgeHubs w)) as [h|] eqn:Hhub.
  2:{ unfold throw. split; [reflexivity|]. split; [reflexivity|].
      split; [reflexivity|]. intros Hin. apply find_code_None in Hhub.
      contradiction. }
  assert (In hub (hubIds w)) as Hin.
  { apply find_some in Hhub. destruct Hhub as [Hh Heq]. apply strEq_eq in Heq.
    unfold hubIds. rewrite <- Heq. now apply in_map. }
  destruct (Nat.ltb_spec 100 (List.length data)) as [Hmany|Hfew].
  { unfold throw. split; [reflexivity|]. split; [reflexivity|].
    split; [tauto|]. now split. }
  destruct (Nat.ltb_spec 1000
              (List.length (filter (fun s => strEq (Student.hubId s) hub) (students w))
               + List.length data)) as [Hfull|Hroom].
  { unfold throw. split; [reflexivity|]. split; [reflexivity|].
    split; [tauto|]. intros _ H. lia. }
  unfold bind at 1.
  pose proof (createEach_run hub data [] w) as Hloop.
  destruct (Bulk.createEach cipher key hub data [] w) as [[drafts|e] w1];
    destruct Hloop as [(Hs1 & _ & _ & Ha1) Hout].
  2:{ split; [exact Ha1|]. split; [exact Hs1|]. split; [tauto|]. intros _ H. lia. }
  destruct (Hout drafts eq_refl) as (added & Hadded & Hlen & Hall & Hages).
  cbn [app] in Hadded. subst added. clear Hout.
  unfold bind at 1. unfold Bulk.saveStudents, bind at 1. unfold get at 1.
  destruct (Bulk.distinct (map Student.studentCode (students w1)
                           ++ map Bulk.studentCode drafts)) eqn:Hdistinct.
  2:{ unfold throw. split; [exact Ha1|]. split; [exact Hs1|]. split; [tauto|].
      intros _ H. lia. }
  apply distinct_NoDup in Hdistinct.
  unfold bind at 1.
  destruct (insertStudents_run drafts w1)
    as (rows & w2 & -> & (Hs2 & _ & _ & Ha2) & Hcodes & Hhubs & Hstatus).
  unfold bind, modify, ret. cbn [auditLogs students setStudents].
  split; [congruence|].
  exists rows. rewrite Hs2, Hs1. split; [reflexivity|]. split; [reflexivity|].
  assert (List.length rows = List.length data) as Hrows.
  { rewrite <- Hlen, <- (length_map Bulk.studentCode drafts), <- Hcodes.
    now rewrite length_map. }
  split; [exact Hrows|].
  rewrite Hs1, <- Hcodes in Hdistinct.
  assert (Forall (fun s => Student.hubId s = hub /\ Student.status s = js "active") rows)
    as Hrowsall.
  { clear - Hall Hhubs Hstatus. revert rows Hhubs Hstatus.
    induction Hall as [|n drafts [Hh Hst] Hall IH]; intros [|r rows] Hhubs Hstatus;
      try discriminate; constructor.
    - cbn in Hhubs, Hstatus. injection Hhubs as Hh' _. injection Hstatus as Hs' _.
      split; congruence.
    - cbn in Hhubs, Hstatus. injection Hhubs as _ Hh'. injection Hstatus as _ Hs'.
      now apply IH. }
  split.
  { apply Forall_forall. intros s Hs. rewrite Forall_forall in Hrowsall.
    destruct (Hrowsall s Hs) as [Hh Hst]. repeat split; try assumption.
    intros Hold. apply NoDup_app_remove_l in Hdistinct as Hnd.
    unfold studentCodes in Hold.
    assert (In (Student.studentCode s) (map Student.studentCode rows)) as Hnew
      by now apply in_map.
    clear - Hdistinct Hold Hnew.
    induction (map Student.studentCode (students w)) as [|c l IH]; [destruct Hold|].
    cbn in Hdistinct. inversion Hdistinct as [|? ? Hnot Hrest]; subst.
    destruct Hold as [->|Hold].
    - apply Hnot. apply in_or_app. now right.
    - now apply IH. }
  split; [now apply NoDup_app_remove_l in Hdistinct|].
  split; [exact Hages|].
  unfold studentsOfHub. cbn [students setStudents].
  rewrite filter_app, length_app.
  rewrite (filter_all _ rows).
  - lia.
  - eapply Forall_impl; [|exact Hrowsall]. cbn. intros s [Hh _].
    rewrite Hh. apply strEq_refl.
Qed.

End BulkFacts.

(** A request without an age, which [createStudent] refuses, goes through
    in bulk. *)
Example bulkCreateStudents_sample :
  let duplicate := Error (js "duplicate key value violates unique constraint") in
  let '(r, w') :=
    Bulk.bulkCreateStudents ChecksumCipher.cipher [] duplicate (js "HUB-1")
      [ {| Students.firstName := Some (js "Kofi"); Students.lastName := None;
           Students.grade := None; Students.age := None;
           Students.metadata := None; Students.status := None |} ]
      Sample.world in
  match r with
  | Returned [created] =>
      Student.firstName created = Some (js "Kofi")
      /\ Student.age created = None
      /\ Student.studentCode created = js "AAAA"
      /\ List.length (students w') = 2%nat
  | _ => False
  end.
Proof. vm_compute. repeat split. Qed.

(* ------------------------------------------------------------------ *)
(** ** DevicesService: creation of devices *)

Section DeviceCreation.

Import StoreVocabulary.

Variable uniqueViolation : Exn.

(** The loop of [createDevicesForHub] adds one pending device of the hub
    per round, with a code of 6 to 8 characters, and stores nothing. *)
Lemma createDevices_run (hub : jsstring) (rounds : nat)
  (acc : list Bulk.NewDevice) (w : World) :
  let '(r, w1) := Bulk.createDevices hub rounds acc w in
  devices w1 = devices w
  /\ forall out, r = Returned out ->
       exists added,
         out = acc ++ added /\ List.length added = rounds
         /\ Forall (fun n => Bulk.deviceHubId n = hub
                             /\ Bulk.deviceStatus n = js "pending"
                             /\ (6 <= List.length (Bulk.deviceCode n) <= 8)%nat)
              added.
Proof.
  revert acc w. induction rounds as [|rounds IH]; intros acc w; cbn [Bulk.createDevices].
  - unfold ret. split; [reflexivity|]. intros out [= <-]. exists [].
    rewrite app_nil_r. repeat split. constructor.
  - unfold bind at 1. unfold Devices.generateUniqueDeviceCode.
    pose proof (uniqueDeviceCodeLoop_run Devices.maxAttempts 0 6 w) as H1.
    destruct (Devices.uniqueDeviceCodeLoop Devices.maxAttempts 0 6 w) as [[code|e] w1];
      destruct H1 as [Hd1 H1]; [|split; [exact Hd1 | discriminate]].
    destruct H1 as (_ & k & _ & _ & Hlen).
    match goal with
    | |- context [Bulk.createDevices hub rounds (acc ++ [?n]) w1] =>
        set (device := n); specialize (IH (acc ++ [device]) w1)
    end.
    destruct (Bulk.createDevices hub rounds (acc ++ [device]) w1) as [r w2].
    destruct IH as [Hd2 IH]. split; [congruence|].
    intros out Hout. destruct (IH out Hout) as (added & -> & Hl & Hall).
    exists (device :: added). rewrite <- app_assoc. split; [reflexivity|].
    split; [cbn; now rewrite Hl|]. constructor; [|exact Hall].
    split; [reflexivity | split; [reflexivity | exact Hlen]].
Qed.

Lemma insertDevices_run (newDevices : list Bulk.NewDevice) (w : World) :
  exists rows w1,
    Bulk.insertDevices newDevices w = (Returned rows, w1)
    /\ devices w1 = devices w
    /\ map Device.deviceCode rows = map Bulk.deviceCode newDevices
    /\ map Device.hubId rows = map Bulk.deviceHubId newDevices
    /\ map Device.status rows = map Bulk.deviceStatus newDevices.
Proof.
  revert w. induction newDevices as [|n rest IH]; intros w; cbn [Bulk.insertDevices].
  - exists [], w. repeat split.
  - unfold bind at 1. unfold Bulk.insertDevice, bind at 1.
    destruct (newId_stores w) as (id & w1 & -> & (_ & _ & Hd1 & _)).
    unfold ret. unfold bind.
    destruct (IH w1) as (rows & w2 & -> & Hd2 & Hc & Hh & Hs).
    eexists _, w2. split; [reflexivity|]. split; [congruence|].
    cbn [map Device.deviceCode Device.hubId Device.status].
    now rewrite Hc, Hh, Hs.
Qed.

(** Two lists with the same projections satisfy the same property of
    those projections. *)
Lemma Forall_by_maps {A B : Type} (P : jsstring -> jsstring -> jsstring -> Prop)
  (f1 f2 f3 : A -> jsstring) (g1 g2 g3 : B -> jsstring)
  (rows : list A) (drafts : list B) :
  map f1 rows = map g1 drafts -> map f2 rows = map g2 drafts ->
  map f3 rows = map g3 drafts ->
  Forall (fun n => P (g1 n) (g2 n) (g3 n)) drafts ->
  Forall (fun r => P (f1 r) (f2 r) (f3 r)) rows.
Proof.
  intros H1 H2 H3 Hall. revert rows H1 H2 H3.
  induction Hall as [|n drafts Hn Hall IH]; intros [|r rows] H1 H2 H3;
    try discriminate; constructor.
  - cbn in H1, H2, H3. injection H1 as -> _. injection H2 as -> _.
    injection H3 as -> _. exact Hn.
  - cbn in H1, H2, H3. injection H1 as _ H1. injection H2 as _ H2.
    injection H3 as _ H3. now apply IH.
Qed.

Lemma NoDup_app_disjoint {A : Type} (l l' : list A) (x : A) :
  NoDup (l ++ l') -> In x l' -> ~ In x l.
Proof.
  induction l as [|c l IH]; cbn; [tauto|].
  intros Hnd Hin [->|Hold]; inversion Hnd as [|? ? Hnot Hrest]; subst.
  - apply Hnot. apply in_or_app. now right.
  - now apply (IH Hrest Hin).
Qed.

(** X16: [createDevicesForHub] stores all the devices asked for or none:
    when it throws, the repository is as before (an unknown hub gives
    [NotFoundException], a count outside 1 to 100 or a total above 500
    gives [BadRequestException] before any code is generated); when it
    returns, exactly [deviceCount] devices were added, pending and in the
    hub, under codes of 6 to 8 characters that differ from each other and
    from every code stored before, and the hub holds at most 500
    devices. *)
Theorem createDevicesForHub_all_or_nothing (hub : jsstring) (deviceCount : Z)
  (w : World) :
  let '(r, w') := Bulk.createDevicesForHub uniqueViolation hub deviceCount w in
  match r with
  | Thrown e =>
      devices w' = devices w
      /\ (~ In hub (hubIds w) -> e = NotFoundException (js "Hub not found"))
      /\ (In hub (hubIds w) -> deviceCount < 1 \/ 100 < deviceCount ->
          e = BadRequestException (js "Device count must be between 1 and 100")
          /\ codeLookups w' = codeLookups w)
      /\ (In hub (hubIds w) -> 1 <= deviceCount <= 100 ->
          500 < Z.of_nat (devicesOfHub hub w) + deviceCount ->
          e = BadRequestException (js "Total device count per hub cannot exceed 500")
          /\ codeLookups w' = codeLookups w)
  | Returned created =>
      1 <= deviceCount <= 100
      /\ devices w' = devices w ++ created
      /\ Z.of_nat (List.length created) = deviceCount
      /\ Forall (fun d => Device.hubId d = hub
                          /\ Device.status d = js "pending"
                          /\ (6 <= List.length (Device.deviceCode d) <= 8)%nat)
           created
      /\ (forall d, In d created -> ~ In (Device.deviceCode d) (deviceCodes w))
      /\ NoDup (map Device.deviceCode created)
      /\ (devicesOfHub hub w' <= 500)%nat
  end.
Proof.
  unfold Bulk.createDevicesForHub, bind at 1. unfold get at 1.
  destruct (find (fun h => strEq (EdgeHub.hubId h) hub) (edgeHubs w)) as [h|] eqn:Hhub.
  2:{ unfold throw. split; [reflexivity|]. split; [reflexivity|].
      apply find_code_None in Hhub. split; intros Hin; contradiction. }
  assert (In hub (hubIds w)) as Hin.
  { apply find_some in Hhub. destruct Hhub as [Hh Heq]. apply strEq_eq in Heq.
    unfold hubIds. rewrite <- Heq. now apply in_map. }
  fold (devicesOfHub hub w).
  destruct ((deviceCount <? 1) || (100 <? deviceCount)) eqn:Hcount.
  { apply orb_prop in Hcount. unfold throw. split; [reflexivity|].
    split; [tauto|]. split; [now split|].
    intros _ Hok _. destruct Hcount as [H|H];
      [apply Z.ltb_lt in H | apply Z.ltb_lt in H]; lia. }
  apply orb_false_iff in Hcount. destruct Hcount as [Hlo Hhi].
  apply Z.ltb_ge in Hlo, Hhi.
  destruct (Z.ltb_spec 500 (Z.of_nat (devicesOfHub hub w) + deviceCount)) as [Hfull|Hroom].
  { unfold throw. split; [reflexivity|]. split; [tauto|].
    split; [intros _ [H|H]; lia | now split]. }
  unfold bind at 1.
  pose proof (createDevices_run hub (Z.to_nat deviceCount) [] w) as Hloop.
  destruct (Bulk.createDevices hub (Z.to_nat deviceCount) [] w) as [[drafts|e] w1];
    destruct Hloop as [Hd1 Hout].
  2:{ split; [exact Hd1|]. split; [tauto|]. split; intros; lia. }
  destruct (Hout drafts eq_refl) as (added & Hadded & Hlen & Hall).
  cbn [app] in Hadded. subst added. clear Hout.
  unfold Bulk.saveDevices, bind at 1. unfold get at 1.
  destruct (Bulk.distinct (map Device.deviceCode (devices w1)
                           ++ map Bulk.deviceCode drafts)) eqn:Hdistinct.
  2:{ unfold throw. split; [exact Hd1|]. split; [tauto|]. split; intros; lia. }
  apply distinct_NoDup in Hdistinct.
  unfold bind at 1.
  destruct (insertDevices_run drafts w1) as (rows & w2 & -> & Hd2 & Hcodes & Hhubs & Hst).
  unfold bind, modify, ret. cbn [devices].
  rewrite Hd2, Hd1. rewrite Hd1, <- Hcodes in Hdistinct.
  assert (List.length rows = Z.to_nat deviceCount) as Hrows.
  { rewrite <- Hlen, <- (length_map Bulk.deviceCode drafts), <- Hcodes.
    now rewrite length_map. }
  assert (Forall (fun d => Device.hubId d = hub /\ Device.status d = js "pending"
                           /\ (6 <= List.length (Device.deviceCode d) <= 8)%nat) rows)
    as Hrowsall.
  { apply (Forall_by_maps
             (fun h s c => h = hub /\ s = js "pending" /\ (6 <= List.length c <= 8)%nat)
             Device.hubId Device.status Device.deviceCode
             Bulk.deviceHubId Bulk.deviceStatus Bulk.deviceCode rows drafts);
      assumption. }
  split; [lia|]. split; [reflexivity|]. split; [lia|]. split; [exact Hrowsall|].
  split.
  { intros d Hd. apply (NoDup_app_disjoint _ _ _ Hdistinct). now apply in_map. }
  split; [now apply NoDup_app_remove_l in Hdistinct|].
  unfold devicesOfHub in *. cbn [devices].
  rewrite filter_app, length_app, (filter_all _ rows).
  - lia.
  - eapply Forall_impl; [|exact Hrowsall]. cbn. intros d [Hh _].
    rewrite Hh. apply strEq_refl.
Qed.

End DeviceCreation.

(** Two devices for the sample hub, with a tape that gives the codes AAAAAA
    and BAAAAA; and the same request with a tape of zeros, which generates
    AAAAAA twice: the second code is not stored yet when it is checked, and
    the insert fails on the unique constraint. *)
Example createDevicesForHub_sample :
  let tape := tapeOf (repeat 0 14 ++ [1]) in
  let duplicate := Error (js "duplicate key value violates unique constraint") in
  match fst (Bulk.createDevicesForHub duplicate (js "HUB-1") 2
               (setRng tape Sample.world)) with
  | Returned created =>
      map Device.deviceCode created = [js "AAAAAA"; js "BAAAAA"]
  | Thrown _ => False
  end
  /\ Bulk.createDevicesForHub duplicate (js "HUB-1") 2 Sample.world
     = (Thrown duplicate, snd (Bulk.createDevicesForHub duplicate (js "HUB-1") 2
                                 Sample.world))
  /\ devices (snd (Bulk.createDevicesForHub duplicate (js "HUB-1") 2 Sample.world))
     = [].
Proof. cbv zeta. split; [|split]; vm_compute; reflexivity. Qed.

(* ------------------------------------------------------------------ *)
(** ** StudentsService: updates *)

Section StudentUpdate.

Variable cipher : AesGcm.
Variable key : list byte.

(** The ORM's choice of [updatedAt] on [save]. *)
Variable stamp : World -> Student.t -> Z.

(** The decipher returns the plaintext of what the cipher produced. *)
Hypothesis cipher_opens : forall iv plaintext ct tag,
  gcmSeal cipher key iv Security.aad plaintext = Some (ct, tag) ->
  gcmOpen cipher key iv Security.aad tag ct = Some plaintext.

(** One of the three encrypted columns after [updateStudent]'s
    assignments: the stored token when the field is not provided, the
    token of the new text otherwise. *)
Lemma updated_column (f : jsstring -> jsstring) (x old v : option jsstring)
  (w w1 : World) :
  f [] = [] ->
  match x with
  | Some text => Students.encryptField cipher key f (Some text)
  | None => ret old
  end w = (Returned v, w1) ->
  students w1 = students w /\ now w1 = now w
  /\ (x = None -> v = old)
  /\ forall text, x = Some text ->
       exists plain,
         Students.decryptField cipher key v = Returned plain
         /\ (Security.isBlank (f text) = false ->
             plain = Some (utf8Decode (utf8Encode (f text)))).
Proof.
  intros Hf. destruct x as [text|].
  - intros H.
    assert (now w1 = now w) as Hnow.
    { unfold Students.encryptField in H. destruct text as [|c cs].
      - now injection H as _ <-.
      - apply bind_returned in H. destruct H as (tok & w2 & Henc & H).
        injection H as _ <-. unfold random, zoom in Henc.
        destruct (Security.encrypt cipher key (f (c :: cs)) (rng w)) as [r t].
        now injection Henc as _ <-. }
    apply (encryptField_returned cipher key cipher_opens) in H; [|exact Hf].
    destruct H as (Hs & _ & _ & plain & Hdec & Hplain).
    split; [exact Hs|]. split; [exact Hnow|]. split; [discriminate|].
    intros text' [= <-]. exists plain. split; [exact Hdec|]. now apply Hplain.
  - intros [= <- <-]. repeat split. discriminate.
Qed.

(** X17: when [updateStudent] returns, the student existed, the caller
    passed the rule for updating student data and a provided age lies
    between 3 and 18; the row of the student, and no other, was replaced:
    id, hub, code and creation date are as before, grade, age and status
    are the provided values or else the old ones, and an encrypted column
    whose field was not provided is as before; and the returned student
    carries the trimmed first name of the request whenever that is not
    blank and is well-formed UTF-16.  This holds whatever the ORM writes
    into [updatedAt]. *)
Theorem updateStudent_roundtrip (studentId : jsstring) (data : Students.StudentData)
  (ctx : AccessControl.AccessContext) (w w' : World) (s : Student.t) :
  Students.updateStudent cipher key stamp studentId data ctx w = (Returned s, w') ->
  exists old saved,
    find (fun x => strEq (Student.id x) studentId) (students w) = Some old
    /\ accessGranted (Students.withHub ctx (Student.hubId old))
         (js "student") (js "update") (Some studentId)
    /\ (forall a, Students.age data = Some a -> 3 <= a <= 18)
    /\ students w'
       = map (fun x => if strEq (Student.id x) studentId then saved else x) (students w)
    /\ Student.id saved = studentId
    /\ Student.hubId saved = Student.hubId old
    /\ Student.studentCode saved = Student.studentCode old
    /\ Student.createdAt saved = Student.createdAt old
    /\ Student.age saved = match Students.age data with
                           | Some a => Some a
                           | None => Student.age old
                           end
    /\ Student.status saved = match Students.status data with
                              | Some st => st
                              | None => Student.status old
                              end
    /\ Student.grade saved = match Students.grade data with
                             | Some g => Students.trimmedOrNull (Some g)
                             | None => Student.grade old
                             end
    /\ (Students.firstName data = None ->
        Student.firstNameEncrypted saved = Student.firstNameEncrypted old)
    /\ (Students.lastName data = None ->
        Student.lastNameEncrypted saved = Student.lastNameEncrypted old)
    /\ (Students.metadata data = None ->
        Student.metadataEncrypted saved = Student.metadataEncrypted old)
    /\ Student.id s = studentId /\ Student.studentCode s = Student.studentCode old
    /\ (forall name, Students.firstName data = Some name ->
          Security.isBlank name = false -> wellFormed (trim name) = true ->
          Student.firstName s = Some (trim name)).
Proof.
  intros H. unfold Students.updateStudent in H.
  apply rethrowing_returned in H.
  apply bind_returned in H. destruct H as (w0 & w1 & Hget & H).
  injection Hget as <- <-.
  destruct (find (fun x => strEq (Student.id x) studentId) (students w))
    as [old|] eqn:Hfind; [|discriminate].
  destruct (find_id _ _ _ Hfind) as [Hid _].
  apply bind_returned in H. destruct H as (flags & w0 & Henf & H).
  assert (accessGranted (Students.withHub ctx (Student.hubId old))
            (js "student") (js "update") (Some studentId) /\ w0 = w) as [Hgranted ->].
  { destruct (enforceAccess_run World w (Students.withHub ctx (Student.hubId old))
                (js "student") (js "update") (Some studentId)) as [Hyes Hno].
    unfold accessGranted in *.
    destruct (AccessControl.allowed _).
    - destruct (Hyes eq_refl) as (fl & Hrun). rewrite Hrun in Henf.
      now injection Henf as _ <-.
    - destruct (Hno ltac:(discriminate)) as (msg & Hrun). rewrite Hrun in Henf.
      discriminate. }
  clear Henf.
  destruct (Students.ageOutOfRange (Students.age data)) eqn:Hrange;
    [now apply log_then_throw_returned in H|].
  match type of H with
  | (if ?c then _ else _) _ = _ =>
      destruct c; [now apply log_then_throw_returned in H|]
  end.
  apply bind_returned in H. destruct H as ([updated fields] & w1 & Hupd & H).
  unfold Students.applyUpdate in Hupd.
  apply bind_returned in Hupd. destruct Hupd as (v1 & w2 & He1 & Hupd).
  apply updated_column in He1; [|reflexivity].
  destruct He1 as (Hs1 & Hn1 & Hold1 & Hnew1).
  apply bind_returned in Hupd. destruct Hupd as (v2 & w3 & He2 & Hupd).
  apply updated_column in He2; [|reflexivity].
  destruct He2 as (Hs2 & Hn2 & Hold2 & Hnew2).
  apply bind_returned in Hupd. destruct Hupd as (v3 & w4 & He3 & Hupd).
  apply updated_column in He3; [|reflexivity].
  destruct He3 as (Hs3 & Hn3 & Hold3 & Hnew3).
  unfold ret in Hupd. injection Hupd as <- _ <-.
  cbn [fst] in H.
  apply bind_returned in H. destruct H as (savedStudent & w5 & Hsave & H).
  unfold Students.saveExisting, bind, get, modify, ret in Hsave.
  injection Hsave as <- <-.
  apply bind_returned in H. destruct H as ([] & w6 & Hlog & H).
  match type of Hlog with
  | AuditLogger.logStudentDataAccess ?c ?p ?w0 = _ =>
      destruct (logStudentDataAccess_run c p w0) as (w6' & Hlog' & Hs6 & _)
  end.
  rewrite Hlog' in Hlog. injection Hlog as <-.
  unfold ret in H. injection H as <- <-.
  cbn [students setStudents Student.id] in Hs6.
  match type of Hs6 with
  | _ = map (fun x => if _ then ?sv else x) _ => set (saved := sv) in *
  end.
  exists old, saved.
  split; [reflexivity|]. split; [exact Hgranted|].
  split.
  { intros a Ha. rewrite Ha in Hrange. cbn in Hrange.
    apply orb_false_iff in Hrange. destruct Hrange as [H1 H2].
    apply Z.ltb_ge in H1, H2. lia. }
  split; [rewrite Hs6, Hs3, Hs2, Hs1, Hid; reflexivity|].
  split; [exact Hid|]. split; [reflexivity|]. split; [reflexivity|].
  split; [reflexivity|].
  split; [reflexivity|]. split; [reflexivity|]. split; [reflexivity|].
  split; [exact Hold1|]. split; [exact Hold2|]. split; [exact Hold3|].
  destruct (decryptStudentData_stored cipher key saved) as (Hi & _ & Hc & _).
  split; [now rewrite Hi|]. split; [now rewrite Hc|].
  intros name Hname Hblank Hwf.
  destruct (Hnew1 name Hname) as (plain & Hdec & Hplain).
  rewrite Hplain in Hdec by now rewrite isBlank_trim.
  rewrite utf8_roundtrip in Hdec by exact Hwf.
  unfold Students.decryptStudentData. subst saved.
  cbn [Student.firstNameEncrypted Student.lastNameEncrypted Student.metadataEncrypted].
  rewrite Hdec.
  destruct (Students.decryptField cipher key v2);
    [destruct (Students.decryptField cipher key v3)|]; reflexivity.
Qed.

End StudentUpdate.

Lemma updateStudent_roundtrip_witness :
  exists old saved,
    find (fun x => strEq (Student.id x) (js "s-1")) (students Sample.world)
    = Some old
    /\ accessGranted (Students.withHub Students.defaultContext (Student.hubId old))
         (js "student") (js "update") (Some (js "s-1"))
    /\ (forall a, Students.age Fixtures.updateRequest = Some a -> 3 <= a <= 18)
    /\ students Fixtures.worldAfterUpdate
       = map (fun x => if strEq (Student.id x) (js "s-1") then saved else x)
           (students Sample.world)
    /\ Student.id saved = js "s-1"
    /\ Student.hubId saved = Student.hubId old
    /\ Student.studentCode saved = Student.studentCode old
    /\ Student.createdAt saved = Student.createdAt old
    /\ Student.age saved = match Students.age Fixtures.updateRequest with
                           | Some a => Some a
                           | None => Student.age old
                           end
    /\ Student.status saved = match Students.status Fixtures.updateRequest with
                              | Some st => st
                              | None => Student.status old
                              end
    /\ Student.grade saved = match Students.grade Fixtures.updateRequest with
                             | Some g => Students.trimmedOrNull (Some g)
                             | None => Student.grade old
                             end
    /\ (Students.firstName Fixtures.updateRequest = None ->
        Student.firstNameEncrypted saved = Student.firstNameEncrypted old)
    /\ (Students.lastName Fixtures.updateRequest = None ->
        Student.lastNameEncrypted saved = Student.lastNameEncrypted old)
    /\ (Students.metadata Fixtures.updateRequest = None ->
        Student.metadataEncrypted saved = Student.metadataEncrypted old)
    /\ Student.id Fixtures.updatedStudent = js "s-1"
    /\ Student.studentCode Fixtures.updatedStudent = Student.studentCode old
    /\ (forall name, Students.firstName Fixtures.updateRequest = Some name ->
          Security.isBlank name = false -> wellFormed (trim name) = true ->
          Student.firstName Fixtures.updatedStudent = Some (trim name)).
Proof.
  apply (updateStudent_roundtrip ChecksumCipher.cipher [] Sample.clockStamp
           (checksum_opens [])
           (js "s-1") Fixtures.updateRequest Students.defaultContext Sample.world).
  vm_compute. reflexivity.
Defined.

(** The request above: the name and the grade come back trimmed, the age
    stays. *)
Example updateStudent_roundtrip_sample :
  Student.firstName Fixtures.updatedStudent = Some (js "Mina")
  /\ Student.grade Fixtures.updatedStudent = Some (js "5")
  /\ Student.age Fixtures.updatedStudent = Some 10.
Proof. vm_compute. repeat split. Qed.

(* ------------------------------------------------------------------ *)
(** ** The audit trail of student data *)

Section AccessTrail.

Import AuditQueries AuditVocabulary.

Variable cipher : AesGcm.
Variable key : list byte.

(** X18: on a buffer with room, [logStudentDataAccess] appends one entry,
    stamped with the current time, for resource 'student' and the given
    student, flagged as sensitive data under COPPA and GDPR; afterwards
    every query of [getAuditLogs] whose filters the entry passes counts
    exactly one entry more, and every other query counts what it counted
    before. *)
Theorem student_access_is_reported (ctx : AccessControl.AccessContext)
  (params : AuditLogger.StudentAccess) (w : World) :
  hasRoom 1 w ->
  exists w' stored,
    AuditLogger.logStudentDataAccess ctx params w = (Returned tt, w')
    /\ auditLogs w' = auditLogs w ++ [stored]
    /\ AuditEntry.timestamp stored = now w
    /\ AuditEntry.resource stored = js "student"
    /\ AuditEntry.resourceId stored = Some (AuditLogger.studentId params)
    /\ AuditEntry.hubId stored = Some (AuditLogger.accessHubId params)
    /\ AuditEntry.success stored = AuditLogger.accessSuccess params
    /\ AuditEntry.sensitiveData stored = Some true
    /\ AuditEntry.complianceFlags stored = Some [js "COPPA"; js "GDPR"]
    /\ forall filters page page',
         fst (getAuditLogs filters w) = Returned page ->
         fst (getAuditLogs filters w') = Returned page' ->
         total page' = total page + (if selects filters stored then 1 else 0).
Proof.
  intros Hroom. unfold AuditLogger.logStudentDataAccess.
  match goal with
  | |- context [AuditLogger.logEvent ?e w] =>
      destruct (logEvent_appends e w Hroom) as (w' & stored & Hlog & Hlogs & Hrec & _)
  end.
  exists w', stored. split; [exact Hlog|]. split; [exact Hlogs|].
  destruct Hrec as (_ & Hts & _ & _ & _ & Hres & Hrid & _ & Hsucc & _ & Hhub & Hsens
                    & Hflags).
  repeat (split; [assumption|]).
  intros filters page page' Hpage Hpage'.
  destruct (getAuditLogs_total filters w) as (p & Hp & Htotal).
  destruct (getAuditLogs_total filters w') as (p' & Hp' & Htotal').
  rewrite Hp in Hpage. rewrite Hp' in Hpage'. cbn [fst] in *.
  injection Hpage as <-. injection Hpage' as <-.
  rewrite Htotal, Htotal', Hlogs, filter_app, length_app. cbn [filter].
  destruct (selects filters stored); cbn [List.length]; lia.
Qed.

(** X19: [createStudent] needs the age: when the caller passes the access
    rule and the hub exists, a request without age is refused with
    [BadRequestException] 'COPPA compliance issue: Age not provided -
    cannot verify COPPA compliance'; no student is stored, and on a buffer
    with room the one refusal leaves two failure entries in the audit
    buffer, the second written by the [catch] block. *)
Theorem createStudent_requires_age (hubId : jsstring) (data : Students.StudentData)
  (ctx : AccessControl.AccessContext) (w : World) :
  accessGranted (Students.withHub ctx hubId) (js "student") (js "create") None ->
  In hubId (hubIds w) ->
  Students.age data = None ->
  let refusal :=
    js "COPPA compliance issue: Age not provided - cannot verify COPPA compliance" in
  exists w',
    Students.createStudent cipher key hubId data ctx w
    = (Thrown (BadRequestException refusal), w')
    /\ students w' = students w
    /\ (hasRoom 2 w ->
        exists first second,
          auditLogs w' = auditLogs w ++ [first; second]
          /\ AuditEntry.success first = false
          /\ AuditEntry.errorMessage first = Some refusal
          /\ AuditEntry.hubId first = Some hubId
          /\ AuditEntry.success second = false
          /\ AuditEntry.errorMessage second = Some refusal
          /\ AuditEntry.hubId second = Some hubId).
Proof.
  intros Hgranted Hin Hage refusal.
  unfold Students.createStudent, tryCatch, bind at 1.
  destruct (enforceAccess_run World w (Students.withHub ctx hubId)
              (js "student") (js "create") None) as [Hyes _].
  destruct (Hyes Hgranted) as (flags & ->).
  unfold bind at 1. unfold get at 1.
  destruct (find_hub_Some hubId w Hin) as (hub & ->).
  rewrite Hage. cbn [Students.ageOutOfRange].
  cbn [AccessControl.validateStudentAge AccessControl.compliant negb
       AccessControl.warnings join].
  change (js "COPPA compliance issue: "
          ++ js "Age not provided - cannot verify COPPA compliance") with refusal.
  unfold bind at 1.
  set (p1 := Students.failure (js "create") (js "unknown") hubId refusal).
  destruct (logStudentDataAccess_run (Students.withHub ctx hubId) p1 w)
    as (w1 & Hlog1 & Hs1 & _).
  rewrite Hlog1. unfold throw at 1. unfold bind. cbv beta iota. cbn [message].
  fold p1.
  destruct (logStudentDataAccess_run ctx p1 w1) as (w2 & Hlog2 & Hs2 & _).
  rewrite Hlog2. unfold throw. exists w2. split; [reflexivity|].
  split; [congruence|].
  intros Hroom. unfold hasRoom in Hroom.
  unfold AuditLogger.logStudentDataAccess in Hlog1, Hlog2.
  match type of Hlog1 with
  | AuditLogger.logEvent ?e w = _ =>
      destruct (logEvent_appends e w) as (w1' & e1 & Hl1 & Ha1 & Hr1 & _);
        [unfold hasRoom; lia|]
  end.
  rewrite Hl1 in Hlog1. injection Hlog1 as <-.
  match type of Hlog2 with
  | AuditLogger.logEvent ?e w1' = _ =>
      destruct (logEvent_appends e w1') as (w2' & e2 & Hl2 & Ha2 & Hr2 & _);
        [unfold hasRoom; rewrite Ha1, length_app; cbn [List.length]; lia|]
  end.
  rewrite Hl2 in Hlog2. injection Hlog2 as <-.
  exists e1, e2. rewrite Ha2, Ha1, <- app_assoc. split; [reflexivity|].
  destruct Hr1 as (_ & _ & _ & _ & _ & _ & _ & _ & Hsu1 & Her1 & Hh1 & _).
  destruct Hr2 as (_ & _ & _ & _ & _ & _ & _ & _ & Hsu2 & Her2 & Hh2 & _).
  repeat split; assumption.
Qed.

End AccessTrail.

Lemma student_access_is_reported_witness :
  exists w' stored,
    AuditLogger.logStudentDataAccess Students.defaultContext Fixtures.viewed
      Sample.world
    = (Returned tt, w')
    /\ auditLogs w' = auditLogs Sample.world ++ [stored]
    /\ AuditEntry.timestamp stored = now Sample.world
    /\ AuditEntry.resource stored = js "student"
    /\ AuditEntry.resourceId stored = Some (AuditLogger.studentId Fixtures.viewed)
    /\ AuditEntry.hubId stored = Some (AuditLogger.accessHubId Fixtures.viewed)
    /\ AuditEntry.success stored = AuditLogger.accessSuccess Fixtures.viewed
    /\ AuditEntry.sensitiveData stored = Some true
    /\ AuditEntry.complianceFlags stored = Some [js "COPPA"; js "GDPR"]
    /\ forall filters page page',
         fst (AuditQueries.getAuditLogs filters Sample.world) = Returned page ->
         fst (AuditQueries.getAuditLogs filters w') = Returned page' ->
         AuditQueries.total page'
         = AuditQueries.total page
           + (if AuditVocabulary.selects filters stored then 1 else 0).
Proof.
  apply (student_access_is_reported Students.defaultContext Fixtures.viewed
           Sample.world).
  unfold AuditVocabulary.hasRoom, AuditLogger.maxLogEntries. simpl. lia.
Defined.

Lemma createStudent_requires_age_witness :
  exists w',
    Students.createStudent ChecksumCipher.cipher [] (js "HUB-1") Fixtures.ageless
      Students.defaultContext Sample.world
    = (Thrown (BadRequestException
                 (js "COPPA compliance issue: Age not provided - cannot verify COPPA compliance")),
       w')
    /\ students w' = students Sample.world
    /\ (AuditVocabulary.hasRoom 2 Sample.world ->
        exists first second,
          auditLogs w' = auditLogs Sample.world ++ [first; second]
          /\ AuditEntry.success first = false
          /\ AuditEntry.errorMessage first
             = Some (js "COPPA compliance issue: Age not provided - cannot verify COPPA compliance")
          /\ AuditEntry.hubId first = Some (js "HUB-1")
          /\ AuditEntry.success second = false
          /\ AuditEntry.errorMessage second
             = Some (js "COPPA compliance issue: Age not provided - cannot verify COPPA compliance")
          /\ AuditEntry.hubId second = Some (js "HUB-1")).
Proof.
  apply (createStudent_requires_age ChecksumCipher.cipher [] (js "HUB-1")
           Fixtures.ageless Students.defaultContext Sample.world).
  - reflexivity.
  - left. reflexivity.
  - reflexivity.
Defined.

(* ------------------------------------------------------------------ *)
(** ** Empty permission lists *)

Section EmptyPermissions.

Variable cipher : AesGcm.
Variable key : list byte.

(** The ORM's choice of [updatedAt] on [save]. *)
Variable stamp : World -> Student.t -> Z.

(** The time zone of the process. *)
Variable zone : Date.TimeZone.

(** The answer of the student rules to a context whose permission list is
    empty. *)
Lemma empty_permissions_decision (ctx : AccessControl.AccessContext)
  (hub act : jsstring) (resourceId : option jsstring) :
  AccessControl.permissions ctx = Some [] ->
  In act [js "create"; js "update"; js "delete"] ->
  ~ accessGranted (Students.withHub ctx hub) (js "student") act resourceId.
Proof.
  intros Hperms Hact. unfold accessGranted.
  destruct ctx as [uid ut h ip ua perms]. cbn in Hperms. subst perms.
  destruct Hact as [<-|[<-|[<-|[]]]]; destruct ut; vm_compute; discriminate.
Qed.

(** X20: a context that carries an empty list of permissions is locked
    out of the student data: [createStudent], [updateStudent] and
    [deleteStudentData] throw [ForbiddenException] for it, whatever its
    user type, and leave the students as they are. *)
Theorem empty_permissions_refused (ctx : AccessControl.AccessContext) (w : World) :
  AccessControl.permissions ctx = Some [] ->
  (forall hubId data,
      exists msg w',
        Students.createStudent cipher key hubId data ctx w
        = (Thrown (ForbiddenException msg), w')
        /\ students w' = students w)
  /\ (forall studentId data,
        In studentId (map Student.id (students w)) ->
        exists msg w',
          Students.updateStudent cipher key stamp studentId data ctx w
          = (Thrown (ForbiddenException msg), w')
          /\ students w' = students w)
  /\ (forall studentId reason,
        In studentId (map Student.id (students w)) ->
        exists msg w',
          StudentAccounts.deleteStudentData zone studentId reason ctx w
          = (Thrown (ForbiddenException msg), w')
          /\ students w' = students w).
Proof.
  intros Hperms. split; [|split].
  - intros hubId data. unfold Students.createStudent, tryCatch, bind at 1.
    destruct (enforceAccess_run World w (Students.withHub ctx hubId)
                (js "student") (js "create") None) as [_ Hno].
    destruct Hno as (msg & ->);
      [apply empty_permissions_decision; [exact Hperms | now left]|].
    unfold bind.
    match goal with
    | |- context [AuditLogger.logStudentDataAccess ctx ?p w] =>
        destruct (logStudentDataAccess_run ctx p w) as (w1 & -> & Hs & _)
    end.
    now exists msg, w1.
  - intros studentId data Hin.
    destruct (find (fun s => strEq (Student.id s) studentId) (students w))
      as [old|] eqn:Hfind; [|apply find_code_None in Hfind; contradiction].
    unfold Students.updateStudent, tryCatch, bind at 1. unfold get at 1.
    rewrite Hfind. unfold bind at 1.
    destruct (enforceAccess_run World w (Students.withHub ctx (Student.hubId old))
                (js "student") (js "update") (Some studentId)) as [_ Hno].
    destruct Hno as (msg & ->);
      [apply empty_permissions_decision; [exact Hperms | right; now left]|].
    unfold bind.
    match goal with
    | |- context [AuditLogger.logStudentDataAccess ctx ?p w] =>
        destruct (logStudentDataAccess_run ctx p w) as (w1 & -> & Hs & _)
    end.
    now exists msg, w1.
  - intros studentId reason Hin.
    destruct (find (fun s => strEq (Student.id s) studentId) (students w))
      as [old|] eqn:Hfind; [|apply find_code_None in Hfind; contradiction].
    unfold StudentAccounts.deleteStudentData, tryCatch, bind at 1.
    unfold StudentAccounts.findById. rewrite Hfind. unfold bind at 1.
    destruct (enforceAccess_run World w (Students.withHub ctx (Student.hubId old))
                (js "student") (js "delete") (Some studentId)) as [_ Hno].
    destruct Hno as (msg & ->);
      [apply empty_permissions_decision; [exact Hperms | right; right; now left]|].
    unfold bind.
    match goal with
    | |- context [AuditDeletions.logDataDeletion ctx ?p w] =>
        destruct (logDataDeletion_run ctx p w) as (w1 & -> & Hs & _)
    end.
    now exists msg, w1.
Qed.

End EmptyPermissions.

Lemma empty_permissions_refused_witness :
  (forall hubId data,
      exists msg w',
        Students.createStudent ChecksumCipher.cipher [] hubId data
          Fixtures.noPermissions Sample.world
        = (Thrown (ForbiddenException msg), w')
        /\ students w' = students Sample.world)
  /\ (forall studentId data,
        In studentId (map Student.id (students Sample.world)) ->
        exists msg w',
          Students.updateStudent ChecksumCipher.cipher [] Sample.clockStamp
            studentId data Fixtures.noPermissions Sample.world
          = (Thrown (ForbiddenException msg), w')
          /\ students w' = students Sample.world)
  /\ (forall studentId reason,
        In studentId (map Student.id (students Sample.world)) ->
        exists msg w',
          StudentAccounts.deleteStudentData Date.utcZone studentId reason
            Fixtures.noPermissions Sample.world
          = (Thrown (ForbiddenException msg), w')
          /\ students w' = students Sample.world).
Proof.
  exact (empty_permissions_refused ChecksumCipher.cipher [] Sample.clockStamp
           Date.utcZone Fixtures.noPermissions Sample.world eq_refl).
Defined.

(** The refusal names the permission the rule requires. *)
Example empty_permissions_sample :
  fst (Students.createStudent ChecksumCipher.cipher [] (js "HUB-1") Fixtures.request
         Fixtures.noPermissions Sample.world)
  = Thrown (ForbiddenException (js "Missing required permissions: student:write")).
Proof. vm_compute. reflexivity. Qed.

(* ------------------------------------------------------------------ *)
(** ** AuditLoggerService: pages *)

Section AuditPages.

Import AuditQueries AuditVocabulary.

(** A slice from a position that is not negative. *)
Lemma slice_from {A : Type} (arr : list A) (start size : nat) :
  slice arr (Z.of_nat start) (Z.of_nat start + Z.of_nat size)
  = firstn size (skipn start arr).
Proof.
  unfold slice.
  rewrite (proj2 (Z.ltb_ge (Z.of_nat start) 0)) by lia.
  rewrite (proj2 (Z.ltb_ge (Z.of_nat start + Z.of_nat size) 0)) by lia.
  destruct (Nat.le_gt_cases (List.length arr) start) as [Hout|Hin].
  - rewrite !skipn_all2 by lia. now rewrite !firstn_nil.
  - replace (Z.to_nat (Z.min (Z.of_nat start) (Z.of_nat (List.length arr))))
      with start by lia.
    destruct (Nat.le_gt_cases (start + size) (List.length arr)) as [Hfull|Hpart].
    + f_equal. lia.
    + rewrite !firstn_all2; [reflexivity | |]; rewrite length_skipn; lia.
Qed.

(** Consecutive chunks of a list make up the list. *)
Lemma chunks_concat {A : Type} (size pages : nat) (l : list A) :
  (0 < size)%nat -> (List.length l <= pages * size)%nat ->
  List.concat (map (fun k => firstn size (skipn (k * size) l)) (seq 0 pages)) = l.
Proof.
  intros Hsize. revert l. induction pages as [|pages IH]; intros l Hlen.
  - destruct l; [reflexivity | cbn in Hlen; lia].
  - cbn [seq map List.concat]. rewrite <- seq_shift, map_map.
    rewrite (map_ext _ (fun k => firstn size (skipn (k * size) (skipn size l)))).
    + rewrite IH by (rewrite length_skipn; lia). apply firstn_skipn.
    + intros k. rewrite skipn_skipn. do 2 f_equal. lia.
Qed.

(** X21: the pages of a query, of a positive size and taken at the
    offsets 0, size, 2 * size and so on, put one after the other, are the
    entries that pass the filters, each once, newest first: paging skips
    nothing and repeats nothing. *)
Theorem getAuditLogs_pages_cover (filters : Filters) (w : World) (pages : nat) :
  0 < pageSize filters ->
  Z.of_nat (List.length (filter (selects filters) (auditLogs w)))
  <= Z.of_nat pages * pageSize filters ->
  exists sorted,
    Permutation sorted (filter (selects filters) (auditLogs w))
    /\ newestFirst sorted
    /\ List.concat (map (fun k => logsOf (atPage filters k) w) (seq 0 pages)) = sorted.
Proof.
  intros Hsize Hlen.
  exists (sortNewestFirst (filter (selects filters) (auditLogs w))).
  split; [apply sortNewestFirst_perm|]. split; [apply sortNewestFirst_sorted|].
  set (sorted := sortNewestFirst (filter (selects filters) (auditLogs w))).
  set (size := Z.to_nat (pageSize filters)).
  rewrite (map_ext _ (fun k => firstn size (skipn (k * size) sorted))).
  - apply chunks_concat; [lia|]. subst sorted.
    rewrite (Permutation_length (sortNewestFirst_perm _)). nia.
  - intros k. unfold logsOf, getAuditLogs, bind, get, ret. cbn [fst logs].
    rewrite filters_select.
    change (filter (selects (atPage filters k)) (auditLogs w))
      with (filter (selects filters) (auditLogs w)).
    fold sorted. cbn [offset limit atPage]. fold (pageSize filters).
    replace (orElse (Some (Z.of_nat k * pageSize filters)) 0)
      with (Z.of_nat (k * size))
      by (unfold orElse; destruct (Z.of_nat k * pageSize filters) eqn:E; nia).
    replace (pageSize filters) with (Z.of_nat size) at 1 by lia.
    apply slice_from.
Qed.

End AuditPages.

Lemma getAuditLogs_pages_cover_witness :
  let filters :=
    {| AuditQueries.userId := None; AuditQueries.resource := Some (js "student");
       AuditQueries.action := None; AuditQueries.hubId := None;
       AuditQueries.startDate := None; AuditQueries.endDate := None;
       AuditQueries.sensitiveData := None; AuditQueries.success := None;
       AuditQueries.limit := Some 1; AuditQueries.offset := None |} in
  let w := setAuditLogs [Sample.entry; Sample.entry] Sample.world in
  exists sorted,
    Permutation sorted (filter (AuditVocabulary.selects filters) (auditLogs w))
    /\ AuditVocabulary.newestFirst sorted
    /\ List.concat (map (fun k => AuditVocabulary.logsOf (AuditVocabulary.atPage filters k) w)
                 (seq 0 2))
       = sorted.
Proof.
  intros filters w. apply (getAuditLogs_pages_cover filters w 2).
  - reflexivity.
  - vm_compute. discriminate.
Defined.

(* ------------------------------------------------------------------ *)
(** ** StudentsService: failed writes *)

Section FailedWrites.

Import StoreVocabulary.

Variable cipher : AesGcm.
Variable key : list byte.

(** The ORM's choice of [updatedAt] on [save]. *)
Variable stamp : World -> Student.t -> Z.

(** The time zone of the process. *)
Variable zone : Date.TimeZone.

Lemma keeps_failsCleanly {A : Type} (m : Eff World A) :
  keepsStudents m -> failsCleanly m.
Proof. intros H w e w' Hrun. specialize (H w). now rewrite Hrun in H. Qed.

Lemma failsCleanly_bind {A B : Type} (m : Eff World A) (k : A -> Eff World B) :
  keepsStudents m -> (forall a, failsCleanly (k a)) -> failsCleanly (bind m k).
Proof.
  intros Hm Hk w e w' Hrun. unfold bind in Hrun. specialize (Hm w).
  destruct (m w) as [[a|e1] w1]; cbn [snd] in Hm.
  - rewrite <- Hm. now apply (Hk a w1 e w').
  - injection Hrun as _ <-. exact Hm.
Qed.

Lemma keeps_bind {A B : Type} (m : Eff World A) (k : A -> Eff World B) :
  keepsStudents m -> (forall a, keepsStudents (k a)) -> keepsStudents (bind m k).
Proof.
  intros Hm Hk w. unfold bind. specialize (Hm w).
  destruct (m w) as [[a|e1] w1]; cbn [snd] in *; [|exact Hm].
  rewrite <- Hm. apply Hk.
Qed.

Lemma failsCleanly_tryCatch {A : Type} (body : Eff World A)
  (handler : Exn -> Eff World A) :
  failsCleanly body -> (forall e, keepsStudents (handler e)) ->
  failsCleanly (tryCatch body handler).
Proof.
  intros Hbody Hhandler w e w' Hrun. unfold tryCatch in Hrun.
  destruct (body w) as [[a|e1] w1] eqn:Hb; [discriminate|].
  rewrite <- (Hbody w e1 w1 Hb). specialize (Hhandler e1 w1).
  now rewrite Hrun in Hhandler.
Qed.

Lemma keeps_throw {A : Type} (e : Exn) : keepsStudents (@throw World A e).
Proof. intros w. reflexivity. Qed.

Lemma keeps_ret {A : Type} (a : A) : keepsStudents (@ret World A a).
Proof. intros w. reflexivity. Qed.

Lemma keeps_get : keepsStudents (@get World).
Proof. intros w. reflexivity. Qed.

Lemma keeps_log (ctx : AccessControl.AccessContext)
  (params : AuditLogger.StudentAccess) :
  keepsStudents (AuditLogger.logStudentDataAccess ctx params).
Proof.
  intros w. destruct (logStudentDataAccess_run ctx params w) as (w' & -> & Hs & _).
  exact Hs.
Qed.

Lemma keeps_logDeletion (ctx : AccessControl.AccessContext)
  (params : AuditDeletions.DataDeletion) :
  keepsStudents (AuditDeletions.logDataDeletion ctx params).
Proof.
  intros w. destruct (logDataDeletion_run ctx params w) as (w' & -> & Hs & _).
  exact Hs.
Qed.

Lemma keeps_enforceAccess (ctx : AccessControl.AccessContext) (res act : jsstring)
  (resourceId : option jsstring) :
  keepsStudents (AccessControl.enforceAccess (Some ctx) res act resourceId).
Proof.
  intros w. destruct (enforceAccess_run World w ctx res act resourceId) as [Hyes Hno].
  unfold accessGranted in *.
  destruct (AccessControl.allowed (decision (Some ctx) res act resourceId)).
  - destruct (Hyes eq_refl) as (fl & ->). reflexivity.
  - destruct (Hno ltac:(discriminate)) as (msg & ->). reflexivity.
Qed.

Lemma keeps_encryptField (f : jsstring -> jsstring) (x : option jsstring) :
  keepsStudents (Students.encryptField cipher key f x).
Proof. intros w. now destruct (encryptField_stores cipher key f x w). Qed.

Lemma keeps_generateUniqueStudentCode (hub : option jsstring) :
  keepsStudents (Students.generateUniqueStudentCode hub).
Proof. intros w. now destruct (generateUniqueStudentCode_stores hub w). Qed.

Lemma keeps_newId : keepsStudents Students.newId.
Proof.
  intros w. destruct (newId_stores w) as (id & w1 & -> & Hs & _). exact Hs.
Qed.

(** Something that always returns fails cleanly. *)
Lemma returns_failsCleanly {A : Type} (m : Eff World A) :
  (forall w, exists a w', m w = (Returned a, w')) -> failsCleanly m.
Proof.
  intros H w e w' Hrun. destruct (H w) as (a & w1 & Hret). congruence.
Qed.

Ltac keeps :=
  repeat first
    [ apply keeps_throw | apply keeps_ret | apply keeps_get | apply keeps_log
    | apply keeps_logDeletion | apply keeps_enforceAccess
    | apply keeps_encryptField | apply keeps_generateUniqueStudentCode
    | apply keeps_newId
    | apply keeps_bind; [|intros ?] ].

Ltac failsCleanly :=
  first
    [ apply keeps_failsCleanly; solve [keeps]
    | apply failsCleanly_bind; [solve [keeps] | intros ?] ].

(** X22: a failed write leaves no trace among the students: whenever
    [createStudent], [updateStudent] or [deleteStudentData] throws,
    whatever the reason (access, validation, exhausted codes, a cipher
    that fails), the students are exactly as they were before the call. *)
Theorem failed_writes_change_nothing (ctx : AccessControl.AccessContext) :
  (forall hubId data, failsCleanly (Students.createStudent cipher key hubId data ctx))
  /\ (forall studentId data,
        failsCleanly (Students.updateStudent cipher key stamp studentId data ctx))
  /\ (forall studentId reason,
        failsCleanly (StudentAccounts.deleteStudentData zone studentId reason ctx)).
Proof.
  split; [|split].
  - intros hubId data. unfold Students.createStudent.
    apply failsCleanly_tryCatch; [|intros e; keeps].
    failsCleanly. failsCleanly.
    destruct (find _ _); [|failsCleanly].
    destruct (Students.ageOutOfRange _); [failsCleanly|].
    destruct (negb _); [failsCleanly|].
    failsCleanly. destruct (1000 <=? _); [failsCleanly|].
    do 5 failsCleanly.
    apply returns_failsCleanly. intros w.
    unfold bind at 1. unfold get at 1. unfold bind at 1. unfold modify at 1.
    unfold bind.
    match goal with
    | |- context [AuditLogger.logStudentDataAccess ?c ?p ?w0] =>
        destruct (logStudentDataAccess_run c p w0) as (w1 & -> & _)
    end.
    unfold ret. now eexists _, _.
  - intros studentId data. unfold Students.updateStudent.
    apply failsCleanly_tryCatch; [|intros e; keeps].
    failsCleanly.
    destruct (find _ _); [|failsCleanly].
    failsCleanly.
    destruct (Students.ageOutOfRange _); [failsCleanly|].
    match goal with
    | |- failsCleanly (if ?c then _ else _) => destruct c; [failsCleanly|]
    end.
    apply failsCleanly_bind.
    + unfold Students.applyUpdate.
      apply keeps_bind; [destruct (Students.firstName data); keeps | intros ?].
      apply keeps_bind; [destruct (Students.lastName data); keeps | intros ?].
      apply keeps_bind; [destruct (Students.metadata data); keeps | intros ?].
      keeps.
    + intros updated. apply returns_failsCleanly. intros w.
      unfold bind at 1. unfold Students.saveExisting, bind, get, modify, ret.
      match goal with
      | |- context [AuditLogger.logStudentDataAccess ?c ?p ?w0] =>
          destruct (logStudentDataAccess_run c p w0) as (w1 & -> & _)
      end.
      now eexists _, _.
  - intros studentId reason. unfold StudentAccounts.deleteStudentData.
    apply failsCleanly_tryCatch; [|intros e; keeps].
    apply failsCleanly_bind; [intros w; reflexivity | intros student].
    destruct student as [student|]; [|failsCleanly].
    failsCleanly. failsCleanly.
    destruct (_ && _); [failsCleanly|].
    apply returns_failsCleanly. intros w.
    unfold bind at 1. unfold modify at 1. unfold bind.
    match goal with
    | |- context [AuditDeletions.logDataDeletion ?c ?p ?w0] =>
        destruct (logDataDeletion_run c p w0) as (w1 & -> & _)
    end.
    unfold ret. now eexists _, _.
Qed.

End FailedWrites.

Lemma failed_writes_change_nothing_witness :
  students (snd (Students.createStudent ChecksumCipher.cipher [] (js "HUB-9")
                   (Sample.ageOnly 10) Students.defaultContext Sample.world))
  = students Sample.world.
Proof.
  apply (proj1 (failed_writes_change_nothing ChecksumCipher.cipher []
                  Sample.clockStamp Date.utcZone Students.defaultContext)
           (js "HUB-9") (Sample.ageOnly 10) Sample.world
           (NotFoundException (js "Hub not found"))).
  vm_compute. reflexivity.
Defined.
